(** * PyCHAMP: the farmer's optimisation model and the CONSUMAT decision policy

    A shallow embedding of [miniCHAMP/opt_model.py] (class [OptModel]) and of
    the decision methods of [py_champ/entities/farmer.py] (class [Farmer]).

    Numbers.  Python floats are modelled by exact rationals ([Q]): every
    finite float is a rational and float comparison is exact on them; the
    arithmetic of the source is taken without rounding.  What the solver sees
    (the feasible set of a model) is given a semantics over the reals, where
    [exp] and [ln] live. *)

From Stdlib Require Import List String ZArith QArith Qabs Reals Lra Lia Bool.
From Stdlib Require Import Qreals DecimalString.
Import ListNotations.

Set Implicit Arguments.

(** ** Outcomes of a Python call *)

Inductive exn : Set :=
| AssertionError
| ValueError
| KeyError
| IndexError
| NameError
| TypeError
| ZeroDivisionError.

(** A call returns, raises, or never comes back ([Diverge]). *)
Inductive result (A : Type) : Type :=
| Ok (a : A)
| Raise (e : exn)
| Diverge.

Arguments Ok {A} a.
Arguments Raise {A} e.
Arguments Diverge {A}.

(** Methods mutate [self]: a state monad whose state survives a raise, as a
    Python object keeps what was assigned before the exception. *)
Module Py.

Definition M (S A : Type) : Type := S -> S * result A.

Definition ret {S A} (a : A) : M S A := fun s => (s, Ok a).

Definition bind {S A B} (c : M S A) (k : A -> M S B) : M S B :=
  fun s =>
    match c s with
    | (s', Ok a) => k a s'
    | (s', Raise e) => (s', Raise e)
    | (s', Diverge) => (s', Diverge)
    end.

Definition raise {S A} (e : exn) : M S A := fun s => (s, Raise e).
Definition diverge {S A} : M S A := fun s => (s, Diverge).
Definition get {S} : M S S := fun s => (s, Ok s).
Definition gets {S A} (f : S -> A) : M S A := fun s => (s, Ok (f s)).
Definition modify {S} (f : S -> S) : M S unit := fun s => (f s, Ok tt).

(** A pure computation that may raise, run inside a method. *)
Definition lift {S A} (r : result A) : M S A := fun s => (s, r).

Declare Scope py_scope.
Delimit Scope py_scope with py.

Notation "x <- c1 ;; c2" := (bind c1 (fun x => c2))
  (at level 61, c1 at next level, right associativity) : py_scope.
Notation "' pat <- c1 ;; c2" := (bind c1 (fun x => match x with pat => c2 end))
  (at level 61, pat pattern, c1 at next level, right associativity) : py_scope.
Notation "c1 ;; c2" := (bind c1 (fun _ => c2))
  (at level 61, right associativity) : py_scope.

(** [for x in l: body x] *)
Fixpoint for_each {S A} (l : list A) (body : A -> M S unit) : M S unit :=
  match l with
  | [] => ret tt
  | x :: rest => bind (body x) (fun _ => for_each rest body)
  end.

(** [[f x for x in l]], evaluated left to right *)
Fixpoint for_list {S A B} (l : list A) (f : A -> M S B) : M S (list B) :=
  match l with
  | [] => ret []
  | x :: rest =>
      bind (f x) (fun y => bind (for_list rest f) (fun ys => ret (y :: ys)))
  end.

(** The same comprehension for a pure body that may raise. *)
Fixpoint map_result {A B} (f : A -> result B) (l : list A) : result (list B) :=
  match l with
  | [] => Ok []
  | x :: rest =>
      match f x with
      | Ok y =>
          match map_result f rest with
          | Ok ys => Ok (y :: ys)
          | Raise e => Raise e
          | Diverge => Diverge
          end
      | Raise e => Raise e
      | Diverge => Diverge
      end
  end.

(** [range(a, b)] *)
Definition range (a b : Z) : list Z :=
  map (fun k => (a + Z.of_nat k)%Z) (seq 0 (Z.to_nat (b - a))).

(** A dict with insertion order, as [dict.items()] iterates it. *)
Fixpoint lookup {V} (k : string) (d : list (string * V)) : option V :=
  match d with
  | [] => None
  | (k', v) :: rest => if String.eqb k k' then Some v else lookup k rest
  end.

(** [d[k] = v]: an existing key keeps its place, a new one goes last. *)
Fixpoint assign {V} (k : string) (v : V) (d : list (string * V)) : list (string * V) :=
  match d with
  | [] => [(k, v)]
  | (k', v') :: rest =>
      if String.eqb k k' then (k, v) :: rest else (k', v') :: assign k v rest
  end.

(** [d.update(other)] *)
Definition update {V} (d other : list (string * V)) : list (string * V) :=
  fold_left (fun acc kv => assign (fst kv) (snd kv) acc) other d.

(** [max(l)] and [np.max(l)] on a non-empty sequence; both raise [ValueError]
    on an empty one.  The first largest element is kept. *)
Definition max (l : list Q) : result Q :=
  match l with
  | [] => Raise ValueError
  | x :: rest => Ok (fold_left (fun m y => if Qle_bool y m then m else y) rest x)
  end.

(** [l.index(x)]: the first position holding a value equal to [x]. *)
Fixpoint index (x : Q) (l : list Q) : result nat :=
  match l with
  | [] => Raise ValueError
  | y :: rest =>
      if Qeq_bool y x then Ok 0%nat
      else match index x rest with
           | Ok i => Ok (S i)
           | Raise e => Raise e
           | Diverge => Diverge
           end
  end.

(** [str(n)] for a non-negative integer *)
Definition str (n : nat) : string := NilEmpty.string_of_uint (Nat.to_uint n).

End Py.

Import Py.
Local Open Scope py_scope.

(** ** The optimisation engine's model object

    What [gurobipy] builds: scalar variables with a type and bounds,
    constraints over expressions, an objective.  An [MVar] of shape
    [(n1, .., nk)] is [n1 * .. * nk] scalar variables sharing a name. *)
Module Grb.

Record var : Set := Var { v_name : string; v_idx : list nat }.

Definition var_eqb (x y : var) : bool :=
  String.eqb (v_name x) (v_name y) &&
  (if list_eq_dec Nat.eq_dec (v_idx x) (v_idx y) then true else false).

Inductive vtype : Set := Continuous | Binary.

(** A bound is a number or [float('inf')] with a sign. *)
Inductive bnd : Set := NegInf | Fin (q : Q) | PosInf.

Record vardecl : Set :=
  { d_var : var; d_vtype : vtype; d_lb : bnd; d_ub : bnd }.

Inductive expr : Set :=
| Const (q : Q)
| V (v : var)
| Add (e1 e2 : expr)
| Sub (e1 e2 : expr)
| Mul (e1 e2 : expr)
| DivC (e : expr) (q : Q).

Inductive sense : Set := LE | EQ | GE.

(** [Lin] is a constraint made with [addConstr]/[addConstrs]; its index is
    the key of the generator or the position in the array. [GenExp x y] is
    [addGenConstrExp(x, y)], that is [y = exp(x)]. *)
Inductive constr : Set :=
| Lin (name : string) (idx : list Z) (lhs : expr) (s : sense) (rhs : expr)
| GenExp (x y : var)
| GenLog (x y : var).

Inductive objsense : Set := MAXIMIZE | MINIMIZE.

Record model : Set :=
  { m_vars : list vardecl;
    m_constrs : list constr;
    m_obj : option (var * objsense);
    m_params : list (string * Q);
    m_disposed : bool }.

(** [gp.Model(name, env)] *)
Definition Model : model :=
  {| m_vars := []; m_constrs := []; m_obj := None; m_params := [];
     m_disposed := false |}.

Record mvar : Set := MVar { mv_name : string; mv_shape : list nat }.

(** All index tuples of a shape, in row-major order. *)
Fixpoint indices (shape : list nat) : list (list nat) :=
  match shape with
  | [] => [[]]
  | n :: rest => flat_map (fun i => map (cons i) (indices rest)) (seq 0 n)
  end.

Definition at_ (mv : mvar) (idx : list nat) : var := Var (mv_name mv) idx.

(** [mv[i1, .., ik]] with Python integers: a negative index counts from the
    end, anything outside raises [IndexError]. *)
Fixpoint norm_idx (shape : list nat) (idx : list Z) : result (list nat) :=
  match shape, idx with
  | [], [] => Ok []
  | n :: shape', i :: idx' =>
      let n' := Z.of_nat n in
      if ((0 <=? i) && (i <? n'))%Z then
        match norm_idx shape' idx' with
        | Ok r => Ok (Z.to_nat i :: r)
        | other => other
        end
      else if ((- n' <=? i) && (i <? 0))%Z then
        match norm_idx shape' idx' with
        | Ok r => Ok (Z.to_nat (n' + i) :: r)
        | other => other
        end
      else Raise IndexError
  | _, _ => Raise IndexError
  end.

Definition getitem (mv : mvar) (idx : list Z) : result var :=
  match norm_idx (mv_shape mv) idx with
  | Ok r => Ok (at_ mv r)
  | Raise e => Raise e
  | Diverge => Diverge
  end.

Definition addMVar (shape : list nat) (vt : vtype) (name : string)
    (lb ub : bnd) (m : model) : model * mvar :=
  let mv := MVar name shape in
  ({| m_vars := m_vars m ++
                map (fun idx => {| d_var := at_ mv idx; d_vtype := vt;
                                   d_lb := lb; d_ub := ub |}) (indices shape);
      m_constrs := m_constrs m; m_obj := m_obj m; m_params := m_params m;
      m_disposed := m_disposed m |}, mv).

Definition addVar (vt : vtype) (name : string) (lb ub : bnd) (m : model)
    : model * var :=
  let v := Var name [] in
  ({| m_vars := m_vars m ++ [{| d_var := v; d_vtype := vt; d_lb := lb; d_ub := ub |}];
      m_constrs := m_constrs m; m_obj := m_obj m; m_params := m_params m;
      m_disposed := m_disposed m |}, v).

Definition addConstrs (cs : list constr) (m : model) : model :=
  {| m_vars := m_vars m; m_constrs := m_constrs m ++ cs; m_obj := m_obj m;
     m_params := m_params m; m_disposed := m_disposed m |}.

Definition setObjective (v : var) (s : objsense) (m : model) : model :=
  {| m_vars := m_vars m; m_constrs := m_constrs m; m_obj := Some (v, s);
     m_params := m_params m; m_disposed := m_disposed m |}.

Definition setParam (k : string) (v : Q) (m : model) : model :=
  {| m_vars := m_vars m; m_constrs := m_constrs m; m_obj := m_obj m;
     m_params := Py.assign k v (m_params m); m_disposed := m_disposed m |}.

Definition dispose (m : model) : model :=
  {| m_vars := m_vars m; m_constrs := m_constrs m; m_obj := m_obj m;
     m_params := m_params m; m_disposed := true |}.

(** [gp.quicksum] *)
Definition quicksum (l : list expr) : expr := fold_left Add l (Const 0).

(** *** Feasible points *)

Definition assignment : Type := var -> R.

Fixpoint eval (s : assignment) (e : expr) : R :=
  match e with
  | Const q => Q2R q
  | V v => s v
  | Add e1 e2 => eval s e1 + eval s e2
  | Sub e1 e2 => eval s e1 - eval s e2
  | Mul e1 e2 => eval s e1 * eval s e2
  | DivC e1 q => eval s e1 / Q2R q
  end%R.

Definition holds (s : assignment) (c : constr) : Prop :=
  match c with
  | Lin _ _ l LE r => (eval s l <= eval s r)%R
  | Lin _ _ l EQ r => eval s l = eval s r
  | Lin _ _ l GE r => (eval s l >= eval s r)%R
  | GenExp x y => s y = exp (s x)
  | GenLog x y => s y = ln (s x)
  end.

Definition above (lb : bnd) (x : R) : Prop :=
  match lb with
  | NegInf => True
  | Fin q => (Q2R q <= x)%R
  | PosInf => False
  end.

Definition below (ub : bnd) (x : R) : Prop :=
  match ub with
  | NegInf => False
  | Fin q => (x <= Q2R q)%R
  | PosInf => True
  end.

Definition in_bounds (s : assignment) (d : vardecl) : Prop :=
  above (d_lb d) (s (d_var d)) /\ below (d_ub d) (s (d_var d)) /\
  match d_vtype d with
  | Continuous => True
  | Binary => s (d_var d) = 0%R \/ s (d_var d) = 1%R
  end.

Definition feasible (s : assignment) (m : model) : Prop :=
  Forall (in_bounds s) (m_vars m) /\ Forall (holds s) (m_constrs m).

(** [m'] has every variable and every constraint of [m]. *)
Definition extends (m m' : model) : Prop :=
  incl (m_vars m) (m_vars m') /\ incl (m_constrs m) (m_constrs m').

End Grb.

(** ** [OptModel]: building one agent's optimisation instance *)
Module OptModel.

(** *** Configuration ([config], read through [DotMap]) *)

(** [config.field.crop[c]] is the row [[ymax, wmax, a, b, c]]. *)
Definition crop_row : Set := (Q * Q * Q * Q * Q)%type.

(** [config.field.tech[te]] is [[qa, qb, l_pr]]. *)
Definition tech_row : Set := (Q * Q * Q)%type.

Record Config : Set :=
  { gurobi : option (list (string * Q));
    field_crop : list (string * crop_row);
    field_area_split : nat;
    field_field_area : Q;
    field_tech : list (string * tech_row);
    well_rho : Q;
    well_g : Q;
    finance_energy_price : Q;
    finance_crop_profit : list (string * Q);
    consumat_alpha : list (string * option Q);
    (** read by the agent ([Farmer.load_config]); [OptModel] never reads it *)
    consumat_scale : list (string * Q) }.

(** *** The instance ([self]) *)

(** Written by [setup_ini_model] only. *)
Record Options : Set :=
  { crop_options : list string;
    tech_options : list string;
    eval_metric : string;
    n_c : nat;
    n_te : nat;
    n_h : nat }.

Record Coef : Set :=
  { ymax : list Q;
    wmax : list Q;
    coef_a : list Q;
    coef_b : list Q;
    coef_c : list Q;
    area_split : nat;
    unit_area : Q;
    rho : Q;
    g : Q;
    techs : list (string * tech_row);
    energy_price : Q;
    crop_profit : list (string * Q) }.

Record Registry : Set :=
  { field_ids : list string;
    well_ids : list string;
    water_right_ids : list string;
    n_fields : nat;
    n_wells : nat;
    n_water_rights : nat }.

(** [self.vars[fid]] *)
Record FieldVars : Set :=
  { f_v : Grb.mvar;
    f_y : Grb.mvar;
    f_y_y : Grb.mvar;
    f_irr : Grb.mvar;
    f_i_area : Grb.mvar;
    f_i_rain_fed : Grb.mvar;
    f_i_te : Grb.mvar;
    f_l_pr : Grb.var;
    f_q : Grb.mvar }.

(** [self.vars] *)
Record Vars : Set :=
  { v_irr : Grb.mvar;
    v_v : Grb.mvar;
    v_y : Grb.mvar;
    v_y_y : Grb.mvar;
    v_e : Grb.mvar;
    v_profit : Grb.mvar;
    v_cost_e : option Grb.mvar;
    v_rev : option Grb.mvar;
    v_Sa : list (string * Grb.var);
    v_fields : list (string * FieldVars) }.

(** [self.msg[fid]]; [None] is the source's [None], ["optimize"] and
    ["user input"] are its two strings. *)
Record FieldMsg : Set :=
  { msg_crop_types : string;
    msg_irr_tech : string;
    msg_rain_fed_option : bool;
    msg_rain_fed_areas : option string }.

(** What [solve] leaves on the instance; [optimal_obj_value] is [None]
    before any solve and after a solve that is not optimal. *)
Record Output : Set :=
  { optimal_obj_value : option Q;
    sols : option (list (Grb.var * Q) * Q);
    gp_output : option (list (Grb.var * Q)) }.

Record OptModel : Set :=
  { name : string;
    model : Grb.model;
    opts : Options;
    coef : Coef;
    gurobi_pars : list (string * Q);
    reg : Registry;
    alphas : list (string * option Q);
    eval_metrics : list string;
    vars : Vars;
    bounds_ub_w : Q;
    bounds_ub_irr : list (string * Q);
    msg : list (string * FieldMsg);
    wr : option Q;
    time_window : option Z;
    out : Output;
    stdout : list string }.

Definition set_model (x : Grb.model) (o : OptModel) : OptModel :=
  {| name := name o; model := x; opts := opts o; coef := coef o;
     gurobi_pars := gurobi_pars o; reg := reg o; alphas := alphas o;
     eval_metrics := eval_metrics o; vars := vars o;
     bounds_ub_w := bounds_ub_w o; bounds_ub_irr := bounds_ub_irr o;
     msg := msg o; wr := wr o; time_window := time_window o; out := out o;
     stdout := stdout o |}.

Definition set_gurobi_pars (x : list (string * Q)) (o : OptModel) : OptModel :=
  {| name := name o; model := model o; opts := opts o; coef := coef o;
     gurobi_pars := x; reg := reg o; alphas := alphas o;
     eval_metrics := eval_metrics o; vars := vars o;
     bounds_ub_w := bounds_ub_w o; bounds_ub_irr := bounds_ub_irr o;
     msg := msg o; wr := wr o; time_window := time_window o; out := out o;
     stdout := stdout o |}.

Definition set_reg (x : Registry) (o : OptModel) : OptModel :=
  {| name := name o; model := model o; opts := opts o; coef := coef o;
     gurobi_pars := gurobi_pars o; reg := x; alphas := alphas o;
     eval_metrics := eval_metrics o; vars := vars o;
     bounds_ub_w := bounds_ub_w o; bounds_ub_irr := bounds_ub_irr o;
     msg := msg o; wr := wr o; time_window := time_window o; out := out o;
     stdout := stdout o |}.

Definition set_alphas (x : list (string * option Q)) (o : OptModel) : OptModel :=
  {| name := name o; model := model o; opts := opts o; coef := coef o;
     gurobi_pars := gurobi_pars o; reg := reg o; alphas := x;
     eval_metrics := eval_metrics o; vars := vars o;
     bounds_ub_w := bounds_ub_w o; bounds_ub_irr := bounds_ub_irr o;
     msg := msg o; wr := wr o; time_window := time_window o; out := out o;
     stdout := stdout o |}.

Definition set_eval_metrics (x : list string) (o : OptModel) : OptModel :=
  {| name := name o; model := model o; opts := opts o; coef := coef o;
     gurobi_pars := gurobi_pars o; reg := reg o; alphas := alphas o;
     eval_metrics := x; vars := vars o;
     bounds_ub_w := bounds_ub_w o; bounds_ub_irr := bounds_ub_irr o;
     msg := msg o; wr := wr o; time_window := time_window o; out := out o;
     stdout := stdout o |}.

Definition set_vars (x : Vars) (o : OptModel) : OptModel :=
  {| name := name o; model := model o; opts := opts o; coef := coef o;
     gurobi_pars := gurobi_pars o; reg := reg o; alphas := alphas o;
     eval_metrics := eval_metrics o; vars := x;
     bounds_ub_w := bounds_ub_w o; bounds_ub_irr := bounds_ub_irr o;
     msg := msg o; wr := wr o; time_window := time_window o; out := out o;
     stdout := stdout o |}.

Definition set_bounds_ub_irr (x : list (string * Q)) (o : OptModel) : OptModel :=
  {| name := name o; model := model o; opts := opts o; coef := coef o;
     gurobi_pars := gurobi_pars o; reg := reg o; alphas := alphas o;
     eval_metrics := eval_metrics o; vars := vars o;
     bounds_ub_w := bounds_ub_w o; bounds_ub_irr := x;
     msg := msg o; wr := wr o; time_window := time_window o; out := out o;
     stdout := stdout o |}.

Definition set_msg (x : list (string * FieldMsg)) (o : OptModel) : OptModel :=
  {| name := name o; model := model o; opts := opts o; coef := coef o;
     gurobi_pars := gurobi_pars o; reg := reg o; alphas := alphas o;
     eval_metrics := eval_metrics o; vars := vars o;
     bounds_ub_w := bounds_ub_w o; bounds_ub_irr := bounds_ub_irr o;
     msg := x; wr := wr o; time_window := time_window o; out := out o;
     stdout := stdout o |}.

Definition set_wr (x : option Q) (o : OptModel) : OptModel :=
  {| name := name o; model := model o; opts := opts o; coef := coef o;
     gurobi_pars := gurobi_pars o; reg := reg o; alphas := alphas o;
     eval_metrics := eval_metrics o; vars := vars o;
     bounds_ub_w := bounds_ub_w o; bounds_ub_irr := bounds_ub_irr o;
     msg := msg o; wr := x; time_window := time_window o; out := out o;
     stdout := stdout o |}.

Definition set_time_window (x : option Z) (o : OptModel) : OptModel :=
  {| name := name o; model := model o; opts := opts o; coef := coef o;
     gurobi_pars := gurobi_pars o; reg := reg o; alphas := alphas o;
     eval_metrics := eval_metrics o; vars := vars o;
     bounds_ub_w := bounds_ub_w o; bounds_ub_irr := bounds_ub_irr o;
     msg := msg o; wr := wr o; time_window := x; out := out o;
     stdout := stdout o |}.

Definition set_out (x : Output) (o : OptModel) : OptModel :=
  {| name := name o; model := model o; opts := opts o; coef := coef o;
     gurobi_pars := gurobi_pars o; reg := reg o; alphas := alphas o;
     eval_metrics := eval_metrics o; vars := vars o;
     bounds_ub_w := bounds_ub_w o; bounds_ub_irr := bounds_ub_irr o;
     msg := msg o; wr := wr o; time_window := time_window o; out := x;
     stdout := stdout o |}.

(** [print(s)] *)
Definition print (s : string) : Py.M OptModel unit :=
  Py.modify (fun o =>
    {| name := name o; model := model o; opts := opts o; coef := coef o;
       gurobi_pars := gurobi_pars o; reg := reg o; alphas := alphas o;
       eval_metrics := eval_metrics o; vars := vars o;
       bounds_ub_w := bounds_ub_w o; bounds_ub_irr := bounds_ub_irr o;
       msg := msg o; wr := wr o; time_window := time_window o; out := out o;
       stdout := stdout o ++ [s] |}).

(** Model calls that return a handle, run on [self.model]. *)
Definition m_addMVar (shape : list nat) (vt : Grb.vtype) (nm : string)
    (lb ub : Grb.bnd) : Py.M OptModel Grb.mvar :=
  fun o => let (m', mv) := Grb.addMVar shape vt nm lb ub (model o) in
           (set_model m' o, Ok mv).

Definition m_addVar (vt : Grb.vtype) (nm : string) (lb ub : Grb.bnd)
    : Py.M OptModel Grb.var :=
  fun o => let (m', v) := Grb.addVar vt nm lb ub (model o) in
           (set_model m' o, Ok v).

(** [m.addConstr(lhs ~ rhs, name)] on arrays adds one scalar constraint per
    cell; so does [m.addConstrs] over a generator. *)
Definition m_addConstrs (cs : list Grb.constr) : Py.M OptModel unit :=
  Py.modify (fun o => set_model (Grb.addConstrs cs (model o)) o).

Definition set_opts (x : Options) (o : OptModel) : OptModel :=
  {| name := name o; model := model o; opts := x; coef := coef o;
     gurobi_pars := gurobi_pars o; reg := reg o; alphas := alphas o;
     eval_metrics := eval_metrics o; vars := vars o;
     bounds_ub_w := bounds_ub_w o; bounds_ub_irr := bounds_ub_irr o;
     msg := msg o; wr := wr o; time_window := time_window o; out := out o;
     stdout := stdout o |}.

Definition set_coef (x : Coef) (o : OptModel) : OptModel :=
  {| name := name o; model := model o; opts := opts o; coef := x;
     gurobi_pars := gurobi_pars o; reg := reg o; alphas := alphas o;
     eval_metrics := eval_metrics o; vars := vars o;
     bounds_ub_w := bounds_ub_w o; bounds_ub_irr := bounds_ub_irr o;
     msg := msg o; wr := wr o; time_window := time_window o; out := out o;
     stdout := stdout o |}.

Definition set_bounds_ub_w (x : Q) (o : OptModel) : OptModel :=
  {| name := name o; model := model o; opts := opts o; coef := coef o;
     gurobi_pars := gurobi_pars o; reg := reg o; alphas := alphas o;
     eval_metrics := eval_metrics o; vars := vars o;
     bounds_ub_w := x; bounds_ub_irr := bounds_ub_irr o;
     msg := msg o; wr := wr o; time_window := time_window o; out := out o;
     stdout := stdout o |}.

(** *** [__init__]

    Python creates the other attributes in [setup_ini_model]; here they
    start empty. *)
Definition empty_mvar : Grb.mvar := Grb.MVar "" [].

Definition init (nm : string) : OptModel :=
  {| name := nm; model := Grb.Model;
     opts := {| crop_options := []; tech_options := []; eval_metric := "";
                n_c := 0; n_te := 0; n_h := 0 |};
     coef := {| ymax := []; wmax := []; coef_a := []; coef_b := [];
                coef_c := []; area_split := 0; unit_area := 0; rho := 0;
                g := 0; techs := []; energy_price := 0; crop_profit := [] |};
     gurobi_pars := [];
     reg := {| field_ids := []; well_ids := []; water_right_ids := [];
               n_fields := 0; n_wells := 0; n_water_rights := 0 |};
     alphas := []; eval_metrics := [];
     vars := {| v_irr := empty_mvar; v_v := empty_mvar; v_y := empty_mvar;
                v_y_y := empty_mvar; v_e := empty_mvar;
                v_profit := empty_mvar; v_cost_e := None; v_rev := None;
                v_Sa := []; v_fields := [] |};
     bounds_ub_w := 0; bounds_ub_irr := []; msg := [];
     wr := None; time_window := None;
     out := {| optimal_obj_value := None; sols := None; gp_output := None |};
     stdout := [] |}.

(** *** [setup_ini_model] *)

(** [np.array([config.field.crop[c] for c in crop_options])], whose columns
    are sliced next: with no crop option, or a crop the config does not hold,
    there is no two-dimensional table and the slice raises. *)
Definition crop_table (config : Config) (crop_options : list string)
    : result (list crop_row) :=
  match crop_options with
  | [] => Raise IndexError
  | _ =>
      Py.map_result
        (fun c => match Py.lookup c (field_crop config) with
                  | Some row => Ok row
                  | None => Raise IndexError
                  end) crop_options
  end.

Definition col0 (r : crop_row) : Q := let '(x, _, _, _, _) := r in x.
Definition col1 (r : crop_row) : Q := let '(_, x, _, _, _) := r in x.
Definition col2 (r : crop_row) : Q := let '(_, _, x, _, _) := r in x.
Definition col3 (r : crop_row) : Q := let '(_, _, _, x, _) := r in x.
Definition col4 (r : crop_row) : Q := let '(_, _, _, _, x) := r in x.

(** [[metric for metric, v in alphas.items() if v is not None]] *)
Definition weighted_metrics (al : list (string * option Q)) : list string :=
  map fst (filter (fun kv => match snd kv with Some _ => true | None => false end) al).

Definition setup_ini_model (config : Config) (horizon : nat)
    (eval_metric : string) (crop_options tech_options : list string)
    : Py.M OptModel unit :=
  Py.modify (set_opts {| crop_options := crop_options;
                         tech_options := tech_options;
                         eval_metric := eval_metric;
                         n_c := List.length crop_options;
                         n_te := List.length tech_options;
                         n_h := horizon |}) ;;
  Py.modify (set_gurobi_pars (match gurobi config with
                              | Some p => p
                              | None => []
                              end)) ;;
  Py.modify (set_reg {| field_ids := []; well_ids := [];
                        water_right_ids := []; n_fields := 0; n_wells := 0;
                        n_water_rights := 0 |}) ;;
  crop <- Py.lift (crop_table config crop_options) ;;
  old <- Py.gets coef ;;
  let n_s := field_area_split config in
  let coef1 :=
    {| ymax := map col0 crop; wmax := map col1 crop; coef_a := map col2 crop;
       coef_b := map col3 crop; coef_c := map col4 crop;
       area_split := n_s; unit_area := unit_area old; rho := rho old;
       g := g old; techs := techs old; energy_price := energy_price old;
       crop_profit := crop_profit old |} in
  Py.modify (set_coef coef1) ;;
  (if Nat.eqb n_s 0 then Py.raise ZeroDivisionError else Py.ret tt) ;;
  Py.modify (set_coef
    {| ymax := ymax coef1; wmax := wmax coef1; coef_a := coef_a coef1;
       coef_b := coef_b coef1; coef_c := coef_c coef1; area_split := n_s;
       unit_area := field_field_area config / inject_Z (Z.of_nat n_s);
       rho := well_rho config; g := well_g config;
       techs := field_tech config;
       energy_price := finance_energy_price config;
       crop_profit := finance_crop_profit config |}) ;;
  Py.modify (set_alphas (consumat_alpha config)) ;;
  Py.modify (set_eval_metrics (weighted_metrics (consumat_alpha config))) ;;
  Py.modify (set_model Grb.Model) ;;
  ub_w <- Py.lift (Py.max (map col1 crop)) ;;
  Py.modify (set_bounds_ub_w ub_w) ;;
  Py.modify (set_bounds_ub_irr []) ;;
  let n_c := List.length crop_options in
  let n_h := horizon in
  irr <- m_addMVar [n_s; n_c; n_h] Grb.Continuous "irr(cm)" (Grb.Fin 0) Grb.PosInf ;;
  v <- m_addMVar [n_h] Grb.Continuous "v(m-ha)" (Grb.Fin 0) Grb.PosInf ;;
  y <- m_addMVar [n_s; n_c; n_h] Grb.Continuous "y" (Grb.Fin 0) Grb.PosInf ;;
  y_y <- m_addMVar [n_h] Grb.Continuous "y_y" (Grb.Fin 0) (Grb.Fin 1) ;;
  e <- m_addMVar [n_h] Grb.Continuous "e(PJ)" (Grb.Fin 0) Grb.PosInf ;;
  profit <- m_addMVar [n_h] Grb.Continuous "profit" (Grb.Fin 0) Grb.PosInf ;;
  Py.modify (set_vars {| v_irr := irr; v_v := v; v_y := y; v_y_y := y_y;
                         v_e := e; v_profit := profit; v_cost_e := None;
                         v_rev := None; v_Sa := []; v_fields := [] |}) ;;
  Py.modify (set_msg []).

(** *** [setup_constr_wr] *)

(** [field_id_list]: the string ["all"] or a list of field ids. *)
Inductive field_id_list : Set :=
| all
| fids (l : list string).

(** [tail_wr]: a string or a number. *)
Inductive tail_wr_arg : Set :=
| tail_str (s : string)
| tail_val (q : Q).

(** The local [irr_sub]: not assigned when the list of fields is empty; the
    shared array for ["all"]; else the sum of the fields' arrays.  A field id
    that [self.vars] does not hold reads as an empty [DotMap], which is no
    array: it cannot be added to one nor summed. *)
Inductive irr_sub_val : Set :=
| Unbound
| NotArray
| SumOf (mvs : list Grb.mvar).

Fixpoint irr_sub_loop (vs : Vars) (acc : irr_sub_val) (first : bool)
    (l : list string) : result irr_sub_val :=
  match l with
  | [] => Ok acc
  | fid :: rest =>
      let cell := option_map f_irr (Py.lookup fid (v_fields vs)) in
      if first then
        irr_sub_loop vs (match cell with
                         | Some mv => SumOf [mv]
                         | None => NotArray
                         end) false rest
      else
        match acc, cell with
        | SumOf mvs, Some mv => irr_sub_loop vs (SumOf (mvs ++ [mv])) false rest
        | _, _ => Raise TypeError
        end
  end.

Definition irr_sub_of (vs : Vars) (fl : field_id_list) : result irr_sub_val :=
  match fl with
  | all => Ok (SumOf [v_irr vs])
  | fids l => irr_sub_loop vs Unbound true l
  end.

(** [irr_sub[i, j, h]] *)
Definition irr_sub_at (s : irr_sub_val) (idx : list Z) : result Grb.expr :=
  match s with
  | Unbound => Raise NameError
  | NotArray => Raise TypeError
  | SumOf mvs =>
      match Py.map_result (fun mv => Grb.getitem mv idx) mvs with
      | Ok [] => Raise NameError
      | Ok (x :: xs) => Ok (fold_left Grb.Add (map Grb.V xs) (Grb.V x))
      | Raise e => Raise e
      | Diverge => Diverge
      end
  end.

(** [(i, j) for i in range(n_s) for j in range(n_c)] *)
Definition cells (n_s n_c : nat) : list (nat * nat) :=
  flat_map (fun i => map (fun j => (i, j)) (seq 0 n_c)) (seq 0 n_s).

Definition wr_name (water_right_id : string) (c_i : nat) : string :=
  "c." ++ water_right_id ++ ".wr_" ++ Py.str c_i ++ "(cm)".

(** One element of the generator handed to [addConstrs]:
    [quicksum(irr_sub[i,j,h] for i .. for j ..) <= cap], the left operand
    evaluated first.  [cap] raises when the local holding it was never
    assigned. *)
Definition wr_constr (water_right_id : string) (c_i n_s n_c : nat)
    (irr_sub : irr_sub_val) (cap : result Q) (h : Z) : result Grb.constr :=
  match Py.map_result
          (fun ij => irr_sub_at irr_sub
                       [Z.of_nat (fst ij); Z.of_nat (snd ij); h])
          (cells n_s n_c) with
  | Ok terms =>
      match cap with
      | Ok q => Ok (Grb.Lin (wr_name water_right_id c_i) [h]
                      (Grb.quicksum terms) Grb.LE (Grb.Const q))
      | Raise e => Raise e
      | Diverge => Diverge
      end
  | Raise e => Raise e
  | Diverge => Diverge
  end.

(** [m.addConstrs((.. <= cap for h in years), name=..)]: the constraints are
    added one at a time as the generator yields them. *)
Definition add_window (water_right_id : string) (c_i : nat)
    (irr_sub : irr_sub_val) (cap : result Q) (years : list Z)
    : Py.M OptModel unit :=
  o <- Py.get ;;
  Py.for_each years (fun h =>
    c <- Py.lift (wr_constr water_right_id c_i (area_split (coef o))
                    (n_c (opts o)) irr_sub cap h) ;;
    m_addConstrs [c]).

(** The [while remaining_length > time_window] loop.  Each turn takes one
    unit of [fuel]; the caller gives enough for every run that ends. *)
Fixpoint middle_period (fuel : nat) (water_right_id : string)
    (irr_sub : irr_sub_val) (wr : Q) (time_window : Z) (c_i : nat)
    (start_index remaining_length : Z) : Py.M OptModel (nat * Z * Z) :=
  if (remaining_length >? time_window)%Z then
    match fuel with
    | O => Py.diverge
    | S fuel' =>
        add_window water_right_id c_i irr_sub (Ok wr)
          (Py.range start_index (start_index + time_window)) ;;
        middle_period fuel' water_right_id irr_sub wr time_window (S c_i)
          (start_index + time_window)%Z (remaining_length - time_window)%Z
    end
  else Py.ret (c_i, start_index, remaining_length).

Definition setup_constr_wr (water_right_id : string) (wr : Q)
    (field_id_list : field_id_list) (time_window : Z)
    (start_index : option Z) (remaining_wr : option Q)
    (tail_wr : tail_wr_arg) : Py.M OptModel unit :=
  o <- Py.get ;;
  let n_h := Z.of_nat (n_h (opts o)) in
  irr_sub <- Py.lift (irr_sub_of (vars o) field_id_list) ;;
  Py.modify (set_wr (Some wr)) ;;
  Py.modify (set_time_window (Some time_window)) ;;
  (* Initial period *)
  ' (c_i, start_index) <-
     match start_index, remaining_wr with
     | Some s, Some r =>
         s' <- (if (s >? n_h)%Z then
                  print "Warning: start_index is larger than (horizon - 1)." ;;
                  Py.ret (Z.max n_h (s + 1) - 1)%Z
                else Py.ret s) ;;
         add_window water_right_id 0 irr_sub (Ok r) (Py.range 0 (s' + 1)) ;;
         Py.ret (1%nat, s')
     | _, _ => Py.ret (0%nat, 0%Z)
     end ;;
  let remaining_length := (n_h - start_index)%Z in
  (* Middle period *)
  ' (c_i, start_index, remaining_length) <-
     middle_period (Z.to_nat remaining_length) water_right_id irr_sub wr
       time_window c_i start_index remaining_length ;;
  (* Last period *)
  (if (remaining_length >? 0)%Z then
     let wr_tail :=
       match tail_wr with
       | tail_str s =>
           if String.eqb s "propotion" then
             Ok (wr * inject_Z remaining_length / inject_Z time_window)
           else if String.eqb s "wr" then Ok wr
           else Raise NameError
       | tail_val _ => Raise NameError
       end in
     add_window water_right_id c_i irr_sub wr_tail
       (Py.range start_index n_h)
   else Py.ret tt) ;;
  r <- Py.gets reg ;;
  Py.modify (set_reg {| field_ids := field_ids r; well_ids := well_ids r;
                        water_right_ids := water_right_ids r ++ [water_right_id];
                        n_fields := n_fields r; n_wells := n_wells r;
                        n_water_rights := S (n_water_rights r) |}).

(** *** [setup_constr_field] *)

(** [(i, j, h)] over an array of shape [(n_s, n_c, n_h)], row-major. *)
Definition cells3 (n_s n_c n_h : nat) : list (nat * nat * nat) :=
  flat_map (fun ij => map (fun h => (ij, h)) (seq 0 n_h)) (cells n_s n_c).

Definition zs (l : list nat) : list Z := map Z.of_nat l.

(** The coefficient columns have one entry per crop option
    ([setup_ini_model] builds them from the same list), so [j] is in range
    wherever a constraint reads them. *)
Definition col (l : list Q) (j : nat) : Q := nth j l 0.

(** An indicator array given by the caller, of shape [(n_s, n_c, 1)] and
    written as its [n_s] rows of [n_c] entries; any other shape cannot be
    compared with the model's array. *)
Definition check_shape (n_s n_c : nat) (x : list (list Q)) : result unit :=
  if Nat.eqb (List.length x) n_s &&
     forallb (fun row => Nat.eqb (List.length row) n_c) x
  then Ok tt else Raise ValueError.

Definition entry (x : list (list Q)) (i j : nat) : Q := nth j (nth i x []) 0.

(** [list(i_te_input).index(1)] *)
Definition index_of_one (x : list Q) : result nat := Py.index 1 x.

Definition set_field_msg (fid : string) (f : FieldMsg -> FieldMsg)
    : Py.M OptModel unit :=
  Py.modify (fun o =>
    match Py.lookup fid (msg o) with
    | Some fm => set_msg (Py.assign fid (f fm) (msg o)) o
    | None => o
    end).

(** [f"c.{fid}<suffix>"] and [f"{fid}<suffix>"] *)
Definition cname (fid suffix : string) : string := "c." ++ fid ++ suffix.
Definition vname (fid suffix : string) : string := fid ++ suffix.

(** The technology argument [i_te] is taken as an indicator array; the
    source also accepts a technology name. *)
Definition setup_constr_field (field_id : string) (prec : Q)
    (rain_fed_option : bool) (i_area i_rain_fed : option (list (list Q)))
    (i_te : option (list Q)) : Py.M OptModel unit :=
  o <- Py.get ;;
  mx <- Py.lift (Py.max (wmax (coef o))) ;;
  (if Qle_bool prec mx then Py.ret tt else Py.raise AssertionError) ;;
  r <- Py.gets reg ;;
  Py.modify (set_reg {| field_ids := field_ids r ++ [field_id];
                        well_ids := well_ids r;
                        water_right_ids := water_right_ids r;
                        n_fields := n_fields r; n_wells := n_wells r;
                        n_water_rights := n_water_rights r |}) ;;
  let fid := field_id in
  let rain_fed_option :=
    match i_rain_fed with Some _ => true | None => rain_fed_option end in
  Py.modify (fun o' => set_msg (Py.assign fid
      {| msg_crop_types := "optimize"; msg_irr_tech := "optimize";
         msg_rain_fed_option := rain_fed_option;
         msg_rain_fed_areas := if rain_fed_option then Some "optimize"%string
                               else None |} (msg o')) o') ;;
  let i_area_input := i_area in
  let i_rain_fed_input := i_rain_fed in
  let i_te_input := i_te in
  let n_c := n_c (opts o) in
  let n_h := n_h (opts o) in
  let n_s := area_split (coef o) in
  let a := coef_a (coef o) in
  let b := coef_b (coef o) in
  let c := coef_c (coef o) in
  let ymax := ymax (coef o) in
  let wmax := wmax (coef o) in
  let ub_w := bounds_ub_w o in
  let ub_irr := ub_w - prec in
  Py.modify (fun o' => set_bounds_ub_irr (Py.assign fid ub_irr (bounds_ub_irr o')) o') ;;
  let unit_area := unit_area (coef o) in
  let C := Grb.Continuous in
  let inf := Grb.PosInf in
  let zero := Grb.Fin 0 in
  let one := Grb.Fin 1 in
  (* Add general variables *)
  irr <- m_addMVar [n_s; n_c; n_h] C (vname fid ".irr(cm)") zero (Grb.Fin ub_irr) ;;
  w <- m_addMVar [n_s; n_c; n_h] C (vname fid ".w(cm)") zero (Grb.Fin ub_w) ;;
  w_ <- m_addMVar [n_s; n_c; n_h] C (vname fid ".w_") zero one ;;
  y <- m_addMVar [n_s; n_c; n_h] C (vname fid ".y") zero inf ;;
  y_ <- m_addMVar [n_s; n_c; n_h] C (vname fid ".y_") zero one ;;
  yw_ <- m_addMVar [n_s; n_c; n_h] C (vname fid ".yw_") zero one ;;
  v_c <- m_addMVar [n_s; n_c; n_h] C (vname fid ".v_c(m-ha)") zero inf ;;
  y_y <- m_addMVar [n_h] C (vname fid ".y_y") zero one ;;
  v <- m_addMVar [n_h] C (vname fid ".v(m-ha)") zero inf ;;
  i_area <- m_addMVar [n_s; n_c; 1%nat] Grb.Binary (vname fid ".i_area") zero one ;;
  i_rain_fed <- m_addMVar [n_s; n_c; 1%nat] Grb.Binary (vname fid ".i_rain_fed") zero one ;;
  let X (mv : Grb.mvar) (i j h : nat) := Grb.V (Grb.at_ mv [i; j; h]) in
  let X1 (mv : Grb.mvar) (h : nat) := Grb.V (Grb.at_ mv [h]) in
  let K := Grb.Const in
  let each3 (nm : string) (f : nat -> nat -> nat -> Grb.expr * Grb.sense * Grb.expr) :=
    m_addConstrs
      (map (fun ijh => let '(i, j, h) := ijh in
                       let '(l, s, r) := f i j h in
                       Grb.Lin nm (zs [i; j; h]) l s r) (cells3 n_s n_c n_h)) in
  let each2 (nm : string) (f : nat -> nat -> Grb.expr * Grb.sense * Grb.expr) :=
    m_addConstrs
      (map (fun ij => let '(i, j) := ij in
                      let '(l, s, r) := f i j in
                      Grb.Lin nm (zs [i; j; 0%nat]) l s r) (cells n_s n_c)) in
  let each1 (nm : string) (n : nat) (f : nat -> Grb.expr * Grb.sense * Grb.expr) :=
    m_addConstrs
      (map (fun h => let '(l, s, r) := f h in Grb.Lin nm (zs [h]) l s r)
           (seq 0 n)) in
  (* Crop types given as an input *)
  match i_area_input with
  | Some inp =>
      Py.lift (check_shape n_s n_c inp) ;;
      each2 (cname fid ".i_area_input")
        (fun i j => (X i_area i j 0%nat, Grb.EQ, K (entry inp i j))) ;;
      set_field_msg fid (fun fm =>
        {| msg_crop_types := "user input"; msg_irr_tech := msg_irr_tech fm;
           msg_rain_fed_option := msg_rain_fed_option fm;
           msg_rain_fed_areas := msg_rain_fed_areas fm |})
  | None => Py.ret tt
  end ;;
  (* One unit area can only be planted one type of crops. *)
  m_addConstrs
    (map (fun i => Grb.Lin (cname fid ".i_area") (zs [i; 0%nat])
                     (Grb.quicksum (map (fun j => X i_area i j 0%nat) (seq 0 n_c)))
                     Grb.EQ (K 1)) (seq 0 n_s)) ;;
  (* Include rain-fed option *)
  (if rain_fed_option then
     match i_rain_fed_input with
     | Some inp =>
         Py.lift (check_shape n_s n_c inp) ;;
         each2 (cname fid ".i_rain_fed_input")
           (fun i j => (X i_rain_fed i j 0%nat, Grb.EQ, K (entry inp i j))) ;;
         set_field_msg fid (fun fm =>
           {| msg_crop_types := msg_crop_types fm;
              msg_irr_tech := msg_irr_tech fm;
              msg_rain_fed_option := msg_rain_fed_option fm;
              msg_rain_fed_areas := Some "user input"%string |})
     | None => Py.ret tt
     end ;;
     each2 (cname fid ".i_rain_fed")
       (fun i j => (Grb.Sub (X i_area i j 0%nat) (X i_rain_fed i j 0%nat),
                    Grb.GE, K 0)) ;;
     each3 (cname fid ".irr_rain_fed")
       (fun i j h => (Grb.Mul (X irr i j h) (X i_rain_fed i j 0%nat),
                      Grb.EQ, K 0))
   else
     each2 (cname fid ".no_i_rain_fed")
       (fun i j => (X i_rain_fed i j 0%nat, Grb.EQ, K 0))) ;;
  each3 (cname fid ".w(cm)")
    (fun i j h => (X w i j h, Grb.EQ, Grb.Add (X irr i j h) (K prec))) ;;
  each3 (cname fid ".w_")
    (fun i j h => (X w_ i j h, Grb.EQ, Grb.DivC (X w i j h) (col wmax j))) ;;
  each3 (cname fid ".yw_")
    (fun i j h =>
       (X yw_ i j h, Grb.EQ,
        Grb.Add (Grb.Add (Grb.Mul (K (col a j))
                            (Grb.Mul (X w_ i j h) (X w_ i j h)))
                         (Grb.Mul (K (col b j)) (X w_ i j h)))
                (K (col c j)))) ;;
  each3 (cname fid ".y_")
    (fun i j h => (X y_ i j h, Grb.EQ, Grb.Mul (X yw_ i j h) (X i_area i j 0%nat))) ;;
  each3 (cname fid ".y")
    (fun i j h => (X y i j h, Grb.EQ, Grb.Mul (X y_ i j h) (K (col ymax j)))) ;;
  each3 (cname fid ".irr(cm)")
    (fun i j h => (Grb.Mul (X irr i j h) (Grb.Sub (K 1) (X i_area i j 0%nat)),
                   Grb.EQ, K 0)) ;;
  let cm2m := 0.1 in
  each3 (cname fid ".v_c(m-ha)")
    (fun i j h => (X v_c i j h, Grb.EQ,
                   Grb.Mul (Grb.Mul (X irr i j h) (K unit_area)) (K cm2m))) ;;
  each1 (cname fid ".v(m-ha)") n_h
    (fun h => (X1 v h, Grb.EQ,
               Grb.quicksum (map (fun ij => X v_c (fst ij) (snd ij) h)
                                 (cells n_s n_c)))) ;;
  each1 (cname fid ".y_y") n_h
    (fun h => (X1 y_y h, Grb.EQ,
               Grb.DivC (Grb.quicksum (map (fun ij => X y_ (fst ij) (snd ij) h)
                                           (cells n_s n_c)))
                        (inject_Z (Z.of_nat n_s)))) ;;
  (* Tech decisions *)
  let techs := techs (coef o) in
  let n_te := n_te (opts o) in
  let tech_options := tech_options (opts o) in
  q <- m_addMVar [n_h] C (vname fid ".q(m-ha/d)") zero inf ;;
  l_pr <- m_addVar C (vname fid ".l_pr(m)") zero inf ;;
  i_te <- m_addMVar [n_te] Grb.Binary (vname fid ".i_te") zero one ;;
  rows <- Py.lift (Py.map_result
                     (fun te => match Py.lookup te techs with
                                | Some row => Ok row
                                | None => Raise TypeError
                                end) tech_options) ;;
  let irows := combine (seq 0 (List.length rows)) rows in
  each1 (cname fid ".q(m-ha/d)") n_h
    (fun h => (X1 q h, Grb.EQ,
               Grb.quicksum
                 (map (fun kr => let '(k, (qa, qb, _)) := kr in
                                 Grb.Mul (Grb.Add (Grb.Mul (K qa) (X1 v h)) (K qb))
                                         (X1 i_te k)) irows))) ;;
  m_addConstrs [Grb.Lin (cname fid ".i_te") []
                  (Grb.quicksum (map (fun k => X1 i_te k) (seq 0 n_te)))
                  Grb.EQ (K 1)] ;;
  m_addConstrs [Grb.Lin (cname fid ".l_pr(m)") [] (Grb.V l_pr) Grb.EQ
                  (Grb.quicksum
                     (map (fun kr => let '(k, (_, _, lp)) := kr in
                                     Grb.Mul (K lp) (X1 i_te k)) irows))] ;;
  (* Given tech as an input *)
  match i_te_input with
  | Some inp =>
      set_field_msg fid (fun fm =>
        {| msg_crop_types := msg_crop_types fm; msg_irr_tech := "user input";
           msg_rain_fed_option := msg_rain_fed_option fm;
           msg_rain_fed_areas := msg_rain_fed_areas fm |}) ;;
      k <- Py.lift (index_of_one inp) ;;
      te <- Py.lift (match nth_error tech_options k with
                     | Some te => Ok te
                     | None => Raise IndexError
                     end) ;;
      (if Nat.eqb (List.length inp) n_te then Py.ret tt
       else Py.raise ValueError) ;;
      each1 (cname fid ".i_te_input") n_te
        (fun k => (X1 i_te k, Grb.EQ, K (nth k inp 0))) ;;
      row <- Py.lift (match Py.lookup te techs with
                      | Some row => Ok row
                      | None => Raise TypeError
                      end) ;;
      let '(_, _, l_pr_input) := row in
      m_addConstrs [Grb.Lin (cname fid ".l_pr(m)_input") []
                      (Grb.V l_pr) Grb.EQ (K l_pr_input)] ;;
      each1 (cname fid ".i_te(m)_input") n_te
        (fun k => (X1 i_te k, Grb.EQ, K (nth k inp 0)))
  | None => Py.ret tt
  end ;;
  vs <- Py.gets vars ;;
  Py.modify (set_vars
    {| v_irr := v_irr vs; v_v := v_v vs; v_y := v_y vs; v_y_y := v_y_y vs;
       v_e := v_e vs; v_profit := v_profit vs; v_cost_e := v_cost_e vs;
       v_rev := v_rev vs; v_Sa := v_Sa vs;
       v_fields := Py.assign fid
         {| f_v := v; f_y := y; f_y_y := y_y; f_irr := irr;
            f_i_area := i_area; f_i_rain_fed := i_rain_fed; f_i_te := i_te;
            f_l_pr := l_pr; f_q := q |} (v_fields vs) |}) ;;
  r <- Py.gets reg ;;
  Py.modify (set_reg {| field_ids := field_ids r; well_ids := well_ids r;
                        water_right_ids := water_right_ids r;
                        n_fields := S (n_fields r); n_wells := n_wells r;
                        n_water_rights := n_water_rights r |}).

(** *** [setup_constr_finance] *)

Definition setup_constr_finance : Py.M OptModel unit :=
  o <- Py.get ;;
  let energy_price := energy_price (coef o) in
  let crop_profit := crop_profit (coef o) in
  let crop_options := crop_options (opts o) in
  let n_h := n_h (opts o) in
  let area_split := area_split (coef o) in
  let inf := Grb.PosInf in
  let e := v_e (vars o) in
  let y := v_y (vars o) in
  cost_e <- m_addMVar [n_h] Grb.Continuous "cost_e" (Grb.Fin 0) inf ;;
  rev <- m_addMVar [n_h] Grb.Continuous "rev" (Grb.Fin 0) inf ;;
  (* The profit variable is created in the initial to allow users to add
     contraints without a specific order. *)
  let profit := v_profit (vars o) in
  let X1 (mv : Grb.mvar) (h : nat) := Grb.V (Grb.at_ mv [h]) in
  m_addConstrs
    (map (fun h => Grb.Lin "c.cost_e" (zs [h]) (X1 cost_e h) Grb.EQ
                     (Grb.Mul (X1 e h) (Grb.Const energy_price)))
         (seq 0 n_h)) ;;
  (* a crop with no entry in [crop_profit] reads as an empty [DotMap],
     which cannot multiply a yield *)
  prices <- Py.lift
    (Py.map_result
       (fun ic => match Py.lookup (snd (snd ic)) crop_profit with
                  | Some p => Ok (fst ic, fst (snd ic), p)
                  | None => Raise TypeError
                  end)
       (flat_map (fun i => map (fun jc => (i, jc))
                             (combine (seq 0 (List.length crop_options))
                                      crop_options))
                 (seq 0 area_split))) ;;
  m_addConstrs
    (map (fun h => Grb.Lin "c.rev" (zs [h]) (X1 rev h) Grb.EQ
                     (Grb.quicksum
                        (map (fun ijp => let '(i, j, p) := ijp in
                                         Grb.Mul (Grb.V (Grb.at_ y [i; j; h]))
                                                 (Grb.Const p)) prices)))
         (seq 0 n_h)) ;;
  m_addConstrs
    (map (fun h => Grb.Lin "c.profit" (zs [h]) (X1 profit h) Grb.EQ
                     (Grb.Sub (X1 rev h) (X1 cost_e h)))
         (seq 0 n_h)) ;;
  vs <- Py.gets vars ;;
  Py.modify (set_vars
    {| v_irr := v_irr vs; v_v := v_v vs; v_y := v_y vs; v_y_y := v_y_y vs;
       v_e := v_e vs; v_profit := v_profit vs; v_cost_e := Some cost_e;
       v_rev := Some rev; v_Sa := v_Sa vs; v_fields := v_fields vs |}).

(** *** [setup_obj] *)

(** [eval_metric_vars.get(metric)]: the currently supported metrics. *)
Definition eval_metric_vars (vs : Vars) (metric : string) : option Grb.mvar :=
  if String.eqb metric "profit" then Some (v_profit vs)
  else if String.eqb metric "yield_pct" then Some (v_y_y vs)
  else None.

Definition mname (prefix metric : string) : string := prefix ++ metric.

(** The inner [add_metric(metric, alpha)].  [alpha] is what
    [alphas[metric]] holds: a number, or nothing that can be negated. *)
Definition add_metric (metric : string) (alpha : option Q)
    : Py.M OptModel unit :=
  o <- Py.get ;;
  let n_h := n_h (opts o) in
  let inf := Grb.PosInf in
  N_yr_x <- m_addMVar [n_h] Grb.Continuous (mname "N_yr_x." metric)
              Grb.NegInf (Grb.Fin 0) ;;
  N_yr_y <- m_addMVar [n_h] Grb.Continuous (mname "N_yr_y." metric)
              (Grb.Fin 0) inf ;;
  N_yr <- m_addMVar [n_h] Grb.Continuous (mname "N_yr." metric)
            (Grb.Fin 0) (Grb.Fin 1) ;;
  Sa <- m_addVar Grb.Continuous (mname "Sa." metric) (Grb.Fin 0) (Grb.Fin 1) ;;
  metric_var <- match eval_metric_vars (vars o) metric with
                | Some mv => Py.ret mv
                | None => Py.raise ValueError
                end ;;
  alpha <- match alpha with
           | Some al => Py.ret al
           | None => Py.raise TypeError
           end ;;
  let X1 (mv : Grb.mvar) (h : nat) := Grb.V (Grb.at_ mv [h]) in
  m_addConstrs
    (map (fun h => Grb.Lin (mname "c.N_yr_x." metric) (zs [h]) (X1 N_yr_x h)
                     Grb.EQ (Grb.Mul (Grb.Const (- alpha)) (X1 metric_var h)))
         (seq 0 n_h)) ;;
  Py.for_each (seq 0 n_h) (fun h =>
    m_addConstrs [Grb.GenExp (Grb.at_ N_yr_x [h]) (Grb.at_ N_yr_y [h])]) ;;
  m_addConstrs
    (map (fun h => Grb.Lin (mname "c.N_yr." metric) (zs [h]) (X1 N_yr h)
                     Grb.EQ (Grb.Sub (Grb.Const 1) (X1 N_yr_y h)))
         (seq 0 n_h)) ;;
  (if Nat.eqb n_h 0 then Py.raise ZeroDivisionError else Py.ret tt) ;;
  m_addConstrs
    [Grb.Lin (mname "c.Sa." metric) [] (Grb.V Sa) Grb.EQ
       (Grb.DivC (Grb.quicksum (map (fun h => X1 N_yr h) (seq 0 n_h)))
                 (inject_Z (Z.of_nat n_h)))] ;;
  vs <- Py.gets vars ;;
  Py.modify (set_vars
    {| v_irr := v_irr vs; v_v := v_v vs; v_y := v_y vs; v_y_y := v_y_y vs;
       v_e := v_e vs; v_profit := v_profit vs; v_cost_e := v_cost_e vs;
       v_rev := v_rev vs; v_Sa := Py.assign metric Sa (v_Sa vs);
       v_fields := v_fields vs |}).

Definition mem (x : string) (l : list string) : bool :=
  existsb (String.eqb x) l.

Definition setup_obj (alpha_dict : option (list (string * option Q)))
    : Py.M OptModel unit :=
  (* Update alpha list *)
  match alpha_dict with
  | Some d =>
      Py.modify (fun o => set_alphas (Py.update (alphas o) d) o) ;;
      Py.modify (fun o => set_eval_metrics (weighted_metrics (alphas o)) o)
  | None => Py.ret tt
  end ;;
  (* Check the selected eval_metric exist *)
  o <- Py.get ;;
  let eval_metrics := eval_metrics o in
  let eval_metric := eval_metric (opts o) in
  (if mem eval_metric eval_metrics then Py.ret tt else Py.raise ValueError) ;;
  Py.for_each eval_metrics (fun metric =>
    al <- Py.gets (fun o' => match Py.lookup metric (alphas o') with
                             | Some (Some x) => Some x
                             | _ => None
                             end) ;;
    add_metric metric al ;;
    (* Add objective *)
    if String.eqb metric eval_metric then
      sa <- Py.gets (fun o' => Py.lookup metric (v_Sa (vars o'))) ;;
      match sa with
      | Some v => Py.modify (fun o' =>
                    set_model (Grb.setObjective v Grb.MAXIMIZE (model o')) o')
      | None => Py.raise KeyError
      end
    else Py.ret tt).

(** *** [solve] *)

(** What [m.optimize()] leaves on the model: the status code, and, when a
    solution exists, its objective value and the value [X] of every
    variable. *)
Record Report : Set :=
  { Status : Z;
    objVal : Q;
    X : list (Grb.var * Q) }.

Section Solve.

(** The numeric engine. *)
Variable optimize : Grb.model -> Report.

Definition solve (keep_gp_model keep_gp_output : bool)
    (kwargs : list (string * Q)) : Py.M OptModel unit :=
  Py.modify (fun o => set_gurobi_pars (Py.update (gurobi_pars o) kwargs) o) ;;
  gurobi_pars <- Py.gets gurobi_pars ;;
  (match Py.lookup "NonConvex" gurobi_pars with
   | None => Py.modify (fun o => set_model (Grb.setParam "NonConvex" 2 (model o)) o)
   | Some _ => Py.ret tt
   end) ;;
  Py.for_each gurobi_pars (fun kv =>
    Py.modify (fun o => set_model (Grb.setParam (fst kv) (snd kv) (model o)) o)) ;;
  m <- Py.gets model ;;
  let rep := optimize m in
  (if (Status rep =? 2)%Z then   (* Optimal solution found *)
     Py.modify (fun o => set_out
       {| optimal_obj_value := Some (objVal rep);
          sols := Some (X rep, objVal rep);
          gp_output := gp_output (out o) |} o)
   else
     print "Optimal solution is not found." ;;
     Py.modify (fun o => set_out
       {| optimal_obj_value := None; sols := sols (out o);
          gp_output := gp_output (out o) |} o)) ;;
  (if keep_gp_output then
     Py.modify (fun o => set_out
       {| optimal_obj_value := optimal_obj_value (out o);
          sols := sols (out o); gp_output := Some (X rep) |} o)
   else Py.ret tt) ;;
  (if negb keep_gp_model then
     (* release the memory of the previous model *)
     Py.modify (fun o => set_model (Grb.dispose (model o)) o)
   else Py.ret tt).

End Solve.

End OptModel.

(** ** [Farmer]: the CONSUMAT decision policy *)
Module Farmer.

(** The four CONSUMAT states and the experimental one, as the strings the
    source stores in [self.state]. *)
Definition Imitation : string := "Imitation".
Definition Social_comparison : string := "Social comparison".
Definition Repetition : string := "Repetition".
Definition Deliberation : string := "Deliberation".
Definition FixCrop : string := "FixCrop".

(** An indicator array over (sub-area, crop). *)
Definition Indicator : Set := list (list Q).

(** [dm_sols[fi]]: the choices a solution holds for one field. *)
Record FieldSol : Set :=
  { i_crop : Indicator;
    i_rainfed : Indicator;
    i_te : list Q;
    pre_i_crop : Indicator;
    pre_i_te : list Q }.

(** [dm_sols]: the solution of one optimisation run. *)
Record DmSols : Set :=
  { obj : Q;
    Sa : list (string * Q);
    by_field : list (string * FieldSol) }.

(** Which precipitation a field is set up with: the year's data
    ([field.prec_aw_step[self.current_year]]) or the agent's forecast
    ([perceived_prec_aw[fi]]). *)
Inductive PrecSource : Set := prec_aw_step | perceived_prec_aw.

(** The arguments of one [dm.setup_constr_field] call; [None] leaves the
    choice to the solver. *)
Record FieldCall : Set :=
  { c_field_id : string;
    c_prec_aw : PrecSource;
    c_pre_i_crop : Indicator;
    c_pre_i_te : list Q;
    c_i_crop : option Indicator;
    c_i_rainfed : option Indicator;
    c_i_te : option (list Q) }.

(** The agent ([self]), with the attributes the decision methods and the
    state update read or write.  [agts_in_network] is a dict of live agents
    in the source; the methods only read [dm_sols] from them, and do so
    before they write anything, so each peer is held by what its [dm_sols]
    is when the method runs. *)
Record Farmer : Set :=
  { agt_id : string;
    fix_state : option string;
    fields : list string;
    agt_ids_in_network : list string;
    agts_in_network : list (string * DmSols);
    has_rngen : bool;
    sa_thre : Q;
    un_thre : Q;
    state : option string;
    satisfaction : option Q;
    expected_sa : option Q;
    uncertainty : option Q;
    selected_agt_id_in_network : option string;
    t : nat;
    current_year : Z;
    dm_sols : DmSols }.

Definition set_dm_sols (x : DmSols) (a : Farmer) : Farmer :=
  {| agt_id := agt_id a; fix_state := fix_state a; fields := fields a;
     agt_ids_in_network := agt_ids_in_network a;
     agts_in_network := agts_in_network a; has_rngen := has_rngen a;
     sa_thre := sa_thre a; un_thre := un_thre a; state := state a;
     satisfaction := satisfaction a; expected_sa := expected_sa a;
     uncertainty := uncertainty a;
     selected_agt_id_in_network := selected_agt_id_in_network a;
     t := t a; current_year := current_year a; dm_sols := x |}.

Definition set_selected_agt_id_in_network (x : option string) (a : Farmer)
    : Farmer :=
  {| agt_id := agt_id a; fix_state := fix_state a; fields := fields a;
     agt_ids_in_network := agt_ids_in_network a;
     agts_in_network := agts_in_network a; has_rngen := has_rngen a;
     sa_thre := sa_thre a; un_thre := un_thre a; state := state a;
     satisfaction := satisfaction a; expected_sa := expected_sa a;
     uncertainty := uncertainty a;
     selected_agt_id_in_network := x;
     t := t a; current_year := current_year a; dm_sols := dm_sols a |}.

(** The four assignments that end [run_simulation]. *)
Definition set_consumat (sa esa un : option Q) (st : option string)
    (a : Farmer) : Farmer :=
  {| agt_id := agt_id a; fix_state := fix_state a; fields := fields a;
     agt_ids_in_network := agt_ids_in_network a;
     agts_in_network := agts_in_network a; has_rngen := has_rngen a;
     sa_thre := sa_thre a; un_thre := un_thre a; state := st;
     satisfaction := sa; expected_sa := esa; uncertainty := un;
     selected_agt_id_in_network := selected_agt_id_in_network a;
     t := t a; current_year := current_year a; dm_sols := dm_sols a |}.

(** What lies outside the agent: how many numbers each random generator
    has handed out ([self.rngen], the model's generator, and [np.random]),
    and the optimisation runs made so far, each by the field set-ups it was
    built from. *)
Record World : Set :=
  { self : Farmer;
    rngen_draws : nat;
    np_random_draws : nat;
    runs : list (list FieldCall) }.

Definition on_self (f : Farmer -> Farmer) : Py.M World unit :=
  Py.modify (fun w => {| self := f (self w); rngen_draws := rngen_draws w;
                         np_random_draws := np_random_draws w;
                         runs := runs w |}).

(** *** The state update at the end of [run_simulation] *)

(** The [if]/[elif] chain; with no branch taken the state stays. *)
Definition next_state (satisfaction uncertainty sa_thre un_thre : Q)
    (old : option string) : option string :=
  if Qle_bool sa_thre satisfaction && Qle_bool un_thre uncertainty
  then Some Imitation
  else if negb (Qle_bool sa_thre satisfaction) && Qle_bool un_thre uncertainty
  then Some Social_comparison
  else if Qle_bool sa_thre satisfaction && negb (Qle_bool un_thre uncertainty)
  then Some Repetition
  else if negb (Qle_bool sa_thre satisfaction) && negb (Qle_bool un_thre uncertainty)
  then Some Deliberation
  else old.

(** From "We define uncertainty ..." to the end of [run_simulation];
    [satisfaction] is [needs[eval_metric]] and [expected_sa] is
    [dm_sols["Sa"][eval_metric]], both computed just above. *)
Definition update_consumat (satisfaction expected_sa : Q) (a : Farmer)
    : Farmer :=
  let expected_sa_t_1 := Farmer.expected_sa a in
  let uncertainty :=
    match expected_sa_t_1 with
    | None => Qabs (expected_sa - satisfaction)
    | Some e1 => Qabs (e1 - satisfaction)
    end in
  let st := next_state satisfaction uncertainty (sa_thre a) (un_thre a)
              (state a) in
  let st := match fix_state a with
            | Some f => Some f
            | None => st
            end in
  set_consumat (Some satisfaction) (Some expected_sa) (Some uncertainty) st a.

(** *** Decision making *)

(** The four-way choice of arguments in [make_dm]'s loop over fields. *)
Definition field_call (init : bool) (state : option string) (fi : string)
    (dm_sols_fi : FieldSol) : FieldCall :=
  let at_state s := match state with
              | Some x => String.eqb x s
              | None => false
              end in
  if init then
    (* only optimize irrigation depth with others given *)
    {| c_field_id := fi; c_prec_aw := prec_aw_step;
       c_pre_i_crop := pre_i_crop dm_sols_fi;
       c_pre_i_te := pre_i_te dm_sols_fi;
       c_i_crop := Some (i_crop dm_sols_fi); c_i_rainfed := None;
       c_i_te := Some (i_te dm_sols_fi) |}
  else if at_state FixCrop then
    {| c_field_id := fi; c_prec_aw := perceived_prec_aw;
       c_pre_i_crop := pre_i_crop dm_sols_fi;
       c_pre_i_te := pre_i_te dm_sols_fi;
       c_i_crop := Some (i_crop dm_sols_fi); c_i_rainfed := None;
       c_i_te := Some (i_te dm_sols_fi) |}
  else if at_state Deliberation then
    (* optimize irrigation depth, crop choice, tech choice *)
    {| c_field_id := fi; c_prec_aw := perceived_prec_aw;
       c_pre_i_crop := pre_i_crop dm_sols_fi;
       c_pre_i_te := pre_i_te dm_sols_fi;
       c_i_crop := None; c_i_rainfed := None; c_i_te := None |}
  else
    (* only optimize irrigation depth *)
    {| c_field_id := fi; c_prec_aw := perceived_prec_aw;
       c_pre_i_crop := pre_i_crop dm_sols_fi;
       c_pre_i_te := pre_i_te dm_sols_fi;
       c_i_crop := Some (i_crop dm_sols_fi);
       c_i_rainfed := Some (i_rainfed dm_sols_fi);
       c_i_te := Some (i_te dm_sols_fi) |}.

(** The set-up of one field as the Repetition pattern has it: the forecast
    precipitation, and crop, rain-fed and technology choices all given. *)
Definition repetition_call (fi : string) (s : FieldSol) : FieldCall :=
  {| c_field_id := fi; c_prec_aw := perceived_prec_aw;
     c_pre_i_crop := pre_i_crop s; c_pre_i_te := pre_i_te s;
     c_i_crop := Some (i_crop s); c_i_rainfed := Some (i_rainfed s);
     c_i_te := Some (i_te s) |}.

Definition find {V} (k : string) (d : list (string * V)) : result V :=
  match Py.lookup k d with
  | Some v => Ok v
  | None => Raise KeyError
  end.

(** [make_dm]'s loop over the agent's fields: one set-up per field, from
    the entry [dm_sols[fi]]. *)
Definition field_calls (init : bool) (state : option string)
    (dm_sols : DmSols) (fields : list string) : result (list FieldCall) :=
  Py.map_result
    (fun fi => match find fi (by_field dm_sols) with
               | Ok dm_sols_fi => Ok (field_call init state fi dm_sols_fi)
               | Raise e => Raise e
               | Diverge => Diverge
               end) fields.

Section Decision.

(** The agent's own [OptModel] class ([py_champ.entities.opt_model]) is not
    among the sources.  What [make_dm] does with it after the field set-ups
    (wells, water rights, finance, objective, [solve]) is a parameter: a
    function of the agent and of the field set-ups that returns the solution
    [dm.sols] or raises. *)
Variable opt_model : Farmer -> bool -> list FieldCall -> result DmSols.

(** The index a generator picks at its [k]-th draw among [n] candidates;
    the first argument tells [self.rngen] from [np.random]. *)
Variable pick : bool -> nat -> nat -> nat.

(** [make_dm(state, dm_sols, init)]: the source assumes that [dm_sols] has
    an entry for each of the agent's fields. *)
Definition make_dm (state : option string) (dm_sols : DmSols) (init : bool)
    : Py.M World DmSols :=
  w <- Py.get ;;
  calls <- Py.lift (field_calls init state dm_sols (fields (self w))) ;;
  Py.modify (fun w' => {| self := self w'; rngen_draws := rngen_draws w';
                          np_random_draws := np_random_draws w';
                          runs := runs w' ++ [calls] |}) ;;
  Py.lift (opt_model (self w) init calls).

Definition make_dm_deliberation : Py.M World unit :=
  w <- Py.get ;;
  dm_sols <- make_dm (state (self w)) (dm_sols (self w)) false ;;
  on_self (set_dm_sols dm_sols).

Definition make_dm_repetition : Py.M World unit :=
  w <- Py.get ;;
  dm_sols <- make_dm (state (self w)) (dm_sols (self w)) false ;;
  on_self (set_dm_sols dm_sols).

Definition make_dm_social_comparison : Py.M World unit :=
  w <- Py.get ;;
  let agt_ids_in_network := agt_ids_in_network (self w) in
  let agts_in_network := agts_in_network (self w) in
  (* Evaluate comparable *)
  dm_sols_list <- Py.for_list agt_ids_in_network (fun agt_id =>
    peer <- Py.lift (find agt_id agts_in_network) ;;
    w' <- Py.get ;;
    make_dm (state (self w')) peer false) ;;
  let objs := map obj dm_sols_list in
  selected_agt_obj <- Py.lift (Py.max objs) ;;
  select_agt_index <- Py.lift (Py.index selected_agt_obj objs) ;;
  Py.lift (match nth_error agt_ids_in_network select_agt_index with
           | Some _ => Ok tt
           | None => Raise IndexError
           end) ;;
  on_self (set_selected_agt_id_in_network
             (nth_error agt_ids_in_network select_agt_index)) ;;
  (* Agent's original choice *)
  make_dm_repetition ;;
  w' <- Py.get ;;
  let dm_sols := dm_sols (self w') in
  if Qle_bool selected_agt_obj (obj dm_sols) then
    on_self (set_dm_sols dm_sols)
  else
    match nth_error dm_sols_list select_agt_index with
    | Some s => on_self (set_dm_sols s)
    | None => Py.raise IndexError
    end.

(** [self.rngen.choice(ids)] inside [try], [np.random.choice(ids)] in the
    [except]: the second runs when the agent has no generator, and when the
    first raises, as both do on an empty list. *)
Definition random_choice (ids : list string) : Py.M World string :=
  w <- Py.get ;;
  match ids with
  | [] => Py.raise ValueError
  | id0 :: _ =>
      if has_rngen (self w) then
        Py.modify (fun w' => {| self := self w';
                                rngen_draws := S (rngen_draws w');
                                np_random_draws := np_random_draws w';
                                runs := runs w' |}) ;;
        Py.ret (nth (pick true (rngen_draws w) (List.length ids)
                       mod List.length ids) ids id0)
      else
        Py.modify (fun w' => {| self := self w';
                                rngen_draws := rngen_draws w';
                                np_random_draws := S (np_random_draws w');
                                runs := runs w' |}) ;;
        Py.ret (nth (pick false (np_random_draws w) (List.length ids)
                       mod List.length ids) ids id0)
  end.

Definition make_dm_imitation : Py.M World unit :=
  w <- Py.get ;;
  selected_agt_id_in_network <-
    match selected_agt_id_in_network (self w) with
    | Some id => Py.ret id
    | None => random_choice (agt_ids_in_network (self w))
    end ;;
  let agts_in_network := agts_in_network (self w) in
  peer <- Py.lift (find selected_agt_id_in_network agts_in_network) ;;
  w' <- Py.get ;;
  dm_sols <- make_dm (state (self w')) peer false ;;
  on_self (set_dm_sols dm_sols).

(** The decision part of [step]: the dispatch on [self.state]. *)
Definition decide : Py.M World unit :=
  w <- Py.get ;;
  let at_state s := match state (self w) with
              | Some x => String.eqb x s
              | None => false
              end in
  if at_state Imitation then make_dm_imitation
  else if at_state Social_comparison then make_dm_social_comparison
  else if at_state Repetition then make_dm_repetition
  else if at_state Deliberation then make_dm_deliberation
  else if at_state FixCrop then make_dm_deliberation
  else Py.ret tt.

End Decision.

(** *** Reading a decision *)

(** A field set-up that leaves nothing but the irrigation depth to the
    solver. *)
Definition all_fixed (c : FieldCall) : Prop :=
  c_prec_aw c = perceived_prec_aw /\ c_i_crop c <> None /\
  c_i_rainfed c <> None /\ c_i_te c <> None.

(** [sol] is what [make_dm] returns to agent [a] for the choices held in
    [dm]. *)
Definition solved (opt_model : Farmer -> bool -> list FieldCall -> result DmSols)
    (a : Farmer) (dm sol : DmSols) : Prop :=
  exists calls,
    field_calls false (state a) dm (fields a) = Ok calls /\
    opt_model a false calls = Ok sol.

(** The decision methods write two attributes at most: [w'] has the agent
    of [w] but for [dm_sols] and the selected peer. *)
Definition frame (w w' : World) : Prop :=
  exists d sel,
    self w' = set_dm_sols d (set_selected_agt_id_in_network sel (self w)).

(** The same with the selected peer untouched. *)
Definition frame_dm_sols (w w' : World) : Prop :=
  exists d, self w' = set_dm_sols d (self w).

(** Random numbers handed out so far, by either generator. *)
Definition draws (w : World) : nat := (rngen_draws w + np_random_draws w)%nat.

Definition same_draws (w w' : World) : Prop := draws w' = draws w.

(** The world after one more optimisation run, built from [calls]. *)
Definition add_run (calls : list FieldCall) (w : World) : World :=
  {| self := self w; rngen_draws := rngen_draws w;
     np_random_draws := np_random_draws w; runs := runs w ++ [calls] |}.

(** [n] Imitation decisions in a row, each from the state the one before
    left (whether it returned or raised). *)
Fixpoint imitation_years
    (opt_model : Farmer -> bool -> list FieldCall -> result DmSols)
    (pick : bool -> nat -> nat -> nat) (n : nat) (w : World) : World :=
  match n with
  | O => w
  | S k => imitation_years opt_model pick k
             (fst (make_dm_imitation opt_model pick w))
  end.

End Farmer.

(** ** Reading a built model *)
Module Reading.
Import OptModel.

(** The left-hand side of a water-right constraint for year [h]: the
    irrigation depth of the shared array summed over sub-areas and crops. *)
Definition wr_row (o : OptModel) (h : nat) : Grb.expr :=
  Grb.quicksum
    (map (fun ij => Grb.V (Grb.at_ (v_irr (vars o)) [fst ij; snd ij; h]))
         (cells (area_split (coef o)) (n_c (opts o)))).

(** A window of a water right as [setup_constr_wr] adds it: the batch of
    constraints of one [addConstrs] call, one per year, all with the same
    name and the same cap. *)
Definition wr_window (o : OptModel) (water_right_id : string) (c_i : nat)
    (years : list nat) (cap : Q) : list Grb.constr :=
  map (fun h => Grb.Lin (wr_name water_right_id c_i) [Z.of_nat h]
                  (wr_row o h) Grb.LE (Grb.Const cap)) years.

(** Irrigation depth summed over sub-areas, crops and the years of a
    window, at a point of the model. *)
Definition cumulative (s : Grb.assignment) (o : OptModel) (years : list nat)
    : R :=
  fold_right Rplus 0%R (map (fun h => Grb.eval s (wr_row o h)) years).

(** The mean of [f] over the horizon years [0 .. n-1]. *)
Definition mean_over_horizon (n : nat) (f : nat -> R) : R :=
  (fold_right Rplus 0%R (map f (seq 0 n)) / INR n)%R.

(** The variables [add_metric] and [setup_constr_finance] create are named
    after the metric or fixed; these are their handles. *)
Definition Sa_var (metric : string) : Grb.var :=
  Grb.Var (mname "Sa." metric) [].

Definition profit_var (h : nat) : Grb.var := Grb.Var "profit" [h].
Definition rev_var (h : nat) : Grb.var := Grb.Var "rev" [h].
Definition cost_e_var (h : nat) : Grb.var := Grb.Var "cost_e" [h].

(** One instance state [o'] comes after [o] in a build: the model has only
    grown, and the dimensions, coefficients and shared variables that
    [setup_ini_model] fixed are the same. *)
Definition later (o o' : OptModel) : Prop :=
  Grb.extends (model o) (model o') /\
  opts o' = opts o /\ coef o' = coef o /\
  v_irr (vars o') = v_irr (vars o) /\
  v_y (vars o') = v_y (vars o) /\
  v_y_y (vars o') = v_y_y (vars o) /\
  v_e (vars o') = v_e (vars o) /\
  v_profit (vars o') = v_profit (vars o).

(** The declarations [addMVar] makes for an array. *)
Definition decls (shape : list nat) (vt : Grb.vtype) (nm : string)
    (lb ub : Grb.bnd) : list Grb.vardecl :=
  map (fun idx => {| Grb.d_var := Grb.Var nm idx; Grb.d_vtype := vt;
                     Grb.d_lb := lb; Grb.d_ub := ub |}) (Grb.indices shape).

(** The constraints [add_metric] adds for one metric with weight [alpha]
    over the array [mv]. *)
Definition metric_constrs (metric : string) (alpha : Q) (mv : Grb.mvar)
    (n_h : nat) : list Grb.constr :=
  map (fun h => Grb.Lin (mname "c.N_yr_x." metric) (zs [h])
                  (Grb.V (Grb.Var (mname "N_yr_x." metric) [h])) Grb.EQ
                  (Grb.Mul (Grb.Const (- alpha)) (Grb.V (Grb.at_ mv [h]))))
      (seq 0 n_h) ++
  map (fun h => Grb.GenExp (Grb.Var (mname "N_yr_x." metric) [h])
                           (Grb.Var (mname "N_yr_y." metric) [h]))
      (seq 0 n_h) ++
  map (fun h => Grb.Lin (mname "c.N_yr." metric) (zs [h])
                  (Grb.V (Grb.Var (mname "N_yr." metric) [h])) Grb.EQ
                  (Grb.Sub (Grb.Const 1)
                     (Grb.V (Grb.Var (mname "N_yr_y." metric) [h]))))
      (seq 0 n_h) ++
  [Grb.Lin (mname "c.Sa." metric) [] (Grb.V (Sa_var metric)) Grb.EQ
     (Grb.DivC (Grb.quicksum
                  (map (fun h => Grb.V (Grb.Var (mname "N_yr." metric) [h]))
                       (seq 0 n_h)))
               (inject_Z (Z.of_nat n_h)))].

(** What one successful [add_metric] leaves. *)
Definition metric_added (metric : string) (alpha : Q) (o o' : OptModel)
    : Prop :=
  exists mv,
    eval_metric_vars (vars o) metric = Some mv /\
    n_h (opts o) <> 0%nat /\
    later o o' /\
    alphas o' = alphas o /\ eval_metrics o' = eval_metrics o /\
    Grb.m_obj (model o') = Grb.m_obj (model o) /\
    Py.lookup metric (v_Sa (vars o')) = Some (Sa_var metric) /\
    incl (metric_constrs metric alpha mv (n_h (opts o)))
         (Grb.m_constrs (model o')).

(** The body of the loop over metrics in [setup_obj], for the evaluation
    metric [em]. *)
Definition obj_body (em : string) (metric : string) : Py.M OptModel unit :=
  Py.bind (Py.gets (fun o' => match Py.lookup metric (alphas o') with
                              | Some (Some x) => Some x
                              | _ => None
                              end))
    (fun al => Py.bind (add_metric metric al) (fun _ =>
       if String.eqb metric em then
         Py.bind (Py.gets (fun o' => Py.lookup metric (v_Sa (vars o'))))
           (fun sa => match sa with
                      | Some v => Py.modify (fun o' =>
                          set_model (Grb.setObjective v Grb.MAXIMIZE (model o')) o')
                      | None => Py.raise KeyError
                      end)
       else Py.ret tt)).

(** The shared irrigation array has the shape [setup_ini_model] gives
    it. *)
Definition shaped (o : OptModel) : Prop :=
  exists nm, v_irr (vars o) =
    Grb.MVar nm [area_split (coef o); n_c (opts o); n_h (opts o)].

(** [o] differs from [o0] at most in the model and in what a set-up method
    records about itself. *)
Definition same_frame (o0 o : OptModel) : Prop :=
  opts o = opts o0 /\ coef o = coef o0 /\ vars o = vars o0.

(** Exceptions other than the failed assertion; and none at all. *)
Definition not_assertion (e : exn) : bool :=
  match e with AssertionError => false | _ => true end.

Definition no_exn (e : exn) : bool := false.

(** [only ok div c]: from any state, [c] returns, or raises an exception
    that [ok] accepts, or diverges if [div] allows it. *)
Definition only {S A} (ok : exn -> bool) (div : bool) (c : Py.M S A) : Prop :=
  forall s, match snd (c s) with
            | Ok _ => True
            | Raise e => ok e = true
            | Diverge => div = true
            end.

(** [keeps R c]: whatever its outcome, [c] takes a state to one related to
    it by [R]. *)
Definition keeps {S A} (R : S -> S -> Prop) (c : Py.M S A) : Prop :=
  forall s, R s (fst (c s)).

End Reading.

(** ** Scenarios *)
Module Scenario.
Import OptModel.

(** One crop with the response curve of the specification's example
    (max yield 15, max water 30, a = -0.5, b = 2, c = 0), one sub-area. *)
Definition config : Config :=
  {| gurobi := None;
     field_crop := [("corn"%string, (15, 30, -0.5, 2, 0))];
     field_area_split := 1;
     field_field_area := 50;
     field_tech := [("center pivot"%string, (0.05, 1, 12))];
     well_rho := 1000;
     well_g := 9.8;
     finance_energy_price := 2;
     finance_crop_profit := [("corn"%string, 5)];
     consumat_alpha := [("profit"%string, Some 1); ("yield_pct"%string, None)];
     consumat_scale := [("profit"%string, 2); ("yield_pct"%string, 1)] |}.

(** Two crops whose water requirements differ: 30 and 20. *)
Definition config2 : Config :=
  {| gurobi := None;
     field_crop := [("corn"%string, (15, 30, -0.5, 2, 0));
                    ("sorghum"%string, (10, 20, -0.5, 2, 0))];
     field_area_split := 1;
     field_field_area := 50;
     field_tech := [("center pivot"%string, (0.05, 1, 12))];
     well_rho := 1000;
     well_g := 9.8;
     finance_energy_price := 2;
     finance_crop_profit := [("corn"%string, 5); ("sorghum"%string, 4)];
     consumat_alpha := [("profit"%string, Some 1); ("yield_pct"%string, None)];
     consumat_scale := [("profit"%string, 2); ("yield_pct"%string, 1)] |}.

(** The instance after [setup_ini_model] with the given horizon. *)
Definition ini (horizon : nat) : OptModel :=
  fst (setup_ini_model config horizon "profit" ["corn"%string]
         ["center pivot"%string] (init "agt")).

Definition ini2 (horizon : nat) : OptModel :=
  fst (setup_ini_model config2 horizon "profit"
         ["corn"%string; "sorghum"%string] ["center pivot"%string]
         (init "agt")).

(** A water right of depth 50 over 3-year windows on a 7-year horizon, no
    carry-over, proportional tail. *)
Definition with_wr : OptModel :=
  fst (setup_constr_wr "W" 50 all 3 None None (tail_str "propotion") (ini 7)).

(** Irrigating 50 in each of the first six years and nothing in the last. *)
Definition fifty_a_year : Grb.assignment :=
  fun v => if String.eqb (Grb.v_name v) "irr(cm)" &&
              Nat.ltb (nth 2 (Grb.v_idx v) 0%nat) 6
           then 50%R else 0%R.

(** Nothing grows, nothing is pumped: every variable at zero. *)
Definition idle : Grb.assignment := fun _ => 0%R.

(** The instance with the financial constraints, one-year horizon. *)
Definition with_finance : OptModel := fst (setup_constr_finance (ini 1)).

(** The instance with the objective, one-year horizon. *)
Definition with_obj : OptModel := fst (setup_obj None (ini 1)).

(** A profit of 1 in the only year, and what the objective's constraints
    then force. *)
Definition profit_one : Grb.assignment :=
  fun v =>
    if String.eqb (Grb.v_name v) "profit" then 1%R
    else if String.eqb (Grb.v_name v) "N_yr_x.profit" then (-1)%R
    else if String.eqb (Grb.v_name v) "N_yr_y.profit" then exp (-1)
    else if String.eqb (Grb.v_name v) "N_yr.profit" then (1 - exp (-1))%R
    else if String.eqb (Grb.v_name v) "Sa.profit" then (1 - exp (-1))%R
    else 0%R.

(** An engine that reports infeasibility (Gurobi's status code 3). *)
Definition infeasible : Grb.model -> Report :=
  fun _ => {| Status := 3; objVal := 0; X := [] |}.

(** Two peers and an objective read off the crop row that is fixed: the
    solver of this scenario returns objective 0.62 for the agent's own
    choices, 0.70 for the first peer's and 0.65 for the second's. *)
Definition field_sol (tag : Q) : Farmer.FieldSol :=
  {| Farmer.i_crop := [[tag]]; Farmer.i_rainfed := [[0]]; Farmer.i_te := [1];
     Farmer.pre_i_crop := [[tag]]; Farmer.pre_i_te := [1] |}.

Definition sol (tag o : Q) : Farmer.DmSols :=
  {| Farmer.obj := o; Farmer.Sa := [("profit"%string, o)];
     Farmer.by_field := [("f1"%string, field_sol tag)] |}.

Definition engine : Farmer.Farmer -> bool -> list Farmer.FieldCall ->
                    result Farmer.DmSols :=
  fun _ _ calls =>
    match calls with
    | [c] =>
        match Farmer.c_i_crop c with
        | Some [[tag]] =>
            if Qeq_bool tag 1 then Ok (sol 1 0.70)
            else if Qeq_bool tag 2 then Ok (sol 2 0.65)
            else Ok (sol tag 0.62)
        | _ => Raise ValueError
        end
    | _ => Raise ValueError
    end.

Definition rng : bool -> nat -> nat -> nat := fun _ k _ => k.

Definition farmer : Farmer.Farmer :=
  {| Farmer.agt_id := "a0"; Farmer.fix_state := None;
     Farmer.fields := ["f1"%string];
     Farmer.agt_ids_in_network := ["a1"%string; "a2"%string];
     Farmer.agts_in_network := [("a1"%string, sol 1 0.5); ("a2"%string, sol 2 0.5)];
     Farmer.has_rngen := true; Farmer.sa_thre := 0.5; Farmer.un_thre := 0.1;
     Farmer.state := Some Farmer.Social_comparison;
     Farmer.satisfaction := Some 0.3; Farmer.expected_sa := Some 0.6;
     Farmer.uncertainty := Some 0.3;
     Farmer.selected_agt_id_in_network := None;
     Farmer.t := 1; Farmer.current_year := 2012;
     Farmer.dm_sols := sol 0 0.6 |}.

Definition world : Farmer.World :=
  {| Farmer.self := farmer; Farmer.rngen_draws := 0;
     Farmer.np_random_draws := 0; Farmer.runs := [] |}.

End Scenario.

(** ** More agents and engines to run the decision methods on *)
Module Cases.
Import Farmer.

Definition world_of (a : Farmer) : World :=
  {| self := a; rngen_draws := 0; np_random_draws := 0; runs := [] |}.

Definition in_state (st : string) (a : Farmer) : Farmer :=
  set_consumat (satisfaction a) (expected_sa a) (uncertainty a) (Some st) a.

(** An agent with nobody in its network. *)
Definition alone : Farmer :=
  {| agt_id := "a9"; fix_state := None; fields := ["f1"%string];
     agt_ids_in_network := []; agts_in_network := [];
     has_rngen := false; sa_thre := 0.5; un_thre := 0.1;
     state := Some Social_comparison;
     satisfaction := Some 0.3; expected_sa := Some 0.6;
     uncertainty := Some 0.3; selected_agt_id_in_network := None;
     t := 1; current_year := 2012; dm_sols := Scenario.sol 0 0.6 |}.

(** An engine whose solve always raises, one that raises on the agent's own
    choices (tag 0) only, and one that returns the same solution whatever
    it is given. *)
Definition broken : Farmer -> bool -> list FieldCall -> result DmSols :=
  fun _ _ _ => Raise ValueError.

Definition picky : Farmer -> bool -> list FieldCall -> result DmSols :=
  fun a init calls =>
    match calls with
    | [c] => match c_i_crop c with
             | Some [[tag]] => if Qeq_bool tag 0 then Raise ValueError
                               else Scenario.engine a init calls
             | _ => Scenario.engine a init calls
             end
    | _ => Scenario.engine a init calls
    end.

Definition steady : Farmer -> bool -> list FieldCall -> result DmSols :=
  fun _ _ _ => Ok (Scenario.sol 3 0.8).

End Cases.

(** ** Reading a water right over any horizon *)
Module Plan.
Import OptModel Reading.

(** Full windows the [while] loop of [setup_constr_wr] adds when the
    windows start at year [s0] of a horizon of [H] years. *)
Definition full_windows (H s0 tw : nat) : nat := (H - s0 - 1) / tw.

(** The constraint year [h] gets from the windows that start at year [s0]
    with number [c0]: the window's number in its name, the cap [wr] in a
    full window and [tail] in the last one. *)
Definition wr_year (o : OptModel) (water_right_id : string) (c0 s0 tw : nat)
    (wr tail : Q) (h : nat) : Grb.constr :=
  let c := ((h - s0) / tw)%nat in
  Grb.Lin (wr_name water_right_id (c0 + c)) [Z.of_nat h] (wr_row o h) Grb.LE
    (Grb.Const (if (c <? full_windows (n_h (opts o)) s0 tw)%nat
                then wr else tail)).

Definition wr_years (o : OptModel) (water_right_id : string) (c0 s0 tw : nat)
    (wr tail : Q) : list Grb.constr :=
  map (wr_year o water_right_id c0 s0 tw wr tail)
      (seq s0 (n_h (opts o) - s0)).

(** The years the last window is left with. *)
Definition tail_years (H s0 tw : nat) : nat :=
  (H - s0 - full_windows H s0 tw * tw)%nat.

(** The cap of the last window under the two policies the code knows. *)
Definition proportional (wr : Q) (H s0 tw : nat) : Q :=
  wr * inject_Z (Z.of_nat (tail_years H s0 tw)) / inject_Z (Z.of_nat tw).

End Plan.

(** ** Reading a field's part of the model *)
Module FieldReading.
Import OptModel.

(** The variables [setup_constr_field] creates for field [fid] are named
    after it; [cell fid ".irr(cm)" i j h] is the field's irrigation depth on
    sub-area [i] for crop [j] in year [h]. *)
Definition cell_var (fid suffix : string) (i j h : nat) : Grb.var :=
  Grb.Var (vname fid suffix) [i; j; h].

Definition cell (fid suffix : string) (i j h : nat) : Grb.expr :=
  Grb.V (cell_var fid suffix i j h).

End FieldReading.

(** ** A field to look at *)
Module FieldCase.
Import OptModel.

(** One field on the one-crop instance, one year, no precipitation, the
    crop given as planted. *)
Definition one_field : OptModel :=
  fst (setup_constr_field "f1" 0 false (Some [[1]]) None None
         (Scenario.ini 1)).

(** The point that plants the crop and does not irrigate. *)
Definition idle_field : Grb.assignment :=
  fun v =>
    if String.eqb (Grb.v_name v) "f1.i_area" then 1%R
    else if String.eqb (Grb.v_name v) "f1.i_te" then 1%R
    else if String.eqb (Grb.v_name v) "f1.q(m-ha/d)" then 1%R
    else if String.eqb (Grb.v_name v) "f1.l_pr(m)" then 12%R
    else 0%R.

(** Two crops requiring at most 30 and 20, and a precipitation of 25. *)
Definition wet_field : OptModel :=
  fst (setup_constr_field "f1" 25 false None None None (Scenario.ini2 1)).

End FieldCase.

(** ** An engine that finds an optimum *)
Module SolveCase.
Import OptModel.

(** Reports an optimum (status 2) of value 0.5 with every variable at
    zero. *)
Definition optimal : Grb.model -> Report :=
  fun m => {| Status := 2; objVal := 0.5;
              X := map (fun d => (Grb.d_var d, 0)) (Grb.m_vars m) |}.

End SolveCase.

(** ** Writing the model to a file ([write_ilp], [write_sol], [write_lp],
    [write_mps]) *)
Module Files.
Import OptModel.

(** [s[-n:]]: the last [n] characters, or the whole string when it is
    shorter. *)
Fixpoint last_chars (n : nat) (s : string) : string :=
  match s with
  | EmptyString => EmptyString
  | String _ rest =>
      if Nat.leb (String.length s) n then s else last_chars n rest
  end.

(** The files written so far, each with the model it holds. *)
Definition Disk : Set := list (string * Grb.model).

(** [m.write(filename)] *)
Definition m_write (filename : string) : Py.M (OptModel * Disk) unit :=
  Py.modify (fun od => (fst od, snd od ++ [(filename, model (fst od))])).

Definition write_ilp (filename : string) : Py.M (OptModel * Disk) unit :=
  let filename := if negb (String.eqb (last_chars 4 filename) ".ilp")
                  then (filename ++ ".ilp")%string else filename in
  m_write filename.

Definition write_sol (filename : string) : Py.M (OptModel * Disk) unit :=
  let filename := if negb (String.eqb (last_chars 4 filename) ".sol")
                  then (filename ++ ".sol")%string else filename in
  m_write filename.

Definition write_lp (filename : string) : Py.M (OptModel * Disk) unit :=
  let filename := if negb (String.eqb (last_chars 3 filename) ".lp")
                  then (filename ++ ".lp")%string else filename in
  m_write filename.

Definition write_mps (filename : string) : Py.M (OptModel * Disk) unit :=
  let filename := if negb (String.eqb (last_chars 3 filename) ".mps")
                  then (filename ++ ".mps")%string else filename in
  m_write filename.

(** The name of the last file written. *)
Definition last_written (d : Disk) : option string :=
  option_map fst (last (map Some d) None).

End Files.

(** ** Reading what a call leaves when it fails *)
Module Trace.
Import OptModel.

(** Nothing recorded: the registry and the fields' variables are as they
    were. *)
Definition quiet (o o' : OptModel) : Prop :=
  reg o' = reg o /\ v_fields (vars o') = v_fields (vars o).

(** The field [fid] recorded: counted, and its variables stored. *)
Definition recorded (fid : string) (o o' : OptModel) : Prop :=
  field_ids (reg o') = field_ids (reg o) /\
  n_fields (reg o') = S (n_fields (reg o)) /\
  Py.lookup fid (v_fields (vars o')) <> None.

(** [c] records nothing unless it returns, and records [fid] when it
    does. *)
Definition all_or_nothing {A} (fid : string) (c : Py.M OptModel A) : Prop :=
  forall o, match snd (c o) with
            | Ok _ => recorded fid o (fst (c o))
            | _ => quiet o (fst (c o))
            end.

End Trace.

(** ** Reading the financial constraints *)
Module FinanceReading.
Import OptModel.

(** [for i in range(area_split) for j, c in enumerate(crop_options)] *)
Definition priced_cells (o : OptModel) : list (nat * (nat * string)) :=
  flat_map (fun i => map (fun jc => (i, jc))
                       (combine (seq 0 (List.length (crop_options (opts o))))
                                (crop_options (opts o))))
           (seq 0 (area_split (coef o))).

(** [crop_profit[c]] *)
Definition price_of (o : OptModel) (c : string) : Q :=
  match Py.lookup c (crop_profit (coef o)) with
  | Some p => p
  | None => 0
  end.

End FinanceReading.

(** * Properties of the optimisation model *)
Module OptModelFacts.
Import OptModel Reading.

(** ** Stepping through a method *)

Lemma bind_ret {S A B} (a : A) (k : A -> Py.M S B) s :
  Py.bind (Py.ret a) k s = k a s.
Proof. reflexivity. Qed.

Lemma bind_modify {S B} (f : S -> S) (k : unit -> Py.M S B) s :
  Py.bind (Py.modify f) k s = k tt (f s).
Proof. reflexivity. Qed.

Lemma bind_get {S B} (k : S -> Py.M S B) s :
  Py.bind Py.get k s = k s s.
Proof. reflexivity. Qed.

Lemma bind_gets {S A B} (f : S -> A) (k : A -> Py.M S B) s :
  Py.bind (Py.gets f) k s = k (f s) s.
Proof. reflexivity. Qed.

Lemma bind_raise {S A B} (e : exn) (k : A -> Py.M S B) s :
  Py.bind (Py.raise e) k s = (s, Raise e).
Proof. reflexivity. Qed.

Lemma bind_lift {S A B} (r : result A) (k : A -> Py.M S B) s :
  Py.bind (Py.lift r) k s =
  match r with
  | Ok a => k a s
  | Raise e => (s, Raise e)
  | Diverge => (s, Diverge)
  end.
Proof. now destruct r. Qed.

Lemma bind_bind {S A B C} (c : Py.M S A) (k1 : A -> Py.M S B)
    (k2 : B -> Py.M S C) s :
  Py.bind (Py.bind c k1) k2 s = Py.bind c (fun a => Py.bind (k1 a) k2) s.
Proof. unfold Py.bind. now destruct (c s) as [s' [a|e|]]. Qed.

Lemma bind_if {S A B} (b : bool) (c1 c2 : Py.M S A) (k : A -> Py.M S B) s :
  Py.bind (if b then c1 else c2) k s =
  if b then Py.bind c1 k s else Py.bind c2 k s.
Proof. now destruct b. Qed.

Lemma bind_addMVar {B} sh vt nm lb ub (k : Grb.mvar -> Py.M OptModel B) o :
  Py.bind (m_addMVar sh vt nm lb ub) k o =
  k (Grb.MVar nm sh)
    (set_model (fst (Grb.addMVar sh vt nm lb ub (model o))) o).
Proof. reflexivity. Qed.

Lemma bind_addVar {B} vt nm lb ub (k : Grb.var -> Py.M OptModel B) o :
  Py.bind (m_addVar vt nm lb ub) k o =
  k (Grb.Var nm []) (set_model (fst (Grb.addVar vt nm lb ub (model o))) o).
Proof. reflexivity. Qed.

Lemma bind_addConstrs {B} cs (k : unit -> Py.M OptModel B) o :
  Py.bind (m_addConstrs cs) k o =
  k tt (set_model (Grb.addConstrs cs (model o)) o).
Proof. reflexivity. Qed.

Ltac py_step :=
  first [ rewrite bind_bind
        | rewrite bind_ret
        | rewrite bind_modify
        | rewrite bind_get
        | rewrite bind_gets
        | rewrite bind_raise
        | rewrite bind_addMVar
        | rewrite bind_addVar
        | rewrite bind_addConstrs
        | rewrite bind_lift
        | rewrite bind_if ].

Ltac py_step_in H :=
  first [ rewrite bind_bind in H
        | rewrite bind_ret in H
        | rewrite bind_modify in H
        | rewrite bind_get in H
        | rewrite bind_gets in H
        | rewrite bind_raise in H
        | rewrite bind_addMVar in H
        | rewrite bind_addVar in H
        | rewrite bind_addConstrs in H
        | rewrite bind_lift in H
        | rewrite bind_if in H ].

Lemma map_result_ok {A B} (f : A -> result B) (g : A -> B) (l : list A) :
  (forall x, In x l -> f x = Ok (g x)) -> Py.map_result f l = Ok (map g l).
Proof.
  induction l as [|x l IH]; intros H; simpl; [reflexivity|].
  rewrite (H x (or_introl eq_refl)), IH; [reflexivity|].
  intros y Hy. apply H. now right.
Qed.

Lemma in_cells n_s n_c i j :
  In (i, j) (cells n_s n_c) <-> (i < n_s /\ j < n_c)%nat.
Proof.
  unfold cells. rewrite in_flat_map. split.
  - intros (x & Hx & Hin). apply in_map_iff in Hin as (y & Heq & Hy).
    inversion Heq; subst. apply in_seq in Hx, Hy. lia.
  - intros [Hi Hj]. exists i. split; [apply in_seq; lia|].
    apply in_map_iff. exists j. split; [reflexivity|apply in_seq; lia].
Qed.

Lemma ini_inv config horizon em co to o0 o :
  setup_ini_model config horizon em co to o0 = (o, Ok tt) ->
  n_h (opts o) = horizon /\ n_c (opts o) = List.length co /\
  area_split (coef o) = field_area_split config /\
  field_area_split config <> 0%nat /\
  vars o = {| v_irr := Grb.MVar "irr(cm)" [field_area_split config; List.length co; horizon];
              v_v := Grb.MVar "v(m-ha)" [horizon];
              v_y := Grb.MVar "y" [field_area_split config; List.length co; horizon];
              v_y_y := Grb.MVar "y_y" [horizon];
              v_e := Grb.MVar "e(PJ)" [horizon];
              v_profit := Grb.MVar "profit" [horizon];
              v_cost_e := None; v_rev := None; v_Sa := []; v_fields := [] |} /\
  Grb.m_constrs (model o) = [] /\
  incl (decls [horizon] Grb.Continuous "profit" (Grb.Fin 0) Grb.PosInf)
       (Grb.m_vars (model o)) /\
  eval_metric (opts o) = em /\ alphas o = consumat_alpha config /\
  eval_metrics o = weighted_metrics (consumat_alpha config).
Proof.
  unfold setup_ini_model. intros H.
  repeat py_step_in H.
  destruct (crop_table config co) as [crop| |]; try discriminate.
  repeat py_step_in H.
  destruct (Nat.eqb_spec (field_area_split config) 0); try discriminate.
  repeat py_step_in H.
  destruct (Py.max (map col1 crop)); try discriminate.
  repeat py_step_in H.
  unfold Py.modify in H.
  injection H as H. subst o.
  repeat split; try reflexivity; try assumption.
  intros d Hd. cbn. apply in_or_app. right. exact Hd.
Qed.

Lemma norm_idx3 n_s n_c n_h i j h :
  (i < n_s)%nat -> (j < n_c)%nat -> (h < n_h)%nat ->
  Grb.norm_idx [n_s; n_c; n_h] [Z.of_nat i; Z.of_nat j; Z.of_nat h] =
  Ok [i; j; h].
Proof.
  intros Hi Hj Hh. simpl.
  repeat match goal with
  | |- context [((0 <=? Z.of_nat ?x) && (Z.of_nat ?x <? Z.of_nat ?n))%Z] =>
      replace ((0 <=? Z.of_nat x) && (Z.of_nat x <? Z.of_nat n))%Z with true
        by (symmetry; apply andb_true_iff; split;
            [apply Z.leb_le | apply Z.ltb_lt]; lia)
  end.
  now rewrite !Nat2Z.id.
Qed.

Lemma wr_constr_all o id c_i cap h :
  shaped o -> (h < n_h (opts o))%nat ->
  wr_constr id c_i (area_split (coef o)) (n_c (opts o))
    (SumOf [v_irr (vars o)]) (Ok cap) (Z.of_nat h) =
  Ok (Grb.Lin (wr_name id c_i) [Z.of_nat h] (wr_row o h) Grb.LE (Grb.Const cap)).
Proof.
  intros [nm Hs] Hh. unfold wr_constr, wr_row.
  rewrite (map_result_ok _
             (fun ij => Grb.V (Grb.at_ (v_irr (vars o)) [fst ij; snd ij; h]))).
  - reflexivity.
  - intros [i j] Hin. apply in_cells in Hin as [Hi Hj].
    unfold irr_sub_at, Grb.getitem. simpl Py.map_result.
    rewrite Hs. simpl Grb.mv_shape. rewrite norm_idx3 by assumption.
    reflexivity.
Qed.

Lemma add_window_all o0 o id c_i cap years :
  shaped o0 -> (forall h, In h years -> (h < n_h (opts o0))%nat) ->
  same_frame o0 o ->
  add_window id c_i (SumOf [v_irr (vars o0)]) (Ok cap) (map Z.of_nat years) o =
  (set_model (Grb.addConstrs (wr_window o0 id c_i years cap) (model o)) o, Ok tt).
Proof.
  intros Hs Hy (Ho & Hc & Hv). unfold add_window. rewrite bind_get.
  rewrite Ho, Hc. clear Ho Hc Hv.
  revert o. induction years as [|h years IH]; intros o.
  - simpl. unfold Py.ret, set_model, Grb.addConstrs. simpl.
    rewrite app_nil_r. now destruct o as [? [] ? ? ? ? ? ? ? ? ? ? ? ? ? ?].
  - simpl Py.for_each. simpl map. rewrite bind_bind, bind_lift.
    rewrite wr_constr_all by (auto; apply Hy; now left).
    rewrite bind_addConstrs.
    rewrite IH by (intros; apply Hy; now right).
    f_equal. unfold set_model, Grb.addConstrs. simpl. now rewrite <- app_assoc.
Qed.

Lemma later_shaped config horizon em co to o0 o1 o :
  setup_ini_model config horizon em co to o0 = (o1, Ok tt) ->
  later o1 o -> shaped o /\ n_h (opts o) = horizon.
Proof.
  intros Hini (_ & Ho & Hc & Hirr & _).
  apply ini_inv in Hini as (Hh & Hnc & Hs & _ & Hv & _).
  split.
  - exists "irr(cm)"%string. rewrite Hirr, Ho, Hc, Hv, Hh, Hnc, Hs. reflexivity.
  - now rewrite Ho.
Qed.

Lemma middle_period_S fuel id a wr tw c_i start rem :
  (rem >? tw)%Z = true ->
  middle_period (S fuel) id a wr tw c_i start rem =
  Py.bind (add_window id c_i a (Ok wr) (Py.range start (start + tw)))
    (fun _ => middle_period fuel id a wr tw (S c_i) (start + tw)%Z (rem - tw)%Z).
Proof. intros H. simpl. now rewrite H. Qed.

Lemma middle_period_done fuel id a wr tw c_i start rem :
  (rem >? tw)%Z = false ->
  middle_period fuel id a wr tw c_i start rem = Py.ret (c_i, start, rem).
Proof. intros H. destruct fuel; simpl; now rewrite H. Qed.

Lemma bind_add_window {B} o0 o id c_i cap years (k : unit -> Py.M OptModel B) :
  shaped o0 -> (forall h, In h years -> (h < n_h (opts o0))%nat) ->
  same_frame o0 o ->
  Py.bind (add_window id c_i (SumOf [v_irr (vars o0)]) (Ok cap)
             (map Z.of_nat years)) k o =
  k tt (set_model (Grb.addConstrs (wr_window o0 id c_i years cap) (model o)) o).
Proof.
  intros Hs Hy Hf. unfold Py.bind at 1. now rewrite add_window_all.
Qed.

Ltac wr_window_step o H7 :=
  rewrite (@bind_add_window _ o);
  [ | assumption
    | rewrite H7; simpl; intros; lia
    | repeat split ].


Lemma later_refl o : later o o.
Proof. unfold later, Grb.extends. repeat split; auto using incl_refl. Qed.


Lemma wr_constr_unbound o id c_i e h :
  shaped o -> (h < n_h (opts o))%nat ->
  wr_constr id c_i (area_split (coef o)) (n_c (opts o))
    (SumOf [v_irr (vars o)]) (Raise e) (Z.of_nat h) = Raise e.
Proof.
  intros [nm Hs] Hh. unfold wr_constr.
  rewrite (map_result_ok _
             (fun ij => Grb.V (Grb.at_ (v_irr (vars o)) [fst ij; snd ij; h]))).
  - reflexivity.
  - intros [i j] Hin. apply in_cells in Hin as [Hi Hj].
    unfold irr_sub_at, Grb.getitem. simpl Py.map_result.
    rewrite Hs. simpl Grb.mv_shape. rewrite norm_idx3 by assumption.
    reflexivity.
Qed.

Lemma bind_add_window_unbound {B} o0 o id c_i e h years
    (k : unit -> Py.M OptModel B) :
  shaped o0 -> (h < n_h (opts o0))%nat -> same_frame o0 o ->
  Py.bind (add_window id c_i (SumOf [v_irr (vars o0)]) (Raise e)
             (map Z.of_nat (h :: years))) k o = (o, Raise e).
Proof.
  intros Hs Hh (Ho & Hc & _). unfold add_window.
  rewrite bind_bind, bind_get. rewrite Ho, Hc. simpl map. simpl Py.for_each.
  rewrite !bind_bind, bind_lift. now rewrite wr_constr_unbound.
Qed.

(** C6.  With a number as tail policy the call does not complete: on the
    7-year horizon with 3-year windows the two full windows are added and the
    tail raises [NameError], whatever the number; no constraint carries it,
    and the water right is not registered. *)
Theorem wr_numeric_tail_raises config em co to nm id o1 o (q : Q) :
  setup_ini_model config 7 em co to (init nm) = (o1, Ok tt) ->
  later o1 o ->
  let r := setup_constr_wr id 50 all 3 None None (tail_val q) o in
  snd r = Raise NameError /\
  Grb.m_constrs (model (fst r)) =
    Grb.m_constrs (model o) ++
    wr_window o id 0 [0; 1; 2]%nat 50 ++
    wr_window o id 1 [3; 4; 5]%nat 50 /\
  reg (fst r) = reg o.
Proof.
  intros Hini Hl r.
  destruct (@later_shaped _ _ _ _ _ _ _ _ Hini Hl) as [Hs H7].
  eassert (E : r = (_, Raise NameError)).
  { subst r. unfold setup_constr_wr.
    repeat py_step. unfold irr_sub_of. cbv beta iota.
    repeat py_step. rewrite H7.
    change (Z.of_nat 7 - 0)%Z with 7%Z. change (Z.to_nat 7) with 7%nat.
    cbv beta iota.
    rewrite middle_period_S by reflexivity. rewrite bind_bind.
    change (Py.range 0 (0 + 3)) with (map Z.of_nat [0; 1; 2]%nat).
    wr_window_step o H7.
    rewrite middle_period_S by reflexivity. rewrite bind_bind.
    change (Py.range (0 + 3) (0 + 3 + 3)) with (map Z.of_nat [3; 4; 5]%nat).
    wr_window_step o H7.
    rewrite middle_period_done by reflexivity. rewrite bind_ret.
    cbv beta iota.
    change (7 - 3 - 3 >? 0)%Z with true. cbv iota.
    change (Py.range (0 + 3 + 3) (Z.of_nat 7)) with (map Z.of_nat [6]%nat).
    rewrite (@bind_add_window_unbound _ o);
      [ reflexivity | assumption | rewrite H7; lia | repeat split ]. }
  rewrite E. simpl.
  repeat split; try reflexivity.
  rewrite <- !app_assoc. reflexivity.
Qed.

Lemma wr_numeric_tail_raises_witness :
  let o := Scenario.ini 7 in
  let r := setup_constr_wr "W" 50 all 3 None None (tail_val 20) o in
  snd r = Raise NameError /\
  Grb.m_constrs (model (fst r)) =
    Grb.m_constrs (model o) ++
    wr_window o "W" 0 [0; 1; 2]%nat 50 ++
    wr_window o "W" 1 [3; 4; 5]%nat 50 /\
  reg (fst r) = reg o.
Proof.
  apply (@wr_numeric_tail_raises Scenario.config "profit"
           ["corn"%string] ["center pivot"%string] "agt" "W"
           (Scenario.ini 7) (Scenario.ini 7) 20).
  - vm_compute. reflexivity.
  - apply later_refl.
Defined.

Ltac concrete_bound :=
  unfold Grb.in_bounds, Grb.above, Grb.below, Scenario.fifty_a_year;
  simpl; unfold Q2R; simpl; repeat split; try lra.

(** C1 (what the code does at a failing input).  On the 7-year horizon with
    a water right of 50 over 3-year windows, irrigating 50 in each of the
    years 0 to 5 is a feasible point of the model, and the irrigation depth
    summed over the years 0, 1, 2 of the first window is 150, above the
    window's cap of 50: the cap binds each year, not the window's total. *)
Theorem wr_cap_is_per_year :
  Scenario.with_wr =
    fst (setup_constr_wr "W" 50 all 3 None None (tail_str "propotion")
           (Scenario.ini 7)) /\
  Grb.feasible Scenario.fifty_a_year (model Scenario.with_wr) /\
  (cumulative Scenario.fifty_a_year Scenario.with_wr [0; 1; 2]%nat > Q2R 50)%R.
Proof.
  split; [reflexivity|]. split.
  - unfold Grb.feasible.
    set (m := model Scenario.with_wr). vm_compute in m. subst m.
    cbn [Grb.m_vars Grb.m_constrs].
    split.
    + repeat (apply Forall_cons; [concrete_bound|]). apply Forall_nil.
    + repeat (apply Forall_cons; [concrete_bound|]). apply Forall_nil.
  - unfold cumulative.
    set (o := Scenario.with_wr). vm_compute in o. subst o.
    unfold wr_row. simpl. unfold Scenario.fifty_a_year. simpl.
    unfold Q2R. simpl. lra.
Qed.

(** ** Which outcomes a method can have *)

Section Only.
Context {S : Type} (ok : exn -> bool) (div : bool).

Lemma only_ret {A} (a : A) : only ok div (Py.ret (S:=S) a).
Proof. now intros s. Qed.

Lemma only_modify (f : S -> S) : only ok div (Py.modify f).
Proof. now intros s. Qed.

Lemma only_get : only ok div (Py.get (S:=S)).
Proof. now intros s. Qed.

Lemma only_gets {A} (f : S -> A) : only ok div (Py.gets f).
Proof. now intros s. Qed.

Lemma only_raise {A} e : ok e = true -> only ok div (Py.raise (S:=S) (A:=A) e).
Proof. now intros H s. Qed.

Lemma only_lift_ok {A} (a : A) : only ok div (Py.lift (S:=S) (Ok a)).
Proof. now intros s. Qed.

Lemma only_lift_raise {A} e :
  ok e = true -> only ok div (Py.lift (S:=S) (A:=A) (Raise e)).
Proof. now intros H s. Qed.

Lemma only_bind {A B} (c : Py.M S A) (k : A -> Py.M S B) :
  only ok div c -> (forall a, only ok div (k a)) -> only ok div (Py.bind c k).
Proof.
  intros Hc Hk s. specialize (Hc s). unfold Py.bind.
  destruct (c s) as [s' [a|e|]]; simpl in *; auto. apply Hk.
Qed.

Lemma only_for_each {A} (l : list A) (body : A -> Py.M S unit) :
  (forall x, only ok div (body x)) -> only ok div (Py.for_each l body).
Proof.
  intros H. induction l; simpl; [apply only_ret|].
  apply only_bind; auto.
Qed.

End Only.

Lemma only_addMVar ok div sh vt nm lb ub : only ok div (m_addMVar sh vt nm lb ub).
Proof. now intros s. Qed.

Lemma only_addVar ok div vt nm lb ub : only ok div (m_addVar vt nm lb ub).
Proof. now intros s. Qed.

Lemma only_addConstrs ok div cs : only ok div (m_addConstrs cs).
Proof. now intros s. Qed.

Lemma only_set_field_msg ok div fid f : only ok div (set_field_msg fid f).
Proof. now intros s. Qed.

Lemma only_lift {S A} ok div (r : result A) :
  (forall e, r = Raise e -> ok e = true) -> (r = Diverge -> div = true) ->
  only ok div (Py.lift (S:=S) r).
Proof. intros He Hd s. simpl. destruct r; auto. Qed.

Lemma index_outcome x l :
  match Py.index x l with
  | Ok _ => True
  | Raise e => e = ValueError
  | Diverge => False
  end.
Proof.
  induction l as [|y l IH]; simpl; [reflexivity|].
  destruct (Qeq_bool y x); [exact I|].
  destruct (Py.index x l); auto.
Qed.

Lemma map_result_outcome {A B} (P : exn -> Prop) (f : A -> result B) l :
  (forall x, match f x with
             | Ok _ => True
             | Raise e => P e
             | Diverge => False
             end) ->
  match Py.map_result f l with
  | Ok _ => True
  | Raise e => P e
  | Diverge => False
  end.
Proof.
  intros H. induction l as [|x l IH]; simpl; [exact I|].
  specialize (H x). destruct (f x); auto.
  destruct (Py.map_result f l); auto.
Qed.

Lemma only_lift_index {S} ok div inp :
  ok ValueError = true -> only ok div (Py.lift (S:=S) (index_of_one inp)).
Proof.
  intros H. apply only_lift; unfold index_of_one;
    generalize (index_outcome 1 inp); destruct (Py.index 1 inp);
    intros; try congruence; contradiction.
Qed.

Lemma only_lift_rows {S V} ok div (d : list (string * V)) l :
  ok TypeError = true ->
  only ok div (Py.lift (S:=S)
    (Py.map_result (fun te => match Py.lookup te d with
                              | Some row => Ok row
                              | None => Raise TypeError
                              end) l)).
Proof.
  intros H.
  pose proof (@map_result_outcome _ _ (fun e => e = TypeError)
                (fun te => match Py.lookup te d with
                           | Some row => Ok row
                           | None => Raise TypeError
                           end) l) as Ho.
  apply only_lift; intros; destruct (Py.map_result _ l);
    try congruence;
    (assert (Hx : forall x, match match Py.lookup x d with
                               | Some row => Ok row
                               | None => Raise TypeError
                               end with
                         | Ok _ => True
                         | Raise e => e = TypeError
                         | Diverge => False
                         end) by (intros x; now destruct (Py.lookup x d)));
    specialize (Ho Hx); simpl in Ho; try contradiction; congruence.
Qed.

Create HintDb only discriminated.
#[local] Hint Resolve only_ret only_modify only_get only_gets only_lift_ok
  only_addMVar only_addVar only_addConstrs only_set_field_msg : only.

Ltac only_step :=
  lazymatch goal with
  | |- only _ _ (Py.bind _ _) => apply only_bind; [ | intro ]
  | |- only _ _ (Py.for_each _ _) => apply only_for_each; intro
  | |- only _ _ (Py.raise _) => apply only_raise; reflexivity
  | |- only _ _ (Py.lift (Raise _)) => apply only_lift_raise; reflexivity
  | |- only _ _ (Py.lift (index_of_one _)) => apply only_lift_index; reflexivity
  | |- only _ _ (Py.lift (Py.map_result _ _)) => apply only_lift_rows; reflexivity
  | |- only _ _ (Py.lift (check_shape _ _ _)) => unfold check_shape
  | |- only _ _ (Py.lift (match ?x with _ => _ end)) => destruct x eqn:?
  | |- only _ _ (Py.lift (if ?x then _ else _)) => destruct x eqn:?
  | |- only _ _ (match ?x with _ => _ end) => destruct x eqn:?
  | |- only _ _ (if ?x then _ else _) => destruct x eqn:?
  | |- only _ _ _ => solve [ auto with only ]
  end.

(** [np.max] of a non-empty array is one of its entries and none is
    larger. *)
Lemma max_spec (l : list Q) :
  l <> [] -> exists mx, Py.max l = Ok mx /\ In mx l /\
                        forall x, In x l -> x <= mx.
Proof.
  destruct l as [|x rest]; [congruence|]. intros _.
  exists (fold_left (fun m y => if Qle_bool y m then m else y) rest x).
  split; [reflexivity|].
  revert x. induction rest as [|y rest IH]; intros x; simpl.
  - split; [now left|]. intros z [<-|[]]. apply Qle_refl.
  - destruct (Qle_bool y x) eqn:E.
    + destruct (IH x) as [Hin Hle]. split.
      * destruct Hin as [<-|Hin]; [now left|now right; right].
      * intros z [<-|[<-|Hz]].
        -- apply Hle. now left.
        -- apply Qle_trans with x; [now apply Qle_bool_iff|].
           apply Hle. now left.
        -- apply Hle. now right.
    + destruct (IH y) as [Hin Hle]. split.
      * right. exact Hin.
      * intros z [<-|[<-|Hz]].
        -- apply Qle_trans with y.
           ++ apply Qlt_le_weak. apply Qnot_le_lt. intros H.
              apply Qle_bool_iff in H. congruence.
           ++ apply Hle. now left.
        -- apply Hle. now left.
        -- apply Hle. now right.
Qed.


Lemma only_no_assertion {S A} (c : Py.M S A) s :
  only not_assertion true c -> snd (c s) <> Raise AssertionError.
Proof. intros H E. specialize (H s). rewrite E in H. discriminate. Qed.

Lemma only_returns {S} (c : Py.M S unit) s :
  only no_exn false c -> snd (c s) = Ok tt.
Proof.
  intros H. specialize (H s).
  destruct (snd (c s)) as [[]| |]; [reflexivity|discriminate..].
Qed.




(** ** [solve] *)

Lemma for_each_modify {S A} (l : list A) (f : A -> S -> S) s :
  Py.for_each l (fun x => Py.modify (f x)) s =
  (fold_left (fun acc x => f x acc) l s, Ok tt).
Proof.
  revert s. induction l as [|x l IH]; intros s; simpl; [reflexivity|].
  rewrite bind_modify. apply IH.
Qed.

(** The state in which [solve] calls the engine: the parameters merged and
    set on the model. *)
Lemma solve_unfold optimize keep_m keep_o kwargs o :
  exists o1,
    opts o1 = opts o /\ out o1 = out o /\ stdout o1 = stdout o /\
    Grb.m_vars (model o1) = Grb.m_vars (model o) /\
    Grb.m_constrs (model o1) = Grb.m_constrs (model o) /\
    solve optimize keep_m keep_o kwargs o =
    (let rep := optimize (model o1) in
     Py.bind
       (if (Status rep =? 2)%Z then
          Py.modify (fun o => set_out
            {| optimal_obj_value := Some (objVal rep);
               sols := Some (X rep, objVal rep);
               gp_output := gp_output (out o) |} o)
        else
          Py.bind (print "Optimal solution is not found.") (fun _ =>
          Py.modify (fun o => set_out
            {| optimal_obj_value := None; sols := sols (out o);
               gp_output := gp_output (out o) |} o)))
       (fun _ => Py.bind
          (if keep_o then
             Py.modify (fun o => set_out
               {| optimal_obj_value := optimal_obj_value (out o);
                  sols := sols (out o); gp_output := Some (X rep) |} o)
           else Py.ret tt)
          (fun _ => if negb keep_m then
                      Py.modify (fun o => set_model (Grb.dispose (model o)) o)
                    else Py.ret tt))) o1.
Proof.
  unfold solve. rewrite bind_modify, bind_gets.
  set (o' := set_gurobi_pars _ o).
  set (pars := gurobi_pars o').
  assert (Hfold : forall l s,
    opts s = opts o /\ out s = out o /\ stdout s = stdout o /\
    Grb.m_vars (model s) = Grb.m_vars (model o) /\
    Grb.m_constrs (model s) = Grb.m_constrs (model o) ->
    let s' := fold_left (fun acc (kv : string * Q) =>
                set_model (Grb.setParam (fst kv) (snd kv) (model acc)) acc) l s in
    opts s' = opts o /\ out s' = out o /\ stdout s' = stdout o /\
    Grb.m_vars (model s') = Grb.m_vars (model o) /\
    Grb.m_constrs (model s') = Grb.m_constrs (model o)).
  { induction l as [|kv l IH]; intros s Hs; simpl; [exact Hs|].
    apply IH. simpl. exact Hs. }
  destruct (Py.lookup "NonConvex" pars).
  - rewrite bind_ret.
    unfold Py.bind at 1. rewrite for_each_modify. rewrite bind_gets.
    match goal with |- context [optimize (model ?s)] => exists s end.
    destruct (Hfold pars o') as (H1 & H2 & H3 & H4 & H5);
      [simpl; repeat split; reflexivity|].
    repeat split; try assumption.
  - rewrite bind_modify.
    unfold Py.bind at 1. rewrite for_each_modify. rewrite bind_gets.
    match goal with |- context [optimize (model ?s)] => exists s end.
    destruct (Hfold pars
                (set_model (Grb.setParam "NonConvex" 2 (model o')) o'))
      as (H1 & H2 & H3 & H4 & H5);
      [simpl; repeat split; reflexivity|].
    repeat split; try assumption.
Qed.




(** ** Finance *)

Lemma later_trans o1 o2 o3 : later o1 o2 -> later o2 o3 -> later o1 o3.
Proof.
  unfold later, Grb.extends.
  intros ([A1 A2] & B & C & D & E & F & G & H)
         ([A1' A2'] & B' & C' & D' & E' & F' & G' & H').
  repeat split; try congruence; eapply incl_tran; eauto.
Qed.

Lemma finance_inv o o2 :
  setup_constr_finance o = (o2, Ok tt) ->
  later o o2 /\
  forall h, (h < n_h (opts o))%nat ->
    In (Grb.Lin "c.profit" [Z.of_nat h]
          (Grb.V (Grb.at_ (v_profit (vars o)) [h])) Grb.EQ
          (Grb.Sub (Grb.V (rev_var h)) (Grb.V (cost_e_var h))))
       (Grb.m_constrs (model o2)).
Proof.
  unfold setup_constr_finance. intros H.
  repeat py_step_in H.
  match type of H with
  | match ?x with _ => _ end = _ => destruct x as [prices| |]; try discriminate
  end.
  repeat py_step_in H. unfold Py.modify in H. injection H as H. subst o2.
  split.
  - unfold later, Grb.extends. cbn.
    repeat split; try reflexivity; intros x Hx;
      repeat (apply in_or_app; left); exact Hx.
  - intros h Hh. cbn. apply in_or_app. right.
    apply in_map_iff. exists h. split; [reflexivity|apply in_seq; lia].
Qed.

Lemma Q2R_0 : Q2R 0 = 0%R.
Proof. unfold Q2R. simpl. lra. Qed.

(** C9.  In any instance built by [setup_ini_model], then anything that only
    adds to it, then [setup_constr_finance], then anything that only adds to
    it, every feasible point has, in each horizon year, a profit that is not
    negative and equals revenue minus energy cost; so no feasible point has
    a revenue below its energy cost. *)
Theorem profit_never_negative config horizon em co to nm o1 o1' o2 m s h :
  setup_ini_model config horizon em co to (init nm) = (o1, Ok tt) ->
  later o1 o1' ->
  setup_constr_finance o1' = (o2, Ok tt) ->
  Grb.extends (model o2) m ->
  Grb.feasible s m ->
  (h < horizon)%nat ->
  (0 <= s (profit_var h))%R /\
  s (profit_var h) = (s (rev_var h) - s (cost_e_var h))%R /\
  (s (cost_e_var h) <= s (rev_var h))%R.
Proof.
  intros Hini Hl Hfin Hext [Hb Hc] Hh.
  apply ini_inv in Hini
    as (Hnh & _ & _ & _ & Hv & _ & Hdecl & _).
  apply finance_inv in Hfin as [Hl2 Hprofit].
  pose proof (later_trans Hl Hl2) as Hl3.
  destruct Hl as (_ & Ho' & _ & _ & _ & _ & _ & Hp').
  destruct Hl3 as ([Hvars _] & _).
  destruct Hext as [Hmv Hmc].
  assert (H0 : (0 <= s (profit_var h))%R).
  { rewrite Forall_forall in Hb.
    specialize (Hb {| Grb.d_var := Grb.Var "profit" [h];
                      Grb.d_vtype := Grb.Continuous;
                      Grb.d_lb := Grb.Fin 0; Grb.d_ub := Grb.PosInf |}).
    destruct Hb as (Hlb & _).
    - apply Hmv, Hvars, Hdecl. unfold decls. apply in_map_iff.
      exists [h]. split; [reflexivity|]. unfold Grb.indices.
      apply in_flat_map. exists h. split; [apply in_seq; lia|now left].
    - simpl in Hlb. rewrite Q2R_0 in Hlb. exact Hlb. }
  assert (H1 : s (profit_var h) = (s (rev_var h) - s (cost_e_var h))%R).
  { rewrite Forall_forall in Hc.
    specialize (Hc _ (Hmc _ (Hprofit h ltac:(rewrite Ho', Hnh; exact Hh)))).
    simpl in Hc. rewrite Hp', Hv in Hc. exact Hc. }
  repeat split; try assumption. lra.
Qed.

Lemma profit_never_negative_witness :
  (0 <= Scenario.idle (profit_var 0))%R /\
  Scenario.idle (profit_var 0) =
    (Scenario.idle (rev_var 0) - Scenario.idle (cost_e_var 0))%R /\
  (Scenario.idle (cost_e_var 0) <= Scenario.idle (rev_var 0))%R.
Proof.
  apply (@profit_never_negative Scenario.config 1 "profit" ["corn"%string]
           ["center pivot"%string] "agt" (Scenario.ini 1) (Scenario.ini 1)
           Scenario.with_finance (model Scenario.with_finance)
           Scenario.idle 0).
  - vm_compute. reflexivity.
  - apply later_refl.
  - vm_compute. reflexivity.
  - split; apply incl_refl.
  - unfold Grb.feasible.
    set (m := model Scenario.with_finance). vm_compute in m. subst m.
    cbn [Grb.m_vars Grb.m_constrs].
    split; repeat (apply Forall_cons;
      [unfold Grb.in_bounds, Grb.above, Grb.below, Scenario.idle;
       simpl; unfold Q2R; simpl; repeat split; try lra|]); apply Forall_nil.
  - lia.
Defined.

(** ** Objective *)

Lemma fold_add_constrs {A} (g : A -> Grb.constr) (l : list A) o :
  fold_left (fun acc x => set_model (Grb.addConstrs [g x] (model acc)) acc) l o =
  set_model (Grb.addConstrs (map g l) (model o)) o.
Proof.
  revert o. induction l as [|x l IH]; intros o; simpl.
  - unfold set_model, Grb.addConstrs. simpl. rewrite app_nil_r.
    now destruct o as [? [] ? ? ? ? ? ? ? ? ? ? ? ? ? ?].
  - rewrite IH. unfold set_model, Grb.addConstrs. simpl.
    now rewrite <- app_assoc.
Qed.

Lemma bind_for_each_addConstrs {A B} (g : A -> Grb.constr) (l : list A)
    (k : unit -> Py.M OptModel B) o :
  Py.bind (Py.for_each l (fun x => m_addConstrs [g x])) k o =
  k tt (set_model (Grb.addConstrs (map g l) (model o)) o).
Proof.
  unfold Py.bind at 1. unfold m_addConstrs.
  rewrite (for_each_modify l
             (fun x o => set_model (Grb.addConstrs [g x] (model o)) o)).
  now rewrite fold_add_constrs.
Qed.

Lemma lookup_assign_same {V} k (v : V) d :
  Py.lookup k (Py.assign k v d) = Some v.
Proof.
  induction d as [|[k' v'] d IH]; simpl.
  - now rewrite String.eqb_refl.
  - destruct (String.eqb k k') eqn:E; simpl.
    + now rewrite String.eqb_refl.
    + now rewrite E.
Qed.

Lemma add_metric_inv metric al o o' :
  add_metric metric al o = (o', Ok tt) ->
  exists alpha, al = Some alpha /\ metric_added metric alpha o o'.
Proof.
  unfold add_metric. intros H.
  repeat py_step_in H.
  destruct (eval_metric_vars (vars o) metric) as [mv|] eqn:Emv.
  2:{ rewrite bind_raise in H. discriminate. }
  rewrite bind_ret in H.
  destruct al as [alpha|].
  2:{ rewrite bind_raise in H. discriminate. }
  rewrite bind_ret, bind_addConstrs in H.
  rewrite (bind_for_each_addConstrs
             (fun h => Grb.GenExp (Grb.at_ _ [h]) (Grb.at_ _ [h]))) in H.
  rewrite bind_addConstrs, bind_if in H.
  destruct (Nat.eqb_spec (n_h (opts o)) 0) as [|Hn].
  { rewrite bind_raise in H. discriminate. }
  repeat py_step_in H. unfold Py.modify in H. injection H as H. subst o'.
  exists alpha. split; [reflexivity|]. exists mv.
  repeat split; try reflexivity; try assumption.
  - cbn. intros x Hx. repeat (apply in_or_app; left). exact Hx.
  - cbn. intros x Hx. repeat (apply in_or_app; left). exact Hx.
  - cbn. apply lookup_assign_same.
  - cbn. unfold metric_constrs. intros x Hx.
    rewrite <- !app_assoc. apply in_or_app. right. exact Hx.
Qed.

Lemma bind_inv {S A B} (c : Py.M S A) (k : A -> Py.M S B) s s' b :
  Py.bind c k s = (s', Ok b) ->
  exists s1 a, c s = (s1, Ok a) /\ k a s1 = (s', Ok b).
Proof.
  unfold Py.bind. destruct (c s) as [s1 [a|e|]]; try discriminate.
  intros H. now exists s1, a.
Qed.

Lemma eval_fold_add s l e0 :
  Grb.eval s (fold_left Grb.Add l e0) =
  (Grb.eval s e0 + fold_right Rplus 0 (map (Grb.eval s) l))%R.
Proof.
  revert e0. induction l as [|e l IH]; intros e0; simpl; [lra|].
  rewrite IH. simpl. lra.
Qed.

Lemma eval_quicksum s l :
  Grb.eval s (Grb.quicksum l) = fold_right Rplus 0%R (map (Grb.eval s) l).
Proof. unfold Grb.quicksum. rewrite eval_fold_add. simpl. rewrite Q2R_0. lra. Qed.

Lemma Q2R_one : Q2R 1 = 1%R.
Proof. unfold Q2R. simpl. lra. Qed.

Lemma Q2R_nat n : Q2R (inject_Z (Z.of_nat n)) = INR n.
Proof. unfold Q2R. simpl. rewrite INR_IZR_INZ. lra. Qed.

(** What the constraints of one metric force at a point of the model. *)
Lemma metric_constrs_sem s metric alpha mv n :
  Forall (Grb.holds s) (metric_constrs metric alpha mv n) ->
  s (Sa_var metric) =
  mean_over_horizon n
    (fun h => (1 - exp (- (Q2R alpha * s (Grb.at_ mv [h]))))%R).
Proof.
  unfold metric_constrs. rewrite !Forall_app.
  intros (Hx & Hy & Hn & Hsa).
  rewrite Forall_forall in Hx, Hy, Hn.
  inversion Hsa as [|? ? Hs _]; subst. simpl in Hs.
  rewrite Hs, eval_quicksum, Q2R_nat. unfold mean_over_horizon.
  f_equal. f_equal. rewrite map_map. apply map_ext_in.
  intros h Hh. simpl.
  specialize (Hx _ (in_map _ _ _ Hh)).
  specialize (Hy _ (in_map _ _ _ Hh)).
  specialize (Hn _ (in_map _ _ _ Hh)).
  simpl in Hx, Hy, Hn. rewrite Hn, Hy, Hx, Q2R_opp, Q2R_one.
  f_equal. f_equal. lra.
Qed.

Lemma later_constrs o o' :
  later o o' -> incl (Grb.m_constrs (model o)) (Grb.m_constrs (model o')).
Proof. now intros ([_ H] & _). Qed.

Lemma later_vars o o' metric :
  later o o' -> eval_metric_vars (vars o') metric = eval_metric_vars (vars o) metric.
Proof.
  intros (_ & _ & _ & _ & _ & Hy & _ & Hp). unfold eval_metric_vars.
  now rewrite Hy, Hp.
Qed.

Lemma obj_body_inv em metric o o1 :
  obj_body em metric o = (o1, Ok tt) ->
  exists alpha o',
    Py.lookup metric (alphas o) = Some (Some alpha) /\
    metric_added metric alpha o o' /\
    o1 = if String.eqb metric em
         then set_model (Grb.setObjective (Sa_var metric) Grb.MAXIMIZE (model o')) o'
         else o'.
Proof.
  unfold obj_body. rewrite bind_gets. intros H.
  apply bind_inv in H as (o' & [] & Hadd & H).
  apply add_metric_inv in Hadd as (alpha & Hal & Hm).
  exists alpha, o'. split; [|split; [exact Hm|]].
  - destruct (Py.lookup metric (alphas o)) as [[x|]|]; try discriminate.
    now inversion Hal.
  - destruct (String.eqb metric em).
    + rewrite bind_gets in H.
      destruct Hm as (mv & _ & _ & _ & _ & _ & _ & Hsa & _).
      rewrite Hsa in H. unfold Py.modify in H. now inversion H.
    + unfold Py.ret in H. now inversion H.
Qed.

Lemma later_set_objective o v :
  later o (set_model (Grb.setObjective v Grb.MAXIMIZE (model o)) o).
Proof. unfold later, Grb.extends. cbn. repeat split; auto using incl_refl. Qed.

Lemma obj_loop em l : forall o o',
  Py.for_each l (obj_body em) o = (o', Ok tt) ->
  later o o' /\ alphas o' = alphas o /\ eval_metrics o' = eval_metrics o /\
  (forall metric, In metric l ->
     exists alpha mv,
       Py.lookup metric (alphas o) = Some (Some alpha) /\
       eval_metric_vars (vars o) metric = Some mv /\
       incl (metric_constrs metric alpha mv (n_h (opts o)))
            (Grb.m_constrs (model o'))) /\
  (if mem em l
   then Grb.m_obj (model o') = Some (Sa_var em, Grb.MAXIMIZE)
   else Grb.m_obj (model o') = Grb.m_obj (model o)).
Proof.
  induction l as [|metric l IH]; intros o o' H.
  - simpl in H. inversion H; subst. simpl.
    split; [apply later_refl|]. do 2 (split; [reflexivity|]).
    split; [intros ? []|reflexivity].
  - simpl in H. apply bind_inv in H as (o1 & [] & Hb & Hrest).
    apply obj_body_inv in Hb as (alpha & oa & Hal & Hm & Ho1).
    destruct Hm as (mv & Hmv & Hn & Hla & Halp & Hem & Hobj & Hsa & Hincl).
    assert (Hl1 : later oa o1).
    { subst o1. destruct (String.eqb metric em);
        [apply later_set_objective | apply later_refl]. }
    assert (Hal1 : alphas o1 = alphas o).
    { subst o1. now destruct (String.eqb metric em). }
    assert (Hem1 : eval_metrics o1 = eval_metrics o).
    { subst o1. now destruct (String.eqb metric em). }
    pose proof (later_trans Hla Hl1) as Hl01.
    apply IH in Hrest as (Hl & Ha & He & Hall & Hob).
    split; [eapply later_trans; eauto|].
    split; [congruence|]. split; [congruence|]. split.
    + intros m' [<-|Hin].
      * exists alpha, mv. repeat split; auto.
        eapply incl_tran; [exact Hincl|].
        eapply incl_tran; [apply (later_constrs Hl1)|apply (later_constrs Hl)].
      * destruct (Hall m' Hin) as (a' & mv' & H1 & H2 & H3).
        exists a', mv'. rewrite <- Hal1.
        rewrite <- (later_vars m' Hl01).
        destruct Hl01 as (_ & Ho & _). rewrite <- Ho. auto.
    + simpl. rewrite String.eqb_sym.
      destruct (String.eqb metric em) eqn:E.
      * apply String.eqb_eq in E. subst em. simpl.
        assert (Grb.m_obj (model o1) = Some (Sa_var metric, Grb.MAXIMIZE))
          by (subst o1; reflexivity).
        destruct (mem metric l); congruence.
      * simpl. assert (Grb.m_obj (model o1) = Grb.m_obj (model o))
          by (subst o1; exact Hobj).
        destruct (mem em l); congruence.
Qed.

Lemma setup_obj_inv alpha_dict o o2 :
  setup_obj alpha_dict o = (o2, Ok tt) ->
  exists oa,
    model oa = model o /\ opts oa = opts o /\ vars oa = vars o /\
    mem (eval_metric (opts o)) (eval_metrics oa) = true /\
    Py.for_each (eval_metrics oa) (obj_body (eval_metric (opts o))) oa =
      (o2, Ok tt).
Proof.
  unfold setup_obj. intros H.
  apply bind_inv in H as (oa & [] & Ha & H).
  assert (Hoa : model oa = model o /\ opts oa = opts o /\ vars oa = vars o).
  { destruct alpha_dict.
    - rewrite bind_modify in Ha. unfold Py.modify in Ha. now inversion Ha.
    - unfold Py.ret in Ha. now inversion Ha. }
  destruct Hoa as (Hm & Ho & Hv).
  rewrite bind_get, bind_if in H.
  destruct (mem (eval_metric (opts oa)) (eval_metrics oa)) eqn:E.
  2:{ rewrite bind_raise in H. discriminate. }
  rewrite bind_ret in H. exists oa. rewrite <- Ho.
  repeat split; auto.
Qed.

(** C2 (amended).  After a successful [setup_obj], for every tracked metric
    (one whose alpha is given), every feasible point has [Sa] of that metric
    equal to the mean over the horizon years of
    [1 - exp(-alpha * metric)], where [metric] is the model's own variable
    of that year (profit, or the average yield ratio), taken as it is: no
    scale factor divides it.  The objective is to maximise the [Sa] of the
    evaluation metric. *)
Theorem objective_is_mean_of_raw_metric alpha_dict o o2 m s metric :
  setup_obj alpha_dict o = (o2, Ok tt) ->
  Grb.extends (model o2) m ->
  Grb.feasible s m ->
  In metric (eval_metrics o2) ->
  (exists alpha mv,
     Py.lookup metric (alphas o2) = Some (Some alpha) /\
     eval_metric_vars (vars o) metric = Some mv /\
     s (Sa_var metric) =
     mean_over_horizon (n_h (opts o))
       (fun h => (1 - exp (- (Q2R alpha * s (Grb.at_ mv [h]))))%R)) /\
  Grb.m_obj (model o2) = Some (Sa_var (eval_metric (opts o)), Grb.MAXIMIZE).
Proof.
  intros H [_ Hmc] [_ Hc] Hin.
  apply setup_obj_inv in H as (oa & Hm & Ho & Hv & Hmem & Hloop).
  apply obj_loop in Hloop as (Hl & Ha & He & Hall & Hobj).
  rewrite Hmem in Hobj. split; [|exact Hobj].
  rewrite He in Hin. destruct (Hall metric Hin) as (alpha & mv & H1 & H2 & H3).
  exists alpha, mv. rewrite Ha, <- Hv, <- Ho. repeat split; auto.
  apply metric_constrs_sem. rewrite Forall_forall in *.
  intros c Hc'. apply Hc, Hmc, H3, Hc'.
Qed.

Lemma exp_m1_bounds : (0 < exp (-1) < 1)%R.
Proof.
  split; [apply exp_pos|].
  rewrite <- exp_0. apply exp_increasing. lra.
Qed.

Lemma profit_one_feasible :
  Grb.feasible Scenario.profit_one (model Scenario.with_obj).
Proof.
  pose proof exp_m1_bounds as Hb.
  unfold Grb.feasible.
  set (m := model Scenario.with_obj). vm_compute in m. subst m.
  cbn [Grb.m_vars Grb.m_constrs].
  split; repeat (apply Forall_cons;
    [unfold Grb.in_bounds, Grb.above, Grb.below, Grb.holds, Scenario.profit_one;
     cbn [Grb.d_var Grb.d_lb Grb.d_ub Grb.d_vtype Grb.v_name Grb.eval
          String.eqb Ascii.eqb Bool.eqb];
     unfold Q2R; cbn [Qnum Qden Qopp Z.opp]; repeat split; try lra|]);
    apply Forall_nil.
Qed.

Lemma objective_is_mean_of_raw_metric_witness :
  (exists alpha mv,
     Py.lookup "profit" (alphas Scenario.with_obj) = Some (Some alpha) /\
     eval_metric_vars (vars (Scenario.ini 1)) "profit" = Some mv /\
     Scenario.profit_one (Sa_var "profit") =
     mean_over_horizon (n_h (opts (Scenario.ini 1)))
       (fun h => (1 - exp (- (Q2R alpha *
                              Scenario.profit_one (Grb.at_ mv [h]))))%R)) /\
  Grb.m_obj (model Scenario.with_obj) =
    Some (Sa_var (eval_metric (opts (Scenario.ini 1))), Grb.MAXIMIZE).
Proof.
  apply (@objective_is_mean_of_raw_metric None (Scenario.ini 1)
           Scenario.with_obj (model Scenario.with_obj) Scenario.profit_one
           "profit").
  - vm_compute. reflexivity.
  - split; apply incl_refl.
  - exact profit_one_feasible.
  - vm_compute. now left.
Defined.

(** C2 (counterexample).  The configuration gives profit the scale 2 and
    the weight 1.  A profit of 1 in the only horizon year is a feasible
    point with [Sa = 1 - exp(-1)], which is not [1 - exp(-1/2)], the value
    the scaled formula would give. *)
Lemma objective_ignores_scale :
  Py.lookup "profit" (consumat_scale Scenario.config) = Some 2 /\
  Py.lookup "profit" (alphas Scenario.with_obj) = Some (Some 1) /\
  Grb.feasible Scenario.profit_one (model Scenario.with_obj) /\
  Scenario.profit_one (Sa_var "profit") <>
  mean_over_horizon 1
    (fun h => (1 - exp (- (Q2R 1 *
                 (Scenario.profit_one (profit_var h) / Q2R 2))))%R).
Proof.
  split; [reflexivity|]. split; [reflexivity|].
  split; [exact profit_one_feasible|].
  unfold mean_over_horizon, Scenario.profit_one, Sa_var, profit_var.
  cbn [Grb.v_name String.eqb Ascii.eqb Bool.eqb mname append seq map
       fold_right INR].
  unfold Q2R. cbn [Qnum Qden].
  intros H.
  assert (E : exp (-1) = exp (- (1 * / 1 * (1 / (2 * / 1))))) by lra.
  apply exp_inv in E. lra.
Qed.

End OptModelFacts.

(** * Properties of the decision policy *)
Module FarmerFacts.
Import Farmer Reading OptModelFacts.

Lemma Qle_bool_false x y : Qle_bool x y = false <-> y < x.
Proof.
  split; intros H.
  - apply Qnot_le_lt. intros Hle. apply Qle_bool_iff in Hle. congruence.
  - apply not_true_is_false. intros Hle. apply Qle_bool_iff in Hle.
    apply (Qlt_irrefl y). now apply Qlt_le_trans with x.
Qed.

(** C3.  The state the update writes is one of the four CONSUMAT states,
    whatever the state was before: Imitation exactly when [s >= s*] and
    [u >= u*], Social comparison exactly when [s < s*] and [u >= u*],
    Repetition exactly when [s >= s*] and [u < u*], Deliberation exactly
    when [s < s*] and [u < u*].  With no fixed state configured this is the
    state [run_simulation] leaves on the agent. *)
Theorem next_state_partition (s u sa_thre' un_thre' : Q) (old : option string) :
  let n := next_state s u sa_thre' un_thre' old in
  (n = Some Imitation <-> sa_thre' <= s /\ un_thre' <= u) /\
  (n = Some Social_comparison <-> s < sa_thre' /\ un_thre' <= u) /\
  (n = Some Repetition <-> sa_thre' <= s /\ u < un_thre') /\
  (n = Some Deliberation <-> s < sa_thre' /\ u < un_thre') /\
  (n = Some Imitation \/ n = Some Social_comparison \/
   n = Some Repetition \/ n = Some Deliberation) /\
  forall a esa,
    fix_state a = None -> sa_thre a = sa_thre' -> un_thre a = un_thre' ->
    state (update_consumat s esa a) =
    next_state s
      (match expected_sa a with
       | None => Qabs (esa - s)
       | Some e1 => Qabs (e1 - s)
       end) sa_thre' un_thre' (state a).
Proof.
  cbv zeta.
  assert (Hlast : forall a esa,
    fix_state a = None -> sa_thre a = sa_thre' -> un_thre a = un_thre' ->
    state (update_consumat s esa a) =
    next_state s
      (match expected_sa a with
       | None => Qabs (esa - s)
       | Some e1 => Qabs (e1 - s)
       end) sa_thre' un_thre' (state a)).
  { intros a esa Hf Hs Hu. unfold update_consumat. cbn.
    rewrite Hf, Hs, Hu. reflexivity. }
  revert Hlast. generalize (update_consumat s). intros upd Hlast.
  unfold next_state in *.
  destruct (Qle_bool sa_thre' s) eqn:Es, (Qle_bool un_thre' u) eqn:Eu;
    cbn [andb negb];
    try apply Qle_bool_iff in Es; try apply Qle_bool_iff in Eu;
    try apply Qle_bool_false in Es; try apply Qle_bool_false in Eu;
    (repeat split; try discriminate; auto;
     try (intros [H1 H2];
          exfalso;
          first [ apply (Qlt_irrefl s); eapply Qlt_le_trans; eassumption
                | apply (Qlt_irrefl s); eapply Qle_lt_trans; eassumption
                | apply (Qlt_irrefl u); eapply Qlt_le_trans; eassumption
                | apply (Qlt_irrefl u); eapply Qle_lt_trans; eassumption ])).
Qed.

Lemma next_state_partition_witness :
  state (update_consumat 0.3 0.6 Scenario.farmer) =
  next_state 0.3 (Qabs (0.6 - 0.3)) 0.5 0.1 (state Scenario.farmer).
Proof.
  exact (proj2 (proj2 (proj2 (proj2 (proj2
           (@next_state_partition 0.3 0.3 0.5 0.1 None)))))
         Scenario.farmer 0.6 eq_refl eq_refl eq_refl).
Defined.

(** ** What a method leaves unchanged *)

Section Keeps.
Context {S : Type} (R : S -> S -> Prop).
Hypothesis R_refl : forall s, R s s.
Hypothesis R_trans : forall s1 s2 s3, R s1 s2 -> R s2 s3 -> R s1 s3.

Lemma keeps_ret {A} (a : A) : keeps R (Py.ret a).
Proof. intros s. apply R_refl. Qed.

Lemma keeps_raise {A} e : keeps R (Py.raise (A:=A) e).
Proof. intros s. apply R_refl. Qed.

Lemma keeps_lift {A} (r : result A) : keeps R (Py.lift r).
Proof. intros s. apply R_refl. Qed.

Lemma keeps_get : keeps R Py.get.
Proof. intros s. apply R_refl. Qed.

Lemma keeps_modify f : (forall s, R s (f s)) -> keeps R (Py.modify f).
Proof. intros H s. apply H. Qed.

Lemma keeps_bind {A B} (c : Py.M S A) (k : A -> Py.M S B) :
  keeps R c -> (forall a, keeps R (k a)) -> keeps R (Py.bind c k).
Proof.
  intros Hc Hk s. specialize (Hc s). unfold Py.bind.
  destruct (c s) as [s' [a|e|]]; simpl in *; auto.
  eapply R_trans; [exact Hc|apply Hk].
Qed.

Lemma keeps_for_list {A B} (l : list A) (f : A -> Py.M S B) :
  (forall x, keeps R (f x)) -> keeps R (Py.for_list l f).
Proof.
  intros H. induction l; simpl; [apply keeps_ret|].
  apply keeps_bind; [apply H|]. intros y.
  apply keeps_bind; [exact IHl|]. intros ys. apply keeps_ret.
Qed.

End Keeps.

Lemma set_dm_sols_twice d d' a : set_dm_sols d (set_dm_sols d' a) = set_dm_sols d a.
Proof. reflexivity. Qed.

Lemma set_dm_sols_same a : set_dm_sols (dm_sols a) a = a.
Proof. now destruct a. Qed.

Lemma frame_dm_sols_refl w : frame_dm_sols w w.
Proof. exists (dm_sols (self w)). now rewrite set_dm_sols_same. Qed.

Lemma frame_dm_sols_self w w' : self w' = self w -> frame_dm_sols w w'.
Proof. intros H. exists (dm_sols (self w)). now rewrite H, set_dm_sols_same. Qed.

Lemma frame_dm_sols_trans w1 w2 w3 :
  frame_dm_sols w1 w2 -> frame_dm_sols w2 w3 -> frame_dm_sols w1 w3.
Proof. intros [d1 H1] [d2 H2]. exists d2. now rewrite H2, H1. Qed.

Lemma frame_refl w : frame w w.
Proof.
  exists (dm_sols (self w)), (selected_agt_id_in_network (self w)).
  now destruct (self w).
Qed.

Lemma frame_trans w1 w2 w3 : frame w1 w2 -> frame w2 w3 -> frame w1 w3.
Proof.
  intros (d1 & s1 & H1) (d2 & s2 & H2). exists d2, s2. now rewrite H2, H1.
Qed.

Lemma frame_dm_sols_frame w w' : frame_dm_sols w w' -> frame w w'.
Proof.
  intros [d H]. exists d, (selected_agt_id_in_network (self w)).
  rewrite H. now destruct (self w).
Qed.

Section DecisionFacts.
Variable opt_model : Farmer -> bool -> list FieldCall -> result DmSols.
Variable pick : bool -> nat -> nat -> nat.

Ltac keeps_step R_refl R_trans :=
  lazymatch goal with
  | |- keeps _ (Py.bind _ _) => apply (@keeps_bind _ _ R_trans); [ | intro ]
  | |- keeps _ (Py.for_list _ _) =>
      apply (@keeps_for_list _ _ R_refl R_trans); intro
  | |- keeps _ (Py.ret _) => apply (@keeps_ret _ _ R_refl)
  | |- keeps _ (Py.raise _) => apply (@keeps_raise _ _ R_refl)
  | |- keeps _ (Py.lift _) => apply (@keeps_lift _ _ R_refl)
  | |- keeps _ Py.get => apply (@keeps_get _ _ R_refl)
  | |- keeps _ (match ?x with _ => _ end) => destruct x
  end.

Lemma make_dm_keeps st dm init :
  keeps frame_dm_sols (make_dm opt_model st dm init).
Proof.
  unfold make_dm.
  repeat keeps_step frame_dm_sols_refl frame_dm_sols_trans.
  apply keeps_modify. intros s. now apply frame_dm_sols_self.
Qed.

Lemma on_self_set_dm_sols_keeps d : keeps frame_dm_sols (on_self (set_dm_sols d)).
Proof. intros s. now exists d. Qed.

Lemma random_choice_keeps ids : keeps frame_dm_sols (random_choice pick ids).
Proof.
  unfold random_choice.
  repeat first [ keeps_step frame_dm_sols_refl frame_dm_sols_trans
               | apply keeps_modify; intros ?; now apply frame_dm_sols_self ].
Qed.

Lemma make_dm_imitation_keeps :
  keeps frame_dm_sols (make_dm_imitation opt_model pick).
Proof.
  unfold make_dm_imitation.
  repeat first [ apply make_dm_keeps | apply on_self_set_dm_sols_keeps
               | apply random_choice_keeps
               | keeps_step frame_dm_sols_refl frame_dm_sols_trans ].
Qed.

Lemma make_dm_repetition_keeps :
  keeps frame_dm_sols (make_dm_repetition opt_model).
Proof.
  unfold make_dm_repetition.
  repeat first [ apply make_dm_keeps | apply on_self_set_dm_sols_keeps
               | keeps_step frame_dm_sols_refl frame_dm_sols_trans ].
Qed.

Lemma make_dm_deliberation_keeps :
  keeps frame_dm_sols (make_dm_deliberation opt_model).
Proof. exact make_dm_repetition_keeps. Qed.

Lemma keeps_weaken {A} (c : Py.M World A) : keeps frame_dm_sols c -> keeps frame c.
Proof. intros H s. apply frame_dm_sols_frame, H. Qed.

Lemma make_dm_social_comparison_keeps :
  keeps frame (make_dm_social_comparison opt_model).
Proof.
  unfold make_dm_social_comparison.
  repeat first
    [ apply keeps_weaken; first [ apply make_dm_keeps
                                | apply on_self_set_dm_sols_keeps
                                | apply make_dm_repetition_keeps ]
    | apply keeps_modify; intros s; eexists _, _; reflexivity
    | keeps_step frame_refl frame_trans ].
Qed.

Lemma same_draws_refl w : same_draws w w.
Proof. reflexivity. Qed.

Lemma same_draws_trans w1 w2 w3 :
  same_draws w1 w2 -> same_draws w2 w3 -> same_draws w1 w3.
Proof. unfold same_draws. congruence. Qed.

Lemma make_dm_same_draws st dm init :
  keeps same_draws (make_dm opt_model st dm init).
Proof.
  unfold make_dm.
  repeat keeps_step same_draws_refl same_draws_trans.
  apply keeps_modify. reflexivity.
Qed.

Lemma on_self_same_draws f : keeps same_draws (on_self f).
Proof. intros s. reflexivity. Qed.

Lemma random_choice_draw ids w :
  ids <> [] ->
  exists id w1,
    random_choice pick ids w = (w1, Ok id) /\ In id ids /\
    self w1 = self w /\ draws w1 = S (draws w).
Proof.
  destruct ids as [|id0 ids]; [congruence|]. intros _.
  unfold random_choice. rewrite bind_get.
  set (l := id0 :: ids).
  assert (Hnth : forall k, In (nth (k mod List.length l) l id0) l).
  { intros k. apply nth_In. apply Nat.mod_upper_bound. discriminate. }
  destruct (has_rngen (self w)); rewrite bind_modify; unfold Py.ret;
    eexists _, _; (split; [reflexivity|]); (split; [apply Hnth|]);
    split; try reflexivity; unfold draws; simpl; lia.
Qed.

Lemma imitation_draws w :
  let w' := fst (make_dm_imitation opt_model pick w) in
  (selected_agt_id_in_network (self w) = None ->
   agt_ids_in_network (self w) <> [] -> draws w' = S (draws w)) /\
  (selected_agt_id_in_network (self w) <> None -> draws w' = draws w).
Proof.
  cbv zeta. unfold make_dm_imitation. rewrite bind_get.
  assert (Hrest : forall id,
    keeps same_draws
      (Py.bind (Py.lift (find id (agts_in_network (self w)))) (fun peer =>
       Py.bind Py.get (fun w' =>
       Py.bind (make_dm opt_model (state (self w')) peer false) (fun dm_sols =>
       on_self (set_dm_sols dm_sols)))))).
  { intros id.
    repeat first [ apply make_dm_same_draws | apply on_self_same_draws
                 | keeps_step same_draws_refl same_draws_trans ]. }
  split.
  - intros Hsel Hne. rewrite Hsel.
    destruct (random_choice_draw w Hne) as (id & w1 & Hrc & _ & _ & Hd).
    unfold Py.bind at 1. rewrite Hrc. rewrite <- Hd. apply Hrest.
  - intros Hsel.
    destruct (selected_agt_id_in_network (self w)) as [id|]; [|congruence].
    rewrite bind_ret. apply Hrest.
Qed.

Lemma frame_dm_sols_selected w w' :
  frame_dm_sols w w' ->
  selected_agt_id_in_network (self w') = selected_agt_id_in_network (self w) /\
  agt_ids_in_network (self w') = agt_ids_in_network (self w).
Proof. intros [d H]. now rewrite H. Qed.

Lemma decide_keeps : keeps frame (decide opt_model pick).
Proof.
  unfold decide. intros w. rewrite bind_get.
  repeat match goal with |- context [if ?b then _ else _] => destruct b end;
    first [ apply make_dm_social_comparison_keeps
          | apply frame_dm_sols_frame;
            first [ apply make_dm_imitation_keeps
                  | apply make_dm_repetition_keeps
                  | apply make_dm_deliberation_keeps ]
          | apply frame_refl ].
Qed.

Lemma decide_keeps_selected w :
  state (self w) <> Some Social_comparison ->
  frame_dm_sols w (fst (decide opt_model pick w)).
Proof.
  intros Hst. unfold decide. rewrite bind_get.
  destruct (state (self w)) as [st|]; [|apply frame_dm_sols_refl].
  destruct (String.eqb st Imitation); [apply make_dm_imitation_keeps|].
  destruct (String.eqb_spec st Social_comparison); [congruence|].
  repeat match goal with |- context [if ?b then _ else _] => destruct b end;
    first [ apply make_dm_repetition_keeps
          | apply make_dm_deliberation_keeps
          | apply frame_dm_sols_refl ].
Qed.

(** C10.  [make_dm_imitation] writes [dm_sols] and no other attribute of
    the agent, whatever its outcome: the selected peer is as it was.  When
    no peer was selected and the network is not empty, the call takes one
    number from a random generator; when one was selected it takes none.
    So over any number of Imitation decisions in a row that start with no
    selected peer, none is ever selected and each decision draws again.
    Every decision method leaves the agent as it was but for [dm_sols] and
    the selected peer, and only Social comparison touches the latter. *)
Theorem imitation_never_caches (w : World) :
  let w' := fst (make_dm_imitation opt_model pick w) in
  frame_dm_sols w w' /\
  selected_agt_id_in_network (self w') = selected_agt_id_in_network (self w) /\
  (selected_agt_id_in_network (self w) = None ->
   agt_ids_in_network (self w) <> [] ->
   draws w' = S (draws w) /\
   forall n,
     let wn := imitation_years opt_model pick n w in
     selected_agt_id_in_network (self wn) = None /\
     draws wn = (draws w + n)%nat) /\
  (selected_agt_id_in_network (self w) <> None -> draws w' = draws w) /\
  frame w (fst (decide opt_model pick w)) /\
  (state (self w) <> Some Social_comparison ->
   frame_dm_sols w (fst (decide opt_model pick w))).
Proof.
  cbv zeta.
  split; [apply make_dm_imitation_keeps|].
  split; [apply frame_dm_sols_selected, make_dm_imitation_keeps|].
  split.
  - intros Hsel Hne. split; [now apply imitation_draws|].
    intros n. revert w Hsel Hne.
    induction n as [|n IH]; intros w Hsel Hne; simpl.
    + split; [exact Hsel|lia].
    + destruct (frame_dm_sols_selected (make_dm_imitation_keeps w)) as [Hs Hi].
      destruct (IH (fst (make_dm_imitation opt_model pick w))) as [H1 H2].
      * now rewrite Hs.
      * now rewrite Hi.
      * split; [exact H1|]. rewrite H2.
        rewrite (proj1 (imitation_draws w) Hsel Hne). lia.
  - split; [apply imitation_draws|].
    split; [apply decide_keeps|apply decide_keeps_selected].
Qed.

(** ** Social comparison *)

Lemma make_dm_ok st dm init calls sol w :
  field_calls init st dm (fields (self w)) = Ok calls ->
  opt_model (self w) init calls = Ok sol ->
  make_dm opt_model st dm init w = (add_run calls w, Ok sol).
Proof.
  intros Hc Ho. unfold make_dm.
  rewrite bind_get, bind_lift, Hc, bind_modify. unfold Py.lift.
  now rewrite Ho.
Qed.

Lemma field_calls_all_fixed st dm fl calls :
  String.eqb st FixCrop = false -> String.eqb st Deliberation = false ->
  field_calls false (Some st) dm fl = Ok calls -> Forall all_fixed calls.
Proof.
  intros H1 H2. unfold field_calls. revert calls.
  induction fl as [|fi fl IH]; intros calls H; simpl in H.
  - inversion H. constructor.
  - destruct (find fi (by_field dm)) as [s| |]; try discriminate.
    destruct (Py.map_result _ fl) as [cs| |]; try discriminate.
    inversion H; subst. constructor; [|now apply IH].
    unfold field_call, all_fixed. rewrite H1, H2. simpl.
    repeat split; discriminate.
Qed.

Lemma peers_loop a AG ids peer_sols : forall w,
  self w = a -> state a = Some Social_comparison ->
  Forall2 (fun id sol => exists peer,
             find id AG = Ok peer /\ solved opt_model a peer sol)
          ids peer_sols ->
  exists rs,
    Py.for_list ids (fun agt_id =>
      Py.bind (Py.lift (find agt_id AG)) (fun peer =>
      Py.bind Py.get (fun w' =>
      make_dm opt_model (state (self w')) peer false))) w =
    ({| self := self w; rngen_draws := rngen_draws w;
        np_random_draws := np_random_draws w; runs := runs w ++ rs |},
     Ok peer_sols) /\
    List.length rs = List.length ids /\
    Forall (Forall all_fixed) rs.
Proof.
  intros w Hw Hst HF. revert w Hw.
  induction HF as [|id sol ids sols (peer & Hfind & calls & Hc & Ho) HF IH];
    intros w Hw.
  - exists []. simpl. rewrite app_nil_r. unfold Py.ret.
    repeat split; auto. now destruct w.
  - simpl Py.for_list.
    rewrite bind_bind, bind_lift, Hfind, bind_bind, bind_get.
    unfold Py.bind at 1.
    rewrite (@make_dm_ok _ _ _ calls sol) by (rewrite Hw; assumption).
    destruct (IH (add_run calls w)) as (rs & Hrs & Hlen & Hall); [exact Hw|].
    unfold Py.bind at 1. rewrite Hrs. unfold Py.ret.
    exists (calls :: rs). simpl. rewrite <- app_assoc. simpl.
    repeat split; auto.
    constructor; auto.
    eapply field_calls_all_fixed; [| |rewrite <- Hst; exact Hc]; reflexivity.
Qed.

Lemma index_spec x l i :
  Py.index x l = Ok i ->
  exists y, nth_error l i = Some y /\ y == x.
Proof.
  revert i. induction l as [|y l IH]; intros i H; simpl in H; [discriminate|].
  destruct (Qeq_bool y x) eqn:E.
  - inversion H; subst. exists y. split; [reflexivity|now apply Qeq_bool_iff].
  - destruct (Py.index x l) as [j| |]; try discriminate.
    inversion H; subst. destruct (IH j eq_refl) as (z & Hz & Hq).
    now exists z.
Qed.

Lemma max_upper l mx x : Py.max l = Ok mx -> In x l -> x <= mx.
Proof.
  intros H Hin. destruct l as [|y l]; [destruct Hin|].
  destruct (@max_spec (y :: l)) as (mx' & Hm & _ & Hle); [discriminate|].
  rewrite H in Hm. inversion Hm; subst. now apply Hle.
Qed.

(** C4.  In Social comparison, with a network that is not empty and every
    solve returning, the method makes one optimisation run per peer and one
    for the agent's own previous choices, each with crop, rain-fed and
    technology choices all fixed; it records the first peer with the largest
    objective, and adopts the agent's own solution exactly when its
    objective is at least that largest one (a tie keeps the own solution),
    the best peer's otherwise.  The adopted objective is the largest of
    all. *)
Theorem social_comparison_adopts_best w peer_sols own_sol best idx :
  state (self w) = Some Social_comparison ->
  agt_ids_in_network (self w) <> [] ->
  Forall2 (fun id sol => exists peer,
             find id (agts_in_network (self w)) = Ok peer /\
             solved opt_model (self w) peer sol)
          (agt_ids_in_network (self w)) peer_sols ->
  Py.max (map obj peer_sols) = Ok best ->
  Py.index best (map obj peer_sols) = Ok idx ->
  solved opt_model
    (set_selected_agt_id_in_network
       (nth_error (agt_ids_in_network (self w)) idx) (self w))
    (dm_sols (self w)) own_sol ->
  let r := make_dm_social_comparison opt_model w in
  let adopted := dm_sols (self (fst r)) in
  snd r = Ok tt /\
  List.length (runs (fst r)) =
    (List.length (runs w) + List.length (agt_ids_in_network (self w)) + 1)%nat /\
  Forall (Forall all_fixed) (skipn (List.length (runs w)) (runs (fst r))) /\
  selected_agt_id_in_network (self (fst r)) =
    nth_error (agt_ids_in_network (self w)) idx /\
  (best <= obj own_sol -> adopted = own_sol) /\
  (obj own_sol < best ->
   nth_error peer_sols idx = Some adopted /\ obj adopted == best) /\
  (forall c, In c (own_sol :: peer_sols) -> obj c <= obj adopted).
Proof.
  intros Hst Hne HF Hmax Hidx (calls & Hc & Ho) r adopted.
  destruct (@peers_loop (self w) (agts_in_network (self w)) _ _ w
              eq_refl Hst HF) as (rs & Hloop & Hlen & Hall).
  destruct (index_spec _ _ Hidx) as (bo & Hbo & Hbq).
  rewrite nth_error_map in Hbo.
  destruct (nth_error peer_sols idx) as [bs|] eqn:Ebs; [|discriminate].
  simpl in Hbo. inversion Hbo; subst bo. clear Hbo.
  assert (Hidx_lt : (idx < List.length (agt_ids_in_network (self w)))%nat).
  { rewrite (Forall2_length HF). apply nth_error_Some. congruence. }
  destruct (nth_error (agt_ids_in_network (self w)) idx) as [bid|] eqn:Ebid.
  2:{ apply nth_error_None in Ebid. lia. }
  assert (Hfix : Forall all_fixed calls).
  { eapply field_calls_all_fixed; [| |simpl in Hc; rewrite <- Hst; exact Hc];
      reflexivity. }
  set (adopted' := if Qle_bool best (obj own_sol) then own_sol else bs).
  assert (E : r =
    ({| self := set_dm_sols adopted'
                  (set_selected_agt_id_in_network (Some bid) (self w));
        rngen_draws := rngen_draws w; np_random_draws := np_random_draws w;
        runs := (runs w ++ rs) ++ [calls] |}, Ok tt)).
  { subst r. unfold make_dm_social_comparison.
    rewrite bind_get. unfold Py.bind at 1. rewrite Hloop.
    rewrite bind_lift, Hmax, bind_lift, Hidx, bind_lift, Ebid.
    unfold on_self at 1. rewrite bind_modify.
    unfold make_dm_repetition. rewrite bind_bind, bind_get, bind_bind.
    unfold Py.bind at 1.
    rewrite (@make_dm_ok _ _ _ calls own_sol); [|exact Hc|exact Ho].
    unfold on_self at 1. rewrite bind_modify, bind_get.
    cbn [self add_run dm_sols set_dm_sols].
    subst adopted'. destruct (Qle_bool best (obj own_sol)).
    - reflexivity.
    - rewrite Ebs. reflexivity. }
  subst adopted. rewrite E. cbn [fst snd self runs dm_sols set_dm_sols
    selected_agt_id_in_network set_selected_agt_id_in_network].
  split; [reflexivity|].
  split; [rewrite !length_app, Hlen; simpl; lia|].
  split.
  { rewrite <- app_assoc, skipn_app, Nat.sub_diag, skipn_all. simpl.
    apply Forall_app. split; [exact Hall|]. constructor; auto. }
  split; [reflexivity|].
  assert (Hpeers : forall c, In c peer_sols -> obj c <= best).
  { intros c Hin. eapply max_upper; [exact Hmax|]. now apply in_map. }
  subst adopted'.
  destruct (Qle_bool best (obj own_sol)) eqn:Eb.
  - apply Qle_bool_iff in Eb.
    split; [intros _; reflexivity|]. split.
    + intros Hlt. exfalso. apply (Qlt_irrefl best).
      now apply Qle_lt_trans with (obj own_sol).
    + intros c [<-|Hin]; [apply Qle_refl|].
      apply Qle_trans with best; auto.
  - apply Qle_bool_false in Eb.
    split; [|split].
    + intros Hle. exfalso. apply (Qlt_irrefl best).
      now apply Qle_lt_trans with (obj own_sol).
    + intros _. split; [reflexivity|exact Hbq].
    + intros c [<-|Hin].
      * rewrite Hbq. now apply Qlt_le_weak.
      * rewrite Hbq. auto.
Qed.
End DecisionFacts.

Lemma social_comparison_adopts_best_witness :
  let w := Scenario.world in
  let r := make_dm_social_comparison Scenario.engine w in
  let adopted := dm_sols (self (fst r)) in
  snd r = Ok tt /\
  List.length (runs (fst r)) =
    (List.length (runs w) + List.length (agt_ids_in_network (self w)) + 1)%nat /\
  Forall (Forall all_fixed) (skipn (List.length (runs w)) (runs (fst r))) /\
  selected_agt_id_in_network (self (fst r)) =
    nth_error (agt_ids_in_network (self w)) 0 /\
  (0.70 <= obj (Scenario.sol 0 0.62) -> adopted = Scenario.sol 0 0.62) /\
  (obj (Scenario.sol 0 0.62) < 0.70 ->
   nth_error [Scenario.sol 1 0.70; Scenario.sol 2 0.65] 0 = Some adopted /\
   obj adopted == 0.70) /\
  (forall c, In c [Scenario.sol 0 0.62; Scenario.sol 1 0.70;
                   Scenario.sol 2 0.65] ->
             obj c <= obj adopted).
Proof.
  apply (@social_comparison_adopts_best Scenario.engine Scenario.world
           [Scenario.sol 1 0.70; Scenario.sol 2 0.65] (Scenario.sol 0 0.62)
           0.70 0).
  - reflexivity.
  - discriminate.
  - repeat constructor.
    + exists (Scenario.sol 1 0.5). split; [reflexivity|].
      eexists. split; vm_compute; reflexivity.
    + exists (Scenario.sol 2 0.5). split; [reflexivity|].
      eexists. split; vm_compute; reflexivity.
  - vm_compute. reflexivity.
  - vm_compute. reflexivity.
  - eexists. split; vm_compute; reflexivity.
Defined.

Lemma imitation_never_caches_witness :
  let w := Scenario.world in
  draws (fst (make_dm_imitation Scenario.engine Scenario.rng w)) = S (draws w) /\
  forall n,
    let wn := imitation_years Scenario.engine Scenario.rng n w in
    selected_agt_id_in_network (self wn) = None /\
    draws wn = (draws w + n)%nat.
Proof.
  exact (proj1 (proj2 (proj2
           (@imitation_never_caches Scenario.engine Scenario.rng
              Scenario.world)))
         eq_refl ltac:(discriminate)).
Defined.

End FarmerFacts.

Module FarmerMore.
Import Farmer Reading OptModelFacts FarmerFacts.

(** ** More on the decision methods *)

Section MoreDecisionFacts.
Variable opt_model : Farmer -> bool -> list FieldCall -> result DmSols.
Variable pick : bool -> nat -> nat -> nat.

(** X1.  Social comparison with an empty network raises [ValueError] (the
    maximum of an empty list) before any optimisation run, and leaves the
    agent and everything else exactly as they were. *)
Theorem social_comparison_empty_network w :
  agt_ids_in_network (self w) = [] ->
  make_dm_social_comparison opt_model w = (w, Raise ValueError).
Proof.
  intros H. unfold make_dm_social_comparison.
  rewrite bind_get, H. simpl Py.for_list. rewrite bind_ret.
  reflexivity.
Qed.



(** A run whose solve raises. *)
Lemma make_dm_raises st dm init calls e w :
  field_calls init st dm (fields (self w)) = Ok calls ->
  opt_model (self w) init calls = Raise e ->
  make_dm opt_model st dm init w = (add_run calls w, Raise e).
Proof.
  intros Hc Ho. unfold make_dm.
  rewrite bind_get, bind_lift, Hc, bind_modify. unfold Py.lift.
  now rewrite Ho.
Qed.

(** [make_dm] never writes the agent. *)
Lemma make_dm_self st dm init w :
  self (fst (make_dm opt_model st dm init w)) = self w.
Proof.
  unfold make_dm. rewrite bind_get, bind_lift.
  destruct (field_calls init st dm (fields (self w))); reflexivity.
Qed.

(** What one field set-up of each pattern looks like. *)
Lemma field_calls_map st dm fl calls :
  field_calls false st dm fl = Ok calls ->
  Forall2 (fun fi c => exists s, Py.lookup fi (by_field dm) = Some s /\
                                 c = field_call false st fi s) fl calls.
Proof.
  unfold field_calls. revert calls.
  induction fl as [|fi fl IH]; intros calls H; simpl in H.
  - inversion H. constructor.
  - unfold find in H at 1.
    destruct (Py.lookup fi (by_field dm)) as [s|] eqn:E; try discriminate.
    destruct (Py.map_result _ fl) as [cs| |]; try discriminate.
    inversion H; subst. constructor; [now exists s|now apply IH].
Qed.

(** X2.  Imitation with a peer already selected: no random number is drawn;
    if the peer is in the network's registry and the solve returns, the
    method makes exactly one optimisation run, built from that peer's
    choices with crop, rain-fed and technology all fixed, and the solution
    becomes [dm_sols].  If the selected id is not in the registry the method
    raises [KeyError] and changes nothing. *)
Theorem imitation_with_selected_peer w id :
  selected_agt_id_in_network (self w) = Some id ->
  state (self w) = Some Imitation ->
  (forall peer calls sol,
     find id (agts_in_network (self w)) = Ok peer ->
     field_calls false (state (self w)) peer (fields (self w)) = Ok calls ->
     opt_model (self w) false calls = Ok sol ->
     make_dm_imitation opt_model pick w =
       ({| self := set_dm_sols sol (self w); rngen_draws := rngen_draws w;
           np_random_draws := np_random_draws w;
           runs := runs w ++ [calls] |}, Ok tt) /\
     Forall2 (fun fi c => exists s, Py.lookup fi (by_field peer) = Some s /\
                                    c = repetition_call fi s)
             (fields (self w)) calls) /\
  (Py.lookup id (agts_in_network (self w)) = None ->
   make_dm_imitation opt_model pick w = (w, Raise KeyError)).
Proof.
  intros Hsel Hst. split.
  - intros peer calls sol Hfind Hc Ho. split.
    + unfold make_dm_imitation.
      rewrite bind_get, Hsel, bind_ret, bind_lift, Hfind, bind_get.
      unfold Py.bind at 1.
      rewrite (@make_dm_ok opt_model _ _ _ calls sol w Hc Ho).
      reflexivity.
    + apply field_calls_map in Hc. rewrite Hst in Hc.
      eapply Forall2_impl; [|exact Hc].
      intros fi c (s & Hl & ->). now exists s.
  - intros Hnone. unfold make_dm_imitation.
    rewrite bind_get, Hsel, bind_ret, bind_lift. unfold find. rewrite Hnone.
    reflexivity.
Qed.

(** X3.  Imitation with no peer selected and an empty network raises
    [ValueError] (both random choices refuse an empty list) and changes
    nothing. *)
Theorem imitation_empty_network w :
  selected_agt_id_in_network (self w) = None ->
  agt_ids_in_network (self w) = [] ->
  make_dm_imitation opt_model pick w = (w, Raise ValueError).
Proof.
  intros Hsel Hids. unfold make_dm_imitation.
  rewrite bind_get, Hsel, Hids. unfold random_choice.
  rewrite bind_bind, bind_get, bind_raise. reflexivity.
Qed.

Lemma random_choice_self ids w :
  self (fst (random_choice pick ids w)) = self w.
Proof.
  unfold random_choice. rewrite bind_get.
  destruct ids; [reflexivity|].
  destruct (has_rngen (self w)); rewrite bind_modify; reflexivity.
Qed.

Lemma run_and_store_failed st dm w :
  snd (Py.bind (make_dm opt_model st dm false)
         (fun d => on_self (set_dm_sols d)) w) <> Ok tt ->
  self (fst (Py.bind (make_dm opt_model st dm false)
               (fun d => on_self (set_dm_sols d)) w)) = self w.
Proof.
  unfold Py.bind.
  pose proof (make_dm_self st dm false w) as Hs.
  destruct (make_dm opt_model st dm false w) as [w1 [d| |]]; simpl in *;
    auto. congruence.
Qed.

Lemma bind_failed {A} (c : Py.M World A) (k : A -> Py.M World unit) w :
  self (fst (c w)) = self w ->
  (forall a w1, snd (k a w1) <> Ok tt -> self (fst (k a w1)) = self w1) ->
  snd (Py.bind c k w) <> Ok tt -> self (fst (Py.bind c k w)) = self w.
Proof.
  intros Hc Hk. unfold Py.bind.
  destruct (c w) as [w1 [a| |]]; simpl in *; auto.
  intros H. rewrite <- Hc. now apply Hk.
Qed.

Lemma imitate_failed AG id w :
  let c := Py.bind (Py.lift (find id AG)) (fun peer =>
           Py.bind Py.get (fun w' =>
           Py.bind (make_dm opt_model (state (self w')) peer false)
             (fun d => on_self (set_dm_sols d)))) in
  snd (c w) <> Ok tt -> self (fst (c w)) = self w.
Proof.
  cbv zeta. rewrite bind_lift.
  destruct (find id AG); try reflexivity.
  rewrite bind_get. apply run_and_store_failed.
Qed.

(** X4.  A solve that raises costs the agent nothing: in Repetition,
    Deliberation and Imitation the agent is left exactly as it was (its
    [dm_sols] still the previous solution) whenever the method does not
    return. *)
Theorem failed_decision_keeps_agent w :
  (snd (make_dm_repetition opt_model w) <> Ok tt ->
   self (fst (make_dm_repetition opt_model w)) = self w) /\
  (snd (make_dm_deliberation opt_model w) <> Ok tt ->
   self (fst (make_dm_deliberation opt_model w)) = self w) /\
  (snd (make_dm_imitation opt_model pick w) <> Ok tt ->
   self (fst (make_dm_imitation opt_model pick w)) = self w).
Proof.
  split; [|split].
  - unfold make_dm_repetition. rewrite bind_get. apply run_and_store_failed.
  - unfold make_dm_deliberation. rewrite bind_get. apply run_and_store_failed.
  - unfold make_dm_imitation. rewrite bind_get.
    destruct (selected_agt_id_in_network (self w)) as [id|].
    + rewrite bind_ret. apply imitate_failed.
    + apply bind_failed; [apply random_choice_self|].
      intros id w1. apply imitate_failed.
Qed.

(** The peers' loop of Social comparison never writes the agent. *)
Lemma peers_loop_self AG ids w :
  self (fst (Py.for_list ids (fun agt_id =>
      Py.bind (Py.lift (find agt_id AG)) (fun peer =>
      Py.bind Py.get (fun w' =>
      make_dm opt_model (state (self w')) peer false))) w)) = self w.
Proof.
  revert w. induction ids as [|id ids IH]; intros w; [reflexivity|].
  simpl Py.for_list. rewrite bind_bind, bind_lift.
  destruct (find id AG) as [peer| |]; try reflexivity.
  rewrite bind_bind, bind_get. unfold Py.bind at 1.
  pose proof (make_dm_self (state (self w)) peer false w) as Hs.
  destruct (make_dm opt_model (state (self w)) peer false w) as [w1 [d| |]];
    simpl in Hs; try exact Hs.
  unfold Py.bind at 1. specialize (IH w1).
  destruct (Py.for_list ids _ w1) as [w2 [ds| |]]; simpl in *; congruence.
Qed.

(** X5.  A Social comparison that does not return never changes [dm_sols].
    It can still leave a mark: when every peer's run returns but the run for
    the agent's own choices raises, the best peer has already been recorded
    as the selected one. *)
Theorem failed_social_comparison w :
  (snd (make_dm_social_comparison opt_model w) <> Ok tt ->
   dm_sols (self (fst (make_dm_social_comparison opt_model w))) =
   dm_sols (self w)) /\
  forall peer_sols best idx calls e,
    state (self w) = Some Social_comparison ->
    agt_ids_in_network (self w) <> [] ->
    Forall2 (fun id sol => exists peer,
               find id (agts_in_network (self w)) = Ok peer /\
               solved opt_model (self w) peer sol)
            (agt_ids_in_network (self w)) peer_sols ->
    Py.max (map obj peer_sols) = Ok best ->
    Py.index best (map obj peer_sols) = Ok idx ->
    field_calls false (state (self w)) (dm_sols (self w)) (fields (self w)) =
      Ok calls ->
    opt_model (set_selected_agt_id_in_network
                 (nth_error (agt_ids_in_network (self w)) idx) (self w))
              false calls = Raise e ->
    snd (make_dm_social_comparison opt_model w) = Raise e /\
    self (fst (make_dm_social_comparison opt_model w)) =
      set_selected_agt_id_in_network
        (nth_error (agt_ids_in_network (self w)) idx) (self w) /\
    nth_error (agt_ids_in_network (self w)) idx <> None.
Proof.
  split.
  - remember (make_dm_social_comparison opt_model w) as r eqn:E.
    unfold make_dm_social_comparison in E. rewrite bind_get in E.
    unfold Py.bind at 1 in E.
    pose proof (peers_loop_self (agts_in_network (self w))
                  (agt_ids_in_network (self w)) w) as Hs.
    destruct (Py.for_list _ _ w) as [w1 [ds| |]]; simpl in Hs;
      try (subst r; intros _; simpl; now rewrite Hs).
    rewrite bind_lift in E.
    destruct (Py.max (map obj ds)) as [mx| |];
      try (subst r; intros _; simpl; now rewrite Hs).
    rewrite bind_lift in E.
    destruct (Py.index mx (map obj ds)) as [ix| |] eqn:Eix;
      try (subst r; intros _; simpl; now rewrite Hs).
    rewrite bind_lift in E.
    destruct (nth_error (agt_ids_in_network (self w)) ix) as [bid|];
      try (subst r; intros _; simpl; now rewrite Hs).
    unfold on_self at 1 in E. rewrite bind_modify in E.
    unfold make_dm_repetition in E.
    rewrite bind_bind, bind_get, bind_bind in E.
    unfold Py.bind at 1 in E.
    match type of E with context [make_dm opt_model ?st ?dm false ?w2] =>
      pose proof (make_dm_self st dm false w2) as Hs2;
      destruct (make_dm opt_model st dm false w2) as [w3 [d| |]]
    end; simpl in Hs2;
      try (subst r; intros _; simpl; rewrite Hs2; simpl; now rewrite Hs).
    unfold on_self at 1 in E. rewrite bind_modify, bind_get in E.
    cbn [self dm_sols set_dm_sols] in E.
    destruct (Qle_bool mx (obj d)); [subst r; intros H; now elim H|].
    destruct (nth_error ds ix) eqn:End; [subst r; intros H; now elim H|].
    destruct (index_spec _ _ Eix) as (y & Hy & _).
    rewrite nth_error_map, End in Hy. discriminate.
  - intros peer_sols best idx calls e Hst Hne HF Hmax Hidx Hc Ho.
    destruct (@peers_loop opt_model (self w) (agts_in_network (self w)) _ _ w
                eq_refl Hst HF) as (rs & Hloop & Hlen & Hall).
    destruct (index_spec _ _ Hidx) as (bo & Hbo & Hbq).
    rewrite nth_error_map in Hbo.
    destruct (nth_error peer_sols idx) as [bs|] eqn:Ebs; [|discriminate].
    assert (Hidx_lt : (idx < List.length (agt_ids_in_network (self w)))%nat).
    { rewrite (Forall2_length HF). apply nth_error_Some. congruence. }
    destruct (nth_error (agt_ids_in_network (self w)) idx) as [bid|] eqn:Ebid.
    2:{ apply nth_error_None in Ebid. lia. }
    assert (E : make_dm_social_comparison opt_model w =
      ({| self := set_selected_agt_id_in_network (Some bid) (self w);
          rngen_draws := rngen_draws w; np_random_draws := np_random_draws w;
          runs := (runs w ++ rs) ++ [calls] |}, Raise e)).
    { unfold make_dm_social_comparison.
      rewrite bind_get. unfold Py.bind at 1. rewrite Hloop.
      rewrite bind_lift, Hmax, bind_lift, Hidx, bind_lift, Ebid.
      unfold on_self at 1. rewrite bind_modify.
      unfold make_dm_repetition. rewrite bind_bind, bind_get, bind_bind.
      unfold Py.bind at 1.
      rewrite (@make_dm_raises _ _ _ calls e); [reflexivity|exact Hc|exact Ho]. }
    rewrite E. repeat split. discriminate.
Qed.

(** [l.index(x)] finds the first position: nothing before it equals [x]. *)
Lemma index_first x l i :
  Py.index x l = Ok i ->
  forall j y, (j < i)%nat -> nth_error l j = Some y -> ~ y == x.
Proof.
  revert i. induction l as [|z l IH]; intros i H; simpl in H; [discriminate|].
  destruct (Qeq_bool z x) eqn:E.
  - inversion H; subst. intros j y Hj. lia.
  - destruct (Py.index x l) as [k| |]; try discriminate.
    inversion H; subst. intros [|j] y Hj Hy; simpl in Hy.
    + inversion Hy; subst. intros Hq. apply Qeq_bool_iff in Hq. congruence.
    + apply (IH k eq_refl j y); [lia|exact Hy].
Qed.

(** X6.  Ties among peers go to the one listed first: the peer that Social
    comparison records has the largest objective of the network, and every
    peer listed before it has a strictly smaller one.  The maximum of a
    non-empty list is always found in it, so the look-up of the best never
    fails. *)
Theorem social_comparison_first_best w peer_sols :
  state (self w) = Some Social_comparison ->
  agt_ids_in_network (self w) <> [] ->
  Forall2 (fun id sol => exists peer,
             find id (agts_in_network (self w)) = Ok peer /\
             solved opt_model (self w) peer sol)
          (agt_ids_in_network (self w)) peer_sols ->
  exists idx bid bsol,
    nth_error (agt_ids_in_network (self w)) idx = Some bid /\
    nth_error peer_sols idx = Some bsol /\
    selected_agt_id_in_network
      (self (fst (make_dm_social_comparison opt_model w))) = Some bid /\
    (forall c, In c peer_sols -> obj c <= obj bsol) /\
    (forall j c, (j < idx)%nat -> nth_error peer_sols j = Some c ->
                 obj c < obj bsol).
Proof.
  intros Hst Hne HF.
  destruct (@peers_loop opt_model (self w) (agts_in_network (self w)) _ _ w
              eq_refl Hst HF) as (rs & Hloop & Hlen & Hall).
  assert (Hne' : map obj peer_sols <> []).
  { intros E. apply map_eq_nil in E. subst. inversion HF. congruence. }
  destruct (max_spec Hne') as (best & Hmax & Hin & Hle).
  assert (Hex : exists idx, Py.index best (map obj peer_sols) = Ok idx).
  { clear - Hin. induction (map obj peer_sols) as [|z l IH]; [destruct Hin|].
    simpl. destruct (Qeq_bool z best) eqn:E; [now exists 0%nat|].
    destruct Hin as [->|Hin].
    - rewrite (proj2 (Qeq_bool_iff best best) (Qeq_refl _)) in E. discriminate.
    - destruct (IH Hin) as (k & ->). now exists (S k). }
  destruct Hex as (idx & Hidx).
  destruct (index_spec _ _ Hidx) as (bo & Hbo & Hbq).
  rewrite nth_error_map in Hbo.
  destruct (nth_error peer_sols idx) as [bs|] eqn:Ebs; [|discriminate].
  simpl in Hbo. inversion Hbo; subst bo. clear Hbo.
  assert (Hidx_lt : (idx < List.length (agt_ids_in_network (self w)))%nat).
  { rewrite (Forall2_length HF). apply nth_error_Some. congruence. }
  destruct (nth_error (agt_ids_in_network (self w)) idx) as [bid|] eqn:Ebid.
  2:{ apply nth_error_None in Ebid. lia. }
  exists idx, bid, bs. repeat split; auto.
  - remember (make_dm_social_comparison opt_model w) as r eqn:E.
    unfold make_dm_social_comparison in E.
    rewrite bind_get in E. unfold Py.bind at 1 in E. rewrite Hloop in E.
    rewrite bind_lift, Hmax, bind_lift, Hidx, bind_lift, Ebid in E.
    unfold on_self at 1 in E. rewrite bind_modify in E.
    unfold make_dm_repetition in E.
    rewrite bind_bind, bind_get, bind_bind in E.
    unfold Py.bind at 1 in E.
    match type of E with context [make_dm opt_model ?st ?dm false ?w2] =>
      pose proof (make_dm_self st dm false w2) as Hs2;
      destruct (make_dm opt_model st dm false w2) as [w3 [d| |]]
    end; simpl in Hs2; try (subst r; simpl; rewrite Hs2; reflexivity).
    unfold on_self at 1 in E. rewrite bind_modify, bind_get in E.
    cbn [self dm_sols set_dm_sols] in E.
    destruct (Qle_bool best (obj d)); [subst r; simpl; now rewrite Hs2|].
    rewrite Ebs in E. subst r. simpl. now rewrite Hs2.
  - intros c Hc. rewrite Hbq. apply Hle. now apply in_map.
  - intros j c Hj Hc.
    assert (Hcle : obj c <= best).
    { apply Hle. apply in_map. eapply nth_error_In; eauto. }
    assert (Hcne : ~ obj c == best).
    { apply (@index_first best (map obj peer_sols) idx Hidx j (obj c) Hj).
      rewrite nth_error_map, Hc. reflexivity. }
    rewrite Hbq. apply Qle_lteq in Hcle. tauto.
Qed.



End MoreDecisionFacts.

Lemma social_comparison_empty_network_witness :
  make_dm_social_comparison Scenario.engine (Cases.world_of Cases.alone) =
  (Cases.world_of Cases.alone, Raise ValueError).
Proof.
  apply (@social_comparison_empty_network Scenario.engine
           (Cases.world_of Cases.alone)).
  reflexivity.
Defined.

Lemma imitation_with_selected_peer_witness :
  let w := Cases.world_of
             (Cases.in_state Imitation
                (set_selected_agt_id_in_network (Some "a2"%string)
                   Scenario.farmer)) in
  make_dm_imitation Scenario.engine Scenario.rng w =
    ({| self := set_dm_sols (Scenario.sol 2 0.65) (self w);
        rngen_draws := 0; np_random_draws := 0;
        runs := [[repetition_call "f1" (Scenario.field_sol 2)]] |}, Ok tt).
Proof.
  intros w.
  apply (proj1 (@imitation_with_selected_peer Scenario.engine Scenario.rng w
                  "a2"%string eq_refl eq_refl)
           (Scenario.sol 2 0.5)
           [repetition_call "f1" (Scenario.field_sol 2)]
           (Scenario.sol 2 0.65));
    vm_compute; reflexivity.
Defined.

Lemma imitation_empty_network_witness :
  let w := Cases.world_of (Cases.in_state Imitation Cases.alone) in
  make_dm_imitation Scenario.engine Scenario.rng w = (w, Raise ValueError).
Proof.
  intros w.
  apply (@imitation_empty_network Scenario.engine Scenario.rng w);
    reflexivity.
Defined.

Lemma failed_decision_keeps_agent_witness :
  let w := Cases.world_of (Cases.in_state Imitation Scenario.farmer) in
  self (fst (make_dm_imitation Cases.broken Scenario.rng w)) = self w.
Proof.
  intros w.
  apply (proj2 (proj2 (@failed_decision_keeps_agent Cases.broken
                         Scenario.rng w))).
  vm_compute. discriminate.
Defined.

Lemma failed_social_comparison_witness :
  let r := make_dm_social_comparison Cases.picky Scenario.world in
  snd r = Raise ValueError /\
  self (fst r) =
    set_selected_agt_id_in_network (Some "a1"%string) Scenario.farmer /\
  dm_sols (self (fst r)) = dm_sols Scenario.farmer.
Proof.
  cbv zeta.
  destruct (proj2 (@failed_social_comparison Cases.picky Scenario.world)
              [Scenario.sol 1 0.70; Scenario.sol 2 0.65] 0.70 0%nat
              [repetition_call "f1" (Scenario.field_sol 0)] ValueError)
    as (H1 & H2 & _).
  - reflexivity.
  - discriminate.
  - repeat constructor.
    + exists (Scenario.sol 1 0.5). split; [reflexivity|].
      eexists. split; vm_compute; reflexivity.
    + exists (Scenario.sol 2 0.5). split; [reflexivity|].
      eexists. split; vm_compute; reflexivity.
  - vm_compute. reflexivity.
  - vm_compute. reflexivity.
  - vm_compute. reflexivity.
  - vm_compute. reflexivity.
  - split; [exact H1|]. split; [exact H2|].
    apply (proj1 (@failed_social_comparison Cases.picky Scenario.world)).
    rewrite H1. discriminate.
Defined.

Lemma social_comparison_first_best_witness :
  exists idx bid bsol,
    nth_error (agt_ids_in_network Scenario.farmer) idx = Some bid /\
    nth_error [Scenario.sol 1 0.70; Scenario.sol 2 0.65] idx = Some bsol /\
    selected_agt_id_in_network
      (self (fst (make_dm_social_comparison Scenario.engine Scenario.world)))
      = Some bid /\
    (forall c, In c [Scenario.sol 1 0.70; Scenario.sol 2 0.65] ->
               obj c <= obj bsol) /\
    (forall j c, (j < idx)%nat ->
                 nth_error [Scenario.sol 1 0.70; Scenario.sol 2 0.65] j =
                   Some c -> obj c < obj bsol).
Proof.
  apply (@social_comparison_first_best Scenario.engine Scenario.world
           [Scenario.sol 1 0.70; Scenario.sol 2 0.65]).
  - reflexivity.
  - discriminate.
  - repeat constructor.
    + exists (Scenario.sol 1 0.5). split; [reflexivity|].
      eexists. split; vm_compute; reflexivity.
    + exists (Scenario.sol 2 0.5). split; [reflexivity|].
      eexists. split; vm_compute; reflexivity.
Defined.


End FarmerMore.

Module ConsumatMore.
Import Farmer Reading OptModelFacts FarmerFacts.

(** X8.  Two years of the CONSUMAT update in a row.  The second year's
    uncertainty is the distance between that year's satisfaction and the
    expectation recorded the year before (not the new one).  An uncertainty
    is never negative: with an uncertainty threshold at or below zero the
    agent can only land in Imitation or Social comparison, and when the
    year's satisfaction meets last year's expectation exactly, under a
    positive threshold, only in Repetition or Deliberation.  A fixed state
    overrides all of it.  The update leaves the decision untouched. *)
Theorem consumat_two_years a s1 e1 s2 e2 :
  let a2 := update_consumat s2 e2 (update_consumat s1 e1 a) in
  uncertainty a2 = Some (Qabs (e1 - s2)) /\
  satisfaction a2 = Some s2 /\ expected_sa a2 = Some e2 /\
  (fix_state a = None -> un_thre a <= 0 ->
   state a2 = Some Imitation \/ state a2 = Some Social_comparison) /\
  (fix_state a = None -> 0 < un_thre a -> e1 == s2 ->
   state a2 = Some Repetition \/ state a2 = Some Deliberation) /\
  (forall f, fix_state a = Some f -> state a2 = Some f) /\
  dm_sols a2 = dm_sols a /\
  selected_agt_id_in_network a2 = selected_agt_id_in_network a.
Proof.
  cbv zeta. unfold update_consumat.
  cbn [uncertainty satisfaction expected_sa state set_consumat fix_state
       un_thre sa_thre dm_sols selected_agt_id_in_network].
  repeat split.
  - intros Hf Hu. rewrite Hf.
    assert (E : Qle_bool (un_thre a) (Qabs (e1 - s2)) = true).
    { apply Qle_bool_iff. apply Qle_trans with 0; [exact Hu|apply Qabs_nonneg]. }
    unfold next_state. rewrite E.
    destruct (Qle_bool (sa_thre a) s2); simpl; auto.
  - intros Hf Hu He. rewrite Hf.
    assert (E : Qle_bool (un_thre a) (Qabs (e1 - s2)) = false).
    { apply Qle_bool_false.
      assert (Hz : Qabs (e1 - s2) == 0).
      { assert (H0 : e1 - s2 == 0) by (rewrite He; ring).
        rewrite H0. reflexivity. }
      rewrite Hz. exact Hu. }
    unfold next_state. rewrite E.
    destruct (Qle_bool (sa_thre a) s2); simpl; auto.
  - intros f Hf. rewrite Hf. reflexivity.
Qed.

Lemma consumat_two_years_witness :
  let a2 := update_consumat 0.6 0.8 (update_consumat 0.3 0.6 Cases.alone) in
  state a2 = Some Repetition \/ state a2 = Some Deliberation.
Proof.
  apply (proj1 (proj2 (proj2 (proj2 (proj2
           (@consumat_two_years Cases.alone 0.3 0.6 0.6 0.8)))))).
  - reflexivity.
  - reflexivity.
  - reflexivity.
Defined.

End ConsumatMore.

Module WaterRightFacts.
Import OptModel Reading OptModelFacts Plan.

Lemma range_seq a n :
  Py.range (Z.of_nat a) (Z.of_nat a + Z.of_nat n) = map Z.of_nat (seq a n).
Proof.
  unfold Py.range.
  replace (Z.to_nat (Z.of_nat a + Z.of_nat n - Z.of_nat a)) with n by lia.
  assert (G : forall b, map (fun k => (Z.of_nat a + Z.of_nat k)%Z) (seq b n) =
                        map Z.of_nat (seq (a + b) n)).
  { induction n as [|n IH]; intros b; simpl; [reflexivity|].
    f_equal; [lia|]. rewrite IH. now rewrite Nat.add_succ_r. }
  rewrite G. now rewrite Nat.add_0_r.
Qed.

Lemma range_seq' a b :
  (a <= b)%nat ->
  Py.range (Z.of_nat a) (Z.of_nat b) = map Z.of_nat (seq a (b - a)).
Proof.
  intros H. rewrite <- range_seq. f_equal. lia.
Qed.

Lemma set_model_twice o L1 L2 :
  set_model (Grb.addConstrs L2
               (model (set_model (Grb.addConstrs L1 (model o)) o)))
    (set_model (Grb.addConstrs L1 (model o)) o) =
  set_model (Grb.addConstrs (L1 ++ L2) (model o)) o.
Proof.
  unfold set_model, Grb.addConstrs. simpl. now rewrite app_assoc.
Qed.

Lemma set_model_nil o : set_model (Grb.addConstrs [] (model o)) o = o.
Proof.
  unfold set_model, Grb.addConstrs. simpl. rewrite app_nil_r.
  now destruct o as [? [] ? ? ? ? ? ? ? ? ? ? ? ? ? ?].
Qed.

Lemma same_frame_set_model o0 o m : same_frame o0 o -> same_frame o0 (set_model m o).
Proof. intros (H1 & H2 & H3). repeat split; assumption. Qed.

Lemma full_windows_spec H s0 tw :
  (1 <= tw)%nat ->
  let k := full_windows H s0 tw in
  (k * tw <= H - s0 - 1 < (k + 1) * tw)%nat.
Proof.
  intros Ht k. subst k. unfold full_windows.
  pose proof (Nat.Div0.mul_div_le (H - s0 - 1) tw).
  pose proof (Nat.mul_succ_div_gt (H - s0 - 1) tw ltac:(lia)).
  lia.
Qed.

(** A full window is the run of its years in the plan. *)
Lemma wr_window_years o id c0 s0 tw wr tail n :
  (1 <= tw)%nat -> (n < full_windows (n_h (opts o)) s0 tw)%nat ->
  wr_window o id (c0 + n) (seq (s0 + n * tw) tw) wr =
  map (wr_year o id c0 s0 tw wr tail) (seq (s0 + n * tw) tw).
Proof.
  intros Ht Hn. unfold wr_window. apply map_ext_in. intros h Hh.
  apply in_seq in Hh. unfold wr_year.
  assert (E : ((h - s0) / tw = n)%nat).
  { symmetry. apply Nat.div_unique with (r := (h - s0 - n * tw)%nat); lia. }
  rewrite E. apply Nat.ltb_lt in Hn. now rewrite Hn.
Qed.

Lemma wr_window_tail o id c0 s0 tw wr tail :
  (1 <= tw)%nat ->
  let k := full_windows (n_h (opts o)) s0 tw in
  wr_window o id (c0 + k) (seq (s0 + k * tw) (n_h (opts o) - (s0 + k * tw)))
    tail =
  map (wr_year o id c0 s0 tw wr tail)
      (seq (s0 + k * tw) (n_h (opts o) - (s0 + k * tw))).
Proof.
  intros Ht k. unfold wr_window. apply map_ext_in. intros h Hh.
  apply in_seq in Hh. unfold wr_year.
  pose proof (full_windows_spec (n_h (opts o)) s0 Ht) as Hk.
  cbv zeta in Hk. fold k in Hk.
  assert (E : ((h - s0) / tw = k)%nat).
  { symmetry. apply Nat.div_unique with (r := (h - s0 - k * tw)%nat); lia. }
  rewrite E. fold k. now rewrite Nat.ltb_irrefl.
Qed.


(** The [while] loop from window [n] on: it adds the full windows that are
    left and stops before the last one. *)
Lemma middle_period_run o0 id wr tail tw c0 s0 :
  shaped o0 -> (1 <= tw)%nat ->
  let H := n_h (opts o0) in
  let k := full_windows H s0 tw in
  forall d n fuel o,
    (n + d = k)%nat -> (d <= fuel)%nat -> same_frame o0 o ->
    middle_period fuel id (SumOf [v_irr (vars o0)]) wr (Z.of_nat tw)
      (c0 + n) (Z.of_nat (s0 + n * tw))
      (Z.of_nat H - Z.of_nat (s0 + n * tw)) o =
    (set_model
       (Grb.addConstrs
          (map (wr_year o0 id c0 s0 tw wr tail) (seq (s0 + n * tw) (d * tw)))
          (model o)) o,
     Ok ((c0 + k)%nat, Z.of_nat (s0 + k * tw),
         (Z.of_nat H - Z.of_nat (s0 + k * tw))%Z)).
Proof.
  intros Hs Ht H k.
  pose proof (full_windows_spec H s0 Ht) as Hk. cbv zeta in Hk. fold k in Hk.
  induction d as [|d IH]; intros n fuel o Hnd Hf Hfr.
  - assert (n = k) by lia. subst n.
    rewrite middle_period_done.
    + simpl seq. simpl map. rewrite set_model_nil. reflexivity.
    + rewrite Z.gtb_ltb. apply Z.ltb_ge. lia.
  - destruct fuel as [|fuel]; [lia|].
    rewrite middle_period_S by (rewrite Z.gtb_ltb; apply Z.ltb_lt; nia).
    rewrite range_seq.
    rewrite (@bind_add_window _ o0 o); [|exact Hs| |exact Hfr].
    2:{ intros h Hh. apply in_seq in Hh. fold H. nia. }
    replace (S (c0 + n)) with (c0 + S n)%nat by lia.
    replace (Z.of_nat (s0 + n * tw) + Z.of_nat tw)%Z
      with (Z.of_nat (s0 + S n * tw)) by lia.
    replace (Z.of_nat H - Z.of_nat (s0 + n * tw) - Z.of_nat tw)%Z
      with (Z.of_nat H - Z.of_nat (s0 + S n * tw))%Z by lia.
    rewrite IH; [|lia|lia|now apply same_frame_set_model].
    rewrite set_model_twice. f_equal. f_equal. f_equal.
    rewrite (@wr_window_years o0 id c0 s0 tw wr tail n Ht) by (fold H; fold k; lia).
    rewrite <- map_app. f_equal.
    replace (S d * tw)%nat with (tw + d * tw)%nat by lia.
    rewrite seq_app. f_equal. f_equal. lia.
Qed.

(** What the added year constraints ask of a point. *)
Lemma wr_years_hold s o id c0 s0 tw wr tail :
  Forall (Grb.holds s) (wr_years o id c0 s0 tw wr tail) <->
  forall h, (s0 <= h < n_h (opts o))%nat ->
    (Grb.eval s (wr_row o h) <=
     Q2R (if ((h - s0) / tw <? full_windows (n_h (opts o)) s0 tw)%nat
          then wr else tail))%R.
Proof.
  unfold wr_years. rewrite Forall_map, Forall_forall. split.
  - intros H h Hh. apply (H h). apply in_seq. lia.
  - intros H h Hh. apply in_seq in Hh. apply (H h). lia.
Qed.

(** With a window length of zero or less the loop never ends: each turn adds
    nothing and leaves more to cover than before. *)
Lemma middle_period_forever id a wr tw :
  (tw <= 0)%Z ->
  forall fuel c_i start rem o,
    (tw < rem)%Z ->
    middle_period fuel id a wr tw c_i start rem o = (o, Diverge).
Proof.
  intros Htw. induction fuel as [|fuel IH]; intros c_i start rem o Hrem.
  - simpl. replace (rem >? tw)%Z with true
      by (symmetry; rewrite Z.gtb_ltb; now apply Z.ltb_lt).
    reflexivity.
  - rewrite middle_period_S
      by (rewrite Z.gtb_ltb; now apply Z.ltb_lt).
    unfold add_window at 1. rewrite bind_bind, bind_get.
    unfold Py.range. replace (Z.to_nat (start + tw - start)) with 0%nat by lia.
    simpl Py.for_each. rewrite bind_ret. apply IH. lia.
Qed.

(** The years of a window that lie inside the horizon are added before the
    window's generator goes on. *)
Lemma for_each_wr_prefix o0 id c_i cap rest years : forall o,
  shaped o0 -> (forall h, In h years -> (h < n_h (opts o0))%nat) ->
  Py.for_each (map Z.of_nat years ++ rest) (fun h =>
    Py.bind (Py.lift (wr_constr id c_i (area_split (coef o0)) (n_c (opts o0))
                        (SumOf [v_irr (vars o0)]) (Ok cap) h))
      (fun c => m_addConstrs [c])) o =
  Py.for_each rest (fun h =>
    Py.bind (Py.lift (wr_constr id c_i (area_split (coef o0)) (n_c (opts o0))
                        (SumOf [v_irr (vars o0)]) (Ok cap) h))
      (fun c => m_addConstrs [c]))
    (set_model (Grb.addConstrs (wr_window o0 id c_i years cap) (model o)) o).
Proof.
  intros o Hs. revert o.
  induction years as [|h years IH]; intros o Hy.
  - simpl. now rewrite set_model_nil.
  - simpl map. simpl app. simpl Py.for_each. rewrite bind_bind, bind_lift.
    rewrite wr_constr_all by (auto; apply Hy; now left).
    rewrite bind_addConstrs.
    rewrite IH by (intros; apply Hy; now right).
    f_equal. unfold set_model, Grb.addConstrs. simpl. now rewrite <- app_assoc.
Qed.

(** A year at or past the horizon is outside the array. *)
Lemma wr_constr_overrun o id c_i cap h :
  shaped o -> (1 <= area_split (coef o))%nat -> (1 <= n_c (opts o))%nat ->
  (n_h (opts o) <= h)%nat ->
  wr_constr id c_i (area_split (coef o)) (n_c (opts o))
    (SumOf [v_irr (vars o)]) cap (Z.of_nat h) = Raise IndexError.
Proof.
  intros [nm Hs] Hns Hnc Hh. unfold wr_constr.
  destruct (area_split (coef o)) as [|ns]; [lia|].
  destruct (n_c (opts o)) as [|nc]; [lia|].
  unfold cells. cbn [seq flat_map map app Py.map_result fst snd].
  unfold irr_sub_at. cbn [Py.map_result]. unfold Grb.getitem. rewrite Hs.
  cbn [Grb.mv_shape Grb.norm_idx].
  replace ((0 <=? Z.of_nat 0) && (Z.of_nat 0 <? Z.of_nat (S ns)))%Z with true
    by (symmetry; apply andb_true_iff; split;
        [apply Z.leb_le | apply Z.ltb_lt]; lia).
  replace ((0 <=? Z.of_nat 0) && (Z.of_nat 0 <? Z.of_nat (S nc)))%Z with true
    by (symmetry; apply andb_true_iff; split;
        [apply Z.leb_le | apply Z.ltb_lt]; lia).
  replace ((0 <=? Z.of_nat h) && (Z.of_nat h <? Z.of_nat (n_h (opts o))))%Z
    with false
    by (symmetry; apply andb_false_iff; right; apply Z.ltb_ge; lia).
  replace ((- Z.of_nat (n_h (opts o)) <=? Z.of_nat h) && (Z.of_nat h <? 0))%Z
    with false
    by (symmetry; apply andb_false_iff; right; apply Z.ltb_ge; lia).
  reflexivity.
Qed.

End WaterRightFacts.

Module WaterRightMore.
Import OptModel Reading OptModelFacts Plan WaterRightFacts.

(** Runs [setup_constr_wr] on the shared array up to the end of the [while]
    loop, for windows that start at year 0. *)
Ltac wr_to_tail o id wr cap t Hs Ht k H :=
  unfold setup_constr_wr;
  repeat py_step; unfold irr_sub_of; cbv beta iota;
  repeat py_step; fold H;
  unfold Py.bind at 1;
  match goal with |- context [middle_period ?f _ _ _ _ _ _ _ ?o'] =>
    let HM := fresh "HM" in
    pose proof (@middle_period_run o id wr cap t 0 0 Hs Ht k 0 f o') as HM;
    fold H in HM; change (0 + 0)%nat with 0%nat in HM;
    change (Z.of_nat (0 + 0 * t)) with 0%Z in HM;
    rewrite HM; [|reflexivity|nia|repeat split]; clear HM
  end;
  cbv beta iota; fold k.

(** X9.  A water right on all fields with no carry-over, over any horizon
    and any window length of one year or more, under either tail policy the
    code knows: the call returns, every year of the horizon gets exactly one
    constraint, named after the window the year falls in (year [h] in window
    [h / time_window]) and capping that year's irrigation depth at [wr] in a
    full window and at the tail cap in the last one.  The last window is
    never a full one for the loop: when the horizon is a multiple of the
    window length, the last [time_window] years are the tail, and the
    proportional cap is then [wr * time_window / time_window].  Nothing
    else is added, and the water right is registered. *)
Theorem wr_any_horizon o id wr tw tail :
  shaped o -> (1 <= tw)%Z ->
  tail = "propotion"%string \/ tail = "wr"%string ->
  let t := Z.to_nat tw in
  let H := n_h (opts o) in
  let cap := if String.eqb tail "propotion" then proportional wr H 0 t
             else wr in
  let r := setup_constr_wr id wr all tw None None (tail_str tail) o in
  snd r = Ok tt /\
  Grb.m_constrs (model (fst r)) =
    Grb.m_constrs (model o) ++ wr_years o id 0 0 t wr cap /\
  Grb.m_vars (model (fst r)) = Grb.m_vars (model o) /\
  water_right_ids (reg (fst r)) = water_right_ids (reg o) ++ [id] /\
  n_water_rights (reg (fst r)) = S (n_water_rights (reg o)) /\
  OptModel.wr (fst r) = Some wr /\ time_window (fst r) = Some tw /\
  forall s,
    Forall (Grb.holds s) (Grb.m_constrs (model (fst r))) <->
    Forall (Grb.holds s) (Grb.m_constrs (model o)) /\
    forall h, (h < H)%nat ->
      (Grb.eval s (wr_row o h) <=
       Q2R (if (h / t <? full_windows H 0 t)%nat then wr else cap))%R.
Proof.
  intros Hs Htw Htail t H cap r.
  assert (Hsem : forall s L,
    L = Grb.m_constrs (model o) ++ wr_years o id 0 0 t wr cap ->
    (Forall (Grb.holds s) L <->
     Forall (Grb.holds s) (Grb.m_constrs (model o)) /\
     forall h, (h < H)%nat ->
       (Grb.eval s (wr_row o h) <=
        Q2R (if (h / t <? full_windows H 0 t)%nat then wr else cap))%R)).
  { intros s L ->. rewrite Forall_app, wr_years_hold. fold H.
    split; intros [Ha Hb]; (split; [exact Ha|]); intros h Hh.
    - specialize (Hb h ltac:(lia)). now rewrite Nat.sub_0_r in Hb.
    - rewrite Nat.sub_0_r. apply Hb. lia. }
  assert (Ht : (1 <= t)%nat) by (subst t; lia).
  assert (Etw : tw = Z.of_nat t) by (subst t; lia).
  clearbody t. subst tw.
  pose proof (full_windows_spec H 0 Ht) as Hk. cbv zeta in Hk.
  set (k := full_windows H 0 t) in *.
  destruct (Nat.eq_dec H 0) as [H0|H0].
  - eassert (E : r = (_, Ok tt)).
    { subst r. wr_to_tail o id wr cap t Hs Ht k H.
      replace (Z.of_nat H - Z.of_nat (0 + k * t) >? 0)%Z with false
        by (symmetry; rewrite Z.gtb_ltb; apply Z.ltb_ge; lia).
      repeat py_step. unfold Py.modify. reflexivity. }
    rewrite E. clear E. cbn [fst snd].
    match goal with |- _ /\ Grb.m_constrs ?M = _ /\ _ =>
      assert (EL : Grb.m_constrs M =
                   Grb.m_constrs (model o) ++ wr_years o id 0 0 t wr cap)
    end.
    { cbn [model set_reg set_model Grb.addConstrs Grb.m_constrs
           set_time_window set_wr].
      unfold wr_years. fold H. rewrite H0.
      assert (k = 0)%nat by nia.
      replace (k * t)%nat with 0%nat by nia. simpl. reflexivity. }
    split; [reflexivity|]. split; [exact EL|].
    do 5 (split; [reflexivity|]).
    intros s. apply Hsem. exact EL.
  - eassert (E : r = (_, Ok tt)).
    { subst r. wr_to_tail o id wr cap t Hs Ht k H.
      replace (Z.of_nat H - Z.of_nat (0 + k * t) >? 0)%Z with true
        by (symmetry; rewrite Z.gtb_ltb; apply Z.ltb_lt; lia).
      rewrite range_seq' by lia.
      replace (Z.of_nat H - Z.of_nat (0 + k * t))%Z
        with (Z.of_nat (tail_years H 0 t))
        by (unfold tail_years; fold k; lia).
      assert (Ecap :
        (if (tail =? "propotion")%string
         then Ok (wr * inject_Z (Z.of_nat (tail_years H 0 t)) /
                  inject_Z (Z.of_nat t))
         else if (tail =? "wr")%string then Ok wr else Raise NameError) =
        Ok cap).
      { subst cap. destruct Htail as [-> | ->]; reflexivity. }
      rewrite Ecap.
      rewrite (@bind_add_window _ o);
        [|exact Hs|intros h Hh; apply in_seq in Hh; fold H; lia
         |repeat split].
      repeat py_step. unfold Py.modify. reflexivity. }
    rewrite E. clear E. cbn [fst snd].
    match goal with |- _ /\ Grb.m_constrs ?M = _ /\ _ =>
      assert (EL : Grb.m_constrs M =
                   Grb.m_constrs (model o) ++ wr_years o id 0 0 t wr cap)
    end.
    { cbn [model set_reg set_model Grb.addConstrs Grb.m_constrs
           set_time_window set_wr].
      rewrite <- app_assoc. f_equal.
      fold H. fold k.
      pose proof (@wr_window_tail o id 0 0 t wr cap Ht) as HT.
      cbv zeta in HT. fold H in HT. fold k in HT. rewrite HT. clear HT.
      rewrite <- map_app, <- seq_app.
      unfold wr_years. fold H. f_equal. f_equal. lia. }
    split; [reflexivity|]. split; [exact EL|].
    do 5 (split; [reflexivity|]).
    intros s. apply Hsem. exact EL.
Qed.

Lemma wr_any_horizon_witness :
  let o := Scenario.ini 6 in
  let r := setup_constr_wr "W" 50 all 3 None None (tail_str "propotion") o in
  snd r = Ok tt /\
  Grb.m_constrs (model (fst r)) =
    Grb.m_constrs (model o) ++
    wr_years o "W" 0 0 3 50 (proportional 50 6 0 3).
Proof.
  destruct (@wr_any_horizon (Scenario.ini 6) "W" 50 3 "propotion")
    as (H1 & H2 & _).
  - exists "irr(cm)"%string. reflexivity.
  - lia.
  - now left.
  - split; [exact H1|exact H2].
Defined.

(** X10.  Any other tail policy fails, on every horizon of a year or more:
    a number, or a string other than the two the code tests (the ["all"] of
    the docstring among them), leaves the tail cap unassigned and the call
    raises [NameError] at the last window, after the full windows have been
    added.  This also happens when the horizon is a multiple of the window
    length.  The water right is not registered, but [wr] and [time_window]
    have been overwritten. *)
Theorem wr_other_tail_raises o id wr tw tail :
  shaped o -> (1 <= tw)%Z -> (1 <= n_h (opts o))%nat ->
  match tail with
  | tail_str s => s <> "propotion"%string /\ s <> "wr"%string
  | tail_val _ => True
  end ->
  let t := Z.to_nat tw in
  let H := n_h (opts o) in
  let r := setup_constr_wr id wr all tw None None tail o in
  snd r = Raise NameError /\
  Grb.m_constrs (model (fst r)) =
    Grb.m_constrs (model o) ++
    map (wr_year o id 0 0 t wr wr) (seq 0 (full_windows H 0 t * t)) /\
  reg (fst r) = reg o /\
  OptModel.wr (fst r) = Some wr /\ time_window (fst r) = Some tw.
Proof.
  intros Hs Htw HH Htail t H r.
  assert (Ht : (1 <= t)%nat) by (subst t; lia).
  assert (Etw : tw = Z.of_nat t) by (subst t; lia).
  clearbody t. subst tw.
  pose proof (full_windows_spec H 0 Ht) as Hk. cbv zeta in Hk.
  set (k := full_windows H 0 t) in *.
  eassert (E : r = (_, Raise NameError)).
  { subst r. wr_to_tail o id wr wr t Hs Ht k H.
    replace (Z.of_nat H - Z.of_nat (0 + k * t) >? 0)%Z with true
      by (symmetry; rewrite Z.gtb_ltb; apply Z.ltb_lt; lia).
    rewrite range_seq' by lia.
    assert (Ecap :
      match tail with
      | tail_str s =>
          if (s =? "propotion")%string
          then Ok (wr * inject_Z (Z.of_nat H - Z.of_nat (0 + k * t)) /
                   inject_Z (Z.of_nat t))
          else if (s =? "wr")%string then Ok wr else Raise NameError
      | tail_val _ => Raise NameError
      end = Raise NameError).
    { destruct tail as [s|q]; [|reflexivity].
      destruct Htail as [H1 H2].
      apply String.eqb_neq in H1, H2. now rewrite H1, H2. }
    rewrite Ecap.
    replace (H - (0 + k * t))%nat with (S (H - (0 + k * t) - 1)) by lia.
    cbn [seq].
    rewrite (@bind_add_window_unbound _ o);
      [reflexivity|exact Hs|fold H; lia|repeat split]. }
  rewrite E. clear E. cbn [fst snd].
  repeat split; reflexivity.
Qed.

Lemma wr_other_tail_raises_witness :
  let r := setup_constr_wr "W" 50 all 3 None None (tail_str "all")
             (Scenario.ini 6) in
  snd r = Raise NameError /\ reg (fst r) = reg (Scenario.ini 6).
Proof.
  destruct (@wr_other_tail_raises (Scenario.ini 6) "W" 50 3 (tail_str "all"))
    as (H1 & _ & H3 & _).
  - exists "irr(cm)"%string. reflexivity.
  - lia.
  - vm_compute. lia.
  - split; discriminate.
  - split; [exact H1|exact H3].
Defined.

(** X11.  A window length of zero or less never returns on a horizon of a
    year or more: the loop adds an empty window at each turn and what is
    left to cover does not shrink, so no amount of fuel ends it; nothing is
    added to the model. *)
Theorem wr_window_length_must_be_positive o id wr tw tail :
  (tw <= 0)%Z -> (1 <= n_h (opts o))%nat ->
  (forall fuel a c_i start rem o',
     (tw < rem)%Z ->
     middle_period fuel id a wr tw c_i start rem o' = (o', Diverge)) /\
  snd (setup_constr_wr id wr all tw None None tail o) = Diverge /\
  model (fst (setup_constr_wr id wr all tw None None tail o)) = model o.
Proof.
  intros Htw HH. split.
  - intros fuel a c_i start rem o' Hrem. now apply middle_period_forever.
  - assert (E : setup_constr_wr id wr all tw None None tail o =
                (set_time_window (Some tw) (set_wr (Some wr) o), Diverge)).
    { unfold setup_constr_wr.
      repeat py_step. unfold irr_sub_of. cbv beta iota.
      repeat py_step. unfold Py.bind at 1.
      rewrite middle_period_forever; [reflexivity|exact Htw|lia]. }
    rewrite E. split; reflexivity.
Qed.

Lemma wr_window_length_must_be_positive_witness :
  snd (setup_constr_wr "W" 50 all 0 None None (tail_str "propotion")
         (Scenario.ini 6)) = Diverge.
Proof.
  apply (@wr_window_length_must_be_positive (Scenario.ini 6) "W" 50 0
           (tail_str "propotion")).
  - lia.
  - vm_compute. lia.
Defined.

End WaterRightMore.

Module WaterRightCarry.
Import OptModel Reading OptModelFacts Plan WaterRightFacts.

(** X12.  Carrying over an unused water right: with [start_index = s]
    inside the horizon and [remaining_wr] given, the years [0 .. s] are
    capped at [remaining_wr] (window 0), and the regular windows then start
    at year [s] itself, not at [s + 1]: year [s] is capped twice, by what is
    left of the old window and by the first new one.  The windows after it
    cover the years [s .. horizon - 1]. *)
Theorem wr_carry_over o id wr tw tail s0 rem_wr :
  shaped o -> (1 <= tw)%Z -> (s0 < n_h (opts o))%nat ->
  tail = "propotion"%string \/ tail = "wr"%string ->
  let t := Z.to_nat tw in
  let H := n_h (opts o) in
  let cap := if String.eqb tail "propotion" then proportional wr H s0 t
             else wr in
  let r := setup_constr_wr id wr all tw (Some (Z.of_nat s0)) (Some rem_wr)
             (tail_str tail) o in
  snd r = Ok tt /\
  Grb.m_constrs (model (fst r)) =
    Grb.m_constrs (model o) ++
    wr_window o id 0 (seq 0 (S s0)) rem_wr ++
    wr_years o id 1 s0 t wr cap /\
  In (Grb.Lin (wr_name id 0) [Z.of_nat s0] (wr_row o s0) Grb.LE
        (Grb.Const rem_wr)) (Grb.m_constrs (model (fst r))) /\
  In (Grb.Lin (wr_name id 1) [Z.of_nat s0] (wr_row o s0) Grb.LE
        (Grb.Const (if (0 <? full_windows H s0 t)%nat then wr else cap)))
     (Grb.m_constrs (model (fst r))) /\
  n_water_rights (reg (fst r)) = S (n_water_rights (reg o)).
Proof.
  intros Hs Htw Hs0 Htail t H cap r.
  assert (Ht : (1 <= t)%nat) by (subst t; lia).
  assert (Etw : tw = Z.of_nat t) by (subst t; lia).
  clearbody t. subst tw.
  pose proof (full_windows_spec H s0 Ht) as Hk. cbv zeta in Hk.
  set (k := full_windows H s0 t) in *.
  eassert (E : r = (_, Ok tt)).
  { subst r. unfold setup_constr_wr.
    repeat py_step. unfold irr_sub_of. cbv beta iota.
    repeat py_step. fold H.
    replace (Z.of_nat s0 >? Z.of_nat H)%Z with false
      by (symmetry; rewrite Z.gtb_ltb; apply Z.ltb_ge; lia).
    repeat py_step.
    replace (Py.range 0 (Z.of_nat s0 + 1)) with (map Z.of_nat (seq 0 (S s0))).
    2:{ change 0%Z with (Z.of_nat 0).
        replace (Z.of_nat s0 + 1)%Z with (Z.of_nat (S s0)) by lia.
        rewrite range_seq' by lia. now rewrite Nat.sub_0_r. }
    rewrite (@bind_add_window _ o);
      [|exact Hs|intros h Hh; apply in_seq in Hh; fold H; lia
       |repeat split].
    rewrite bind_ret. cbv beta iota.
    unfold Py.bind at 1.
    match goal with |- context [middle_period ?f _ _ _ _ _ _ _ ?o'] =>
      pose proof (@middle_period_run o id wr cap t 1 s0 Hs Ht k 0 f o') as HM
    end.
    fold H in HM. change (1 + 0)%nat with 1%nat in HM.
    replace (s0 + 0 * t)%nat with s0 in HM by lia.
    rewrite HM; [|reflexivity|nia|repeat split]. clear HM.
    cbv beta iota. fold k.
    replace (Z.of_nat H - Z.of_nat (s0 + k * t) >? 0)%Z with true
      by (symmetry; rewrite Z.gtb_ltb; apply Z.ltb_lt; lia).
    rewrite range_seq' by lia.
    replace (Z.of_nat H - Z.of_nat (s0 + k * t))%Z
      with (Z.of_nat (tail_years H s0 t))
      by (unfold tail_years; fold k; lia).
    assert (Ecap :
      (if (tail =? "propotion")%string
       then Ok (wr * inject_Z (Z.of_nat (tail_years H s0 t)) /
                inject_Z (Z.of_nat t))
       else if (tail =? "wr")%string then Ok wr else Raise NameError) =
      Ok cap).
    { subst cap. destruct Htail as [-> | ->]; reflexivity. }
    rewrite Ecap.
    rewrite (@bind_add_window _ o);
      [|exact Hs|intros h Hh; apply in_seq in Hh; fold H; lia
       |repeat split].
    repeat py_step. unfold Py.modify. reflexivity. }
  rewrite E. clear E. cbn [fst snd].
  match goal with |- _ /\ Grb.m_constrs ?M = _ /\ _ =>
    assert (EL : Grb.m_constrs M =
                 Grb.m_constrs (model o) ++
                 wr_window o id 0 (seq 0 (S s0)) rem_wr ++
                 wr_years o id 1 s0 t wr cap)
  end.
  { cbn [model set_reg set_model Grb.addConstrs Grb.m_constrs
         set_time_window set_wr].
    rewrite <- !app_assoc. f_equal. f_equal.
    fold H. fold k.
    pose proof (@wr_window_tail o id 1 s0 t wr cap Ht) as HT.
    cbv zeta in HT. fold H in HT. fold k in HT. rewrite HT. clear HT.
    rewrite <- map_app, <- seq_app.
    unfold wr_years. fold H. f_equal. f_equal. lia. }
  split; [reflexivity|]. split; [exact EL|].
  split; [|split; [|reflexivity]].
  - rewrite EL. apply in_or_app. right. apply in_or_app. left.
    unfold wr_window. apply in_map_iff. exists s0. split; [reflexivity|].
    apply in_seq. lia.
  - rewrite EL. apply in_or_app. right. apply in_or_app. right.
    unfold wr_years. apply in_map_iff. exists s0. split.
    + unfold wr_year. rewrite Nat.sub_diag.
      rewrite Nat.Div0.div_0_l. rewrite Nat.add_0_r. reflexivity.
    + apply in_seq. fold H. lia.
Qed.

Lemma wr_carry_over_witness :
  let r := setup_constr_wr "W" 50 all 3 (Some 1%Z) (Some 20)
             (tail_str "wr") (Scenario.ini 6) in
  snd r = Ok tt /\
  In (Grb.Lin (wr_name "W" 0) [1%Z] (wr_row (Scenario.ini 6) 1) Grb.LE
        (Grb.Const 20)) (Grb.m_constrs (model (fst r))) /\
  In (Grb.Lin (wr_name "W" 1) [1%Z] (wr_row (Scenario.ini 6) 1) Grb.LE
        (Grb.Const 50)) (Grb.m_constrs (model (fst r))).
Proof.
  destruct (@wr_carry_over (Scenario.ini 6) "W" 50 3 "wr" 1 20)
    as (H1 & _ & H3 & H4 & _).
  - exists "irr(cm)"%string. reflexivity.
  - lia.
  - vm_compute. lia.
  - now right.
  - split; [exact H1|]. split; [exact H3|exact H4].
Defined.

(** X13.  A carry-over that starts at or past the horizon cannot be set
    up.  The clamp meant to keep [start_index] inside the horizon changes
    nothing ([max(n_h, start_index + 1) - 1] is [start_index] again), so the
    first window runs over every year up to [start_index]: the years of the
    horizon are capped at [remaining_wr], then the year [n_h] is looked up
    in the array and the call raises [IndexError].  The warning is printed
    only when [start_index] is above the horizon, not when it equals it.
    The water right is not registered. *)
Theorem wr_carry_over_past_horizon o id wr tw tail s0 rem_wr :
  shaped o -> (1 <= area_split (coef o))%nat -> (1 <= n_c (opts o))%nat ->
  (n_h (opts o) <= s0)%nat ->
  let H := n_h (opts o) in
  let r := setup_constr_wr id wr all tw (Some (Z.of_nat s0)) (Some rem_wr)
             tail o in
  snd r = Raise IndexError /\
  Grb.m_constrs (model (fst r)) =
    Grb.m_constrs (model o) ++ wr_window o id 0 (seq 0 H) rem_wr /\
  reg (fst r) = reg o /\
  stdout (fst r) =
    stdout o ++
    (if (H <? s0)%nat
     then ["Warning: start_index is larger than (horizon - 1)."%string]
     else []).
Proof.
  intros Hs Hns Hnc Hs0 H r.
  assert (Eyears : Py.range 0 (Z.of_nat s0 + 1) =
                   map Z.of_nat (seq 0 H) ++
                   Z.of_nat H :: map Z.of_nat (seq (S H) (s0 - H))).
  { change 0%Z with (Z.of_nat 0).
    replace (Z.of_nat s0 + 1)%Z with (Z.of_nat (S s0)) by lia.
    rewrite range_seq' by lia. rewrite Nat.sub_0_r.
    replace (S s0) with (H + S (s0 - H))%nat by (fold H in Hs0; lia).
    rewrite seq_app, map_app. reflexivity. }
  assert (Ewin : forall o',
    same_frame o o' ->
    add_window id 0 (SumOf [v_irr (vars o)]) (Ok rem_wr)
      (Py.range 0 (Z.of_nat s0 + 1)) o' =
    (set_model (Grb.addConstrs (wr_window o id 0 (seq 0 H) rem_wr)
                  (model o')) o', Raise IndexError)).
  { intros o' (Ho & Hc & Hv). unfold add_window. rewrite bind_get.
    rewrite Ho, Hc, Eyears.
    rewrite for_each_wr_prefix;
      [|exact Hs|intros h Hh; apply in_seq in Hh; fold H; lia].
    simpl Py.for_each. rewrite bind_bind, bind_lift.
    rewrite wr_constr_overrun; auto. }
  destruct (Nat.ltb_spec H s0) as [Hlt|Hge].
  - eassert (E : r = (_, Raise IndexError)).
    { subst r. unfold setup_constr_wr.
      repeat py_step. unfold irr_sub_of. cbv beta iota.
      repeat py_step. fold H.
      replace (Z.of_nat s0 >? Z.of_nat H)%Z with true
        by (symmetry; rewrite Z.gtb_ltb; apply Z.ltb_lt; lia).
      unfold print at 1. repeat py_step.
      replace (Z.max (Z.of_nat H) (Z.of_nat s0 + 1) - 1)%Z
        with (Z.of_nat s0) by lia.
      unfold Py.bind at 1. rewrite Ewin by (repeat split). reflexivity. }
    rewrite E. cbn [fst snd]. repeat split; reflexivity.
  - eassert (E : r = (_, Raise IndexError)).
    { subst r. unfold setup_constr_wr.
      repeat py_step. unfold irr_sub_of. cbv beta iota.
      repeat py_step. fold H.
      replace (Z.of_nat s0 >? Z.of_nat H)%Z with false
        by (symmetry; rewrite Z.gtb_ltb; apply Z.ltb_ge; lia).
      repeat py_step.
      unfold Py.bind at 1. rewrite Ewin by (repeat split). reflexivity. }
    rewrite E. cbn [fst snd]. repeat split; try reflexivity.
    cbn. now rewrite app_nil_r.
Qed.

Lemma wr_carry_over_past_horizon_witness :
  let r := setup_constr_wr "W" 50 all 3 (Some 6%Z) (Some 20)
             (tail_str "wr") (Scenario.ini 6) in
  snd r = Raise IndexError /\ stdout (fst r) = stdout (Scenario.ini 6) ++ [].
Proof.
  destruct (@wr_carry_over_past_horizon (Scenario.ini 6) "W" 50 3
              (tail_str "wr") 6 20) as (H1 & _ & _ & H4).
  - exists "irr(cm)"%string. reflexivity.
  - vm_compute. lia.
  - vm_compute. lia.
  - vm_compute. lia.
  - split; [exact H1|exact H4].
Defined.

End WaterRightCarry.

Module BuildFacts.
Import OptModel Reading OptModelFacts.

Lemma map_result_length {A B} (f : A -> result B) l r :
  Py.map_result f l = Ok r -> List.length r = List.length l.
Proof.
  revert r. induction l as [|x l IH]; intros r H; simpl in H.
  - now inversion H.
  - destruct (f x); try discriminate.
    destruct (Py.map_result f l); try discriminate.
    inversion H. simpl. now rewrite (IH _ eq_refl).
Qed.

(** The crop table exists exactly when there is a crop option and the
    configuration holds every one; the only failure is [IndexError]. *)
Lemma crop_table_outcome config co :
  (co <> [] /\ (forall c, In c co -> Py.lookup c (field_crop config) <> None) /\
   exists rows, crop_table config co = Ok rows /\
                List.length rows = List.length co) \/
  ((co = [] \/ exists c, In c co /\ Py.lookup c (field_crop config) = None) /\
   crop_table config co = Raise IndexError).
Proof.
  unfold crop_table. destruct co as [|c0 co]; [right; auto|].
  set (f := fun c => match Py.lookup c (field_crop config) with
                     | Some row => Ok row
                     | None => Raise IndexError
                     end).
  assert (G : forall l,
    ((forall c, In c l -> Py.lookup c (field_crop config) <> None) /\
     exists rows, Py.map_result f l = Ok rows) \/
    ((exists c, In c l /\ Py.lookup c (field_crop config) = None) /\
     Py.map_result f l = Raise IndexError)).
  { induction l as [|c l IH]; simpl.
    - left. split; [intros c []|now exists []].
    - unfold f at 1 3.
      destruct (Py.lookup c (field_crop config)) as [row|] eqn:E.
      + destruct IH as [[Hall [rows Hr]]|[[c' [Hin Hc']] Hr]]; rewrite Hr.
        * left. split; [|now eexists].
          intros c' [<-|Hin]; [congruence|now apply Hall].
        * right. split; [|reflexivity]. exists c'. split; [now right|exact Hc'].
      + right. split; [|reflexivity]. exists c. split; [now left|exact E]. }
  destruct (G (c0 :: co)) as [[Hall [rows Hr]]|[Hex Hr]].
  - left. split; [discriminate|]. split; [exact Hall|].
    exists rows. split; [exact Hr|]. now apply map_result_length in Hr.
  - right. split; [now right|exact Hr].
Qed.

Lemma length_indices3 a b c :
  List.length (Grb.indices [a; b; c]) = (a * b * c)%nat.
Proof.
  assert (G1 : forall n, List.length (Grb.indices [n]) = n).
  { intros n. simpl. generalize 0%nat.
    induction n as [|n IH]; intros s; simpl; [reflexivity|]. now rewrite IH. }
  assert (G : forall (A B : Type) (f : A -> list B) (l : list A) k,
            (forall x, List.length (f x) = k) ->
            List.length (flat_map f l) = (List.length l * k)%nat).
  { intros A B f l k Hk. induction l as [|x l IH]; simpl; [reflexivity|].
    now rewrite length_app, Hk, IH. }
  change (Grb.indices [a; b; c]) with
    (flat_map (fun i => map (cons i) (Grb.indices [b; c])) (seq 0 a)).
  rewrite (G _ _ _ _ (b * c)%nat).
  - rewrite length_seq. lia.
  - intros x. rewrite length_map.
    change (Grb.indices [b; c]) with
      (flat_map (fun i => map (cons i) (Grb.indices [c])) (seq 0 b)).
    rewrite (G _ _ _ _ c).
    + now rewrite length_seq.
    + intros y. now rewrite length_map, G1.
Qed.

Lemma length_indices1 n : List.length (Grb.indices [n]) = n.
Proof.
  simpl. generalize 0%nat.
  induction n as [|n IH]; intros s; simpl; [reflexivity|]. now rewrite IH.
Qed.

End BuildFacts.

Module BuildMore.
Import OptModel Reading OptModelFacts BuildFacts.

(** Runs a method on an instance given by its attributes: after each step
    the instance is again a record of attributes. *)
Ltac flat :=
  cbn [set_opts set_gurobi_pars set_reg set_coef set_alphas set_eval_metrics
       set_model set_bounds_ub_w set_bounds_ub_irr set_vars set_msg set_wr
       set_time_window set_out
       name model opts coef gurobi_pars reg alphas eval_metrics vars
       bounds_ub_w bounds_ub_irr msg OptModel.wr time_window out stdout
       Grb.addMVar Grb.addVar Grb.addConstrs fst snd
       Grb.m_vars Grb.m_constrs Grb.m_obj Grb.m_params Grb.m_disposed].

Ltac run := repeat (py_step; flat).



End BuildMore.

Module GrowFacts.
Import OptModel Reading OptModelFacts FarmerFacts.

Lemma later_model o m :
  Grb.extends (model o) m -> later o (set_model m o).
Proof. intros H. unfold later. cbn. repeat split; auto; apply H. Qed.

Lemma extends_refl m : Grb.extends m m.
Proof. split; apply incl_refl. Qed.

Lemma keeps_gets {A} (f : OptModel -> A) : keeps later (Py.gets f).
Proof. intros o. apply later_refl. Qed.

Lemma keeps_addMVar sh vt nm lb ub : keeps later (m_addMVar sh vt nm lb ub).
Proof.
  intros o. unfold m_addMVar. cbn. apply later_model. split; cbn.
  - apply incl_appl, incl_refl.
  - apply incl_refl.
Qed.

Lemma keeps_addVar vt nm lb ub : keeps later (m_addVar vt nm lb ub).
Proof.
  intros o. unfold m_addVar. cbn. apply later_model. split; cbn.
  - apply incl_appl, incl_refl.
  - apply incl_refl.
Qed.

Lemma keeps_addConstrs cs : keeps later (m_addConstrs cs).
Proof.
  intros o. unfold m_addConstrs. cbn. apply later_model. split; cbn.
  - apply incl_refl.
  - apply incl_appl, incl_refl.
Qed.

Lemma keeps_setObjective v sn :
  keeps later
    (Py.modify (fun o' => set_model (Grb.setObjective v sn (model o')) o')).
Proof. intros o. cbn. apply later_model. split; apply incl_refl. Qed.

(** Attributes a set-up method records about itself. *)
Lemma keeps_set_reg r : keeps later (Py.modify (set_reg r)).
Proof. intros o. cbn. unfold later. cbn. repeat split; auto using incl_refl. Qed.

Lemma keeps_set_wr x : keeps later (Py.modify (set_wr x)).
Proof. intros o. cbn. unfold later. cbn. repeat split; auto using incl_refl. Qed.

Lemma keeps_set_time_window x : keeps later (Py.modify (set_time_window x)).
Proof. intros o. cbn. unfold later. cbn. repeat split; auto using incl_refl. Qed.

Lemma keeps_set_msg f : keeps later (Py.modify (fun o => set_msg (f o) o)).
Proof. intros o. cbn. unfold later. cbn. repeat split; auto using incl_refl. Qed.

Lemma keeps_set_bounds_ub_irr f :
  keeps later (Py.modify (fun o => set_bounds_ub_irr (f o) o)).
Proof. intros o. cbn. unfold later. cbn. repeat split; auto using incl_refl. Qed.

Lemma keeps_set_alphas f : keeps later (Py.modify (fun o => set_alphas (f o) o)).
Proof. intros o. cbn. unfold later. cbn. repeat split; auto using incl_refl. Qed.

Lemma keeps_set_eval_metrics f :
  keeps later (Py.modify (fun o => set_eval_metrics (f o) o)).
Proof. intros o. cbn. unfold later. cbn. repeat split; auto using incl_refl. Qed.

Lemma keeps_print s : keeps later (print s).
Proof. intros o. cbn. unfold later. cbn. repeat split; auto using incl_refl. Qed.

Lemma keeps_set_field_msg fid f : keeps later (set_field_msg fid f).
Proof.
  intros o. unfold set_field_msg. cbn.
  destruct (Py.lookup fid (msg o)); [|apply later_refl].
  unfold later. cbn. repeat split; auto using incl_refl.
Qed.

(** [self.vars] gains an entry; the shared arrays stay. *)
Lemma keeps_update_vars (F : Vars -> Vars) :
  (forall vs, v_irr (F vs) = v_irr vs /\ v_y (F vs) = v_y vs /\
              v_y_y (F vs) = v_y_y vs /\ v_e (F vs) = v_e vs /\
              v_profit (F vs) = v_profit vs) ->
  keeps later (Py.bind (Py.gets vars) (fun vs => Py.modify (set_vars (F vs)))).
Proof.
  intros H o. cbn. destruct (H (vars o)) as (H1 & H2 & H3 & H4 & H5).
  unfold later. cbn. repeat split; auto using incl_refl.
Qed.

Lemma keeps_update_vars_then {B} (F : Vars -> Vars)
    (k : unit -> Py.M OptModel B) :
  (forall vs, v_irr (F vs) = v_irr vs /\ v_y (F vs) = v_y vs /\
              v_y_y (F vs) = v_y_y vs /\ v_e (F vs) = v_e vs /\
              v_profit (F vs) = v_profit vs) ->
  keeps later (k tt) ->
  keeps later (Py.bind (Py.gets vars) (fun vs =>
               Py.bind (Py.modify (set_vars (F vs))) k)).
Proof.
  intros H Hk o. rewrite bind_gets, bind_modify.
  eapply later_trans; [|apply Hk].
  destruct (H (vars o)) as (H1 & H2 & H3 & H4 & H5).
  unfold later. cbn. repeat split; auto using incl_refl.
Qed.

Lemma keeps_update_reg (F : Registry -> Registry) :
  keeps later (Py.bind (Py.gets reg) (fun r => Py.modify (set_reg (F r)))).
Proof.
  intros o. cbn. unfold later. cbn. repeat split; auto using incl_refl.
Qed.

Lemma keeps_for_each {A} (l : list A) (f : A -> Py.M OptModel unit) :
  (forall x, keeps later (f x)) -> keeps later (Py.for_each l f).
Proof.
  intros H. induction l; simpl; [apply (@keeps_ret _ _ later_refl)|].
  apply (@keeps_bind _ _ later_trans); [apply H|]. intros _. exact IHl.
Qed.

Lemma keeps_diverge {A} : keeps later (Py.diverge (A:=A)).
Proof. intros o. apply later_refl. Qed.

Ltac grow :=
  lazymatch goal with
  | |- keeps _ (Py.bind (Py.gets vars) (fun _ => Py.modify (set_vars _))) =>
      apply keeps_update_vars; intros ?; cbn [v_irr v_y v_y_y v_e v_profit];
      repeat split; reflexivity
  | |- keeps _ (Py.bind (Py.gets vars)
                  (fun _ => Py.bind (Py.modify (set_vars _)) _)) =>
      apply keeps_update_vars_then;
      [ intros ?; cbn [v_irr v_y v_y_y v_e v_profit]; repeat split; reflexivity
      | ]
  | |- keeps _ (Py.bind (Py.gets reg) (fun _ => Py.modify (set_reg _))) =>
      apply keeps_update_reg
  | |- keeps _ (Py.bind _ _) => apply (@keeps_bind _ _ later_trans); [|intros ?]
  | |- keeps _ (Py.ret _) => apply (@keeps_ret _ _ later_refl)
  | |- keeps _ (Py.raise _) => apply (@keeps_raise _ _ later_refl)
  | |- keeps _ (Py.lift _) => apply (@keeps_lift _ _ later_refl)
  | |- keeps _ Py.get => apply (@keeps_get _ _ later_refl)
  | |- keeps _ (Py.gets _) => apply keeps_gets
  | |- keeps _ Py.diverge => apply keeps_diverge
  | |- keeps _ (m_addMVar _ _ _ _ _) => apply keeps_addMVar
  | |- keeps _ (m_addVar _ _ _ _) => apply keeps_addVar
  | |- keeps _ (m_addConstrs _) => apply keeps_addConstrs
  | |- keeps _ (print _) => apply keeps_print
  | |- keeps _ (set_field_msg _ _) => apply keeps_set_field_msg
  | |- keeps _ (Py.for_each _ _) => apply keeps_for_each; intros ?
  | |- keeps _ (Py.modify (set_reg _)) => apply keeps_set_reg
  | |- keeps _ (Py.modify (set_wr _)) => apply keeps_set_wr
  | |- keeps _ (Py.modify (set_time_window _)) => apply keeps_set_time_window
  | |- keeps _ (Py.modify (fun _ => set_msg _ _)) => apply keeps_set_msg
  | |- keeps _ (Py.modify (fun _ => set_bounds_ub_irr _ _)) =>
      apply keeps_set_bounds_ub_irr
  | |- keeps _ (Py.modify (fun _ => set_alphas _ _)) => apply keeps_set_alphas
  | |- keeps _ (Py.modify (fun _ => set_eval_metrics _ _)) =>
      apply keeps_set_eval_metrics
  | |- keeps _ (Py.modify (fun _ => set_model (Grb.setObjective _ _ _) _)) =>
      apply keeps_setObjective
  | |- keeps _ (if ?b then _ else _) => destruct b
  | |- keeps _ (match ?x with Some _ => _ | None => _ end) => destruct x
  | |- keeps _ (match ?x with (_, _) => _ end) => destruct x
  end.

Lemma keeps_add_window id c_i a cap years :
  keeps later (add_window id c_i a cap years).
Proof. unfold add_window. repeat grow. Qed.

Lemma keeps_middle_period id a wr tw : forall fuel c_i start rem,
  keeps later (middle_period fuel id a wr tw c_i start rem).
Proof.
  induction fuel as [|fuel IH]; intros c_i start rem; simpl;
    destruct (rem >? tw)%Z;
    try apply keeps_diverge; try apply (@keeps_ret _ _ later_refl).
  apply (@keeps_bind _ _ later_trans); [apply keeps_add_window|].
  intros _. apply IH.
Qed.

Lemma keeps_setup_constr_wr id wr fl tw st rw tail :
  keeps later (setup_constr_wr id wr fl tw st rw tail).
Proof.
  unfold setup_constr_wr.
  repeat lazymatch goal with
         | |- keeps _ (add_window _ _ _ _ _) => apply keeps_add_window
         | |- keeps _ (middle_period _ _ _ _ _ _ _ _) =>
             apply keeps_middle_period
         | _ => grow
         end.
Qed.

Lemma keeps_setup_constr_finance : keeps later setup_constr_finance.
Proof. unfold setup_constr_finance. cbv zeta. repeat grow. Qed.

Lemma keeps_add_metric metric al : keeps later (add_metric metric al).
Proof. unfold add_metric. cbv zeta. repeat grow. Qed.

Lemma keeps_setup_obj ad : keeps later (setup_obj ad).
Proof.
  unfold setup_obj. cbv zeta.
  repeat lazymatch goal with
         | |- keeps _ (add_metric _ _) => apply keeps_add_metric
         | _ => grow
         end.
Qed.

Lemma keeps_setup_constr_field fid prec rf ia irf ite :
  keeps later (setup_constr_field fid prec rf ia irf ite).
Proof.
  unfold setup_constr_field. cbv zeta.
  repeat grow.
Qed.


Lemma feasible_extends s m m' :
  Grb.extends m m' -> Grb.feasible s m' -> Grb.feasible s m.
Proof.
  intros [Hv Hc] [Fv Fc]. split; rewrite Forall_forall in *; auto.
Qed.

(** *** Walking along a run that returned *)

Lemma skip_modify {B} f (k : unit -> Py.M OptModel B) o r :
  Py.bind (Py.modify f) k o = r -> exists o1, k tt o1 = r.
Proof. intros H. exists (f o). exact H. Qed.

Lemma skip_addMVar {B} sh vt nm lb ub (k : Grb.mvar -> Py.M OptModel B) o r :
  Py.bind (m_addMVar sh vt nm lb ub) k o = r ->
  exists o1, k (Grb.MVar nm sh) o1 = r.
Proof. intros H. rewrite bind_addMVar in H. eexists. exact H. Qed.

Lemma skip_addVar {B} vt nm lb ub (k : Grb.var -> Py.M OptModel B) o r :
  Py.bind (m_addVar vt nm lb ub) k o = r ->
  exists o1, k (Grb.Var nm []) o1 = r.
Proof. intros H. rewrite bind_addVar in H. eexists. exact H. Qed.

Lemma skip_addConstrs {B} cs (k : unit -> Py.M OptModel B) o r :
  Py.bind (m_addConstrs cs) k o = r -> exists o1, k tt o1 = r.
Proof. intros H. rewrite bind_addConstrs in H. eexists. exact H. Qed.

Lemma skip_unit {B} (c : Py.M OptModel unit) (k : unit -> Py.M OptModel B)
    o o' b :
  Py.bind c k o = (o', Ok b) -> exists o1, k tt o1 = (o', Ok b).
Proof. intros H. apply bind_inv in H as (o1 & [] & _ & H). now exists o1. Qed.

(** What a step has added is still there at the end. *)
Lemma found_addConstrs {B} cs (k : unit -> Py.M OptModel B) o o' b :
  Py.bind (m_addConstrs cs) k o = (o', Ok b) ->
  keeps later (k tt) ->
  incl cs (Grb.m_constrs (model o')).
Proof.
  rewrite bind_addConstrs. intros H Hk.
  specialize (Hk (set_model (Grb.addConstrs cs (model o)) o)).
  rewrite H in Hk. apply later_constrs in Hk. cbn in Hk.
  intros c Hc. apply Hk. apply in_or_app. now right.
Qed.

Lemma found_addMVar {B} sh vt nm lb ub (k : Grb.mvar -> Py.M OptModel B)
    o o' b :
  Py.bind (m_addMVar sh vt nm lb ub) k o = (o', Ok b) ->
  keeps later (k (Grb.MVar nm sh)) ->
  incl (decls sh vt nm lb ub) (Grb.m_vars (model o')).
Proof.
  rewrite bind_addMVar. intros H Hk.
  specialize (Hk (set_model (fst (Grb.addMVar sh vt nm lb ub (model o))) o)).
  rewrite H in Hk. destruct Hk as ([Hv _] & _). cbn in Hv.
  intros d Hd. apply Hv. apply in_or_app. now right.
Qed.

End GrowFacts.

Module FieldFacts.
Import OptModel Reading OptModelFacts GrowFacts FieldReading.

Ltac kept := cbv zeta; repeat grow.

Ltac discharge F :=
  match type of F with
  | ?P -> _ =>
      let K := fresh in
      assert (K : P) by (cbv beta; kept); specialize (F K); clear K
  end.

(** One step along a run that returned; the state after it is kept
    abstract. *)
Ltac walk H :=
  lazymatch type of H with
  | Py.bind (Py.bind _ _) _ _ = _ => rewrite bind_bind in H
  | Py.bind Py.get _ _ = _ => rewrite bind_get in H
  | Py.bind (Py.gets _) _ _ = _ => rewrite bind_gets in H
  | Py.bind (Py.ret _) _ _ = _ => rewrite bind_ret in H
  | Py.bind (Py.raise _) _ _ = _ => rewrite bind_raise in H; discriminate H
  | Py.bind (Py.lift ?r) _ _ = _ =>
      rewrite bind_lift in H; destruct r eqn:?; try discriminate H
  | Py.bind (if ?b then Py.ret tt else Py.raise _) _ _ = _ =>
      destruct b eqn:?; [|rewrite bind_raise in H; discriminate H]
  | Py.bind (Py.modify _) _ _ = _ =>
      apply skip_modify in H; destruct H as [? H]
  | Py.bind (set_field_msg _ _) _ _ = _ =>
      apply skip_unit in H; destruct H as [? H]
  | Py.bind (m_addMVar _ _ _ _ _) _ _ = _ =>
      apply skip_addMVar in H; destruct H as [? H]
  | Py.bind (m_addVar _ _ _ _) _ _ = _ =>
      apply skip_addVar in H; destruct H as [? H]
  | Py.bind (m_addConstrs _) _ _ = _ =>
      apply skip_addConstrs in H; destruct H as [? H]
  end; cbv beta in H.

(** The same, keeping what the step has added. *)
Ltac mark H F :=
  lazymatch type of H with
  | Py.bind (m_addMVar _ _ _ _ _) _ _ = _ =>
      pose proof (found_addMVar _ _ _ _ _ _ _ H) as F; discharge F
  | Py.bind (m_addConstrs _) _ _ = _ =>
      pose proof (found_addConstrs _ _ _ H) as F; discharge F
  end; walk H.

Lemma in_cells3 n_s n_c n_h i j h :
  (i < n_s)%nat -> (j < n_c)%nat -> (h < n_h)%nat ->
  In (i, j, h) (cells3 n_s n_c n_h).
Proof.
  intros Hi Hj Hh. unfold cells3. apply in_flat_map. exists (i, j). split.
  - now apply in_cells.
  - apply in_map_iff. exists h. split; [reflexivity|apply in_seq; lia].
Qed.

Lemma in_decls sh vt nm lb ub idx :
  In idx (Grb.indices sh) ->
  In {| Grb.d_var := Grb.Var nm idx; Grb.d_vtype := vt; Grb.d_lb := lb;
        Grb.d_ub := ub |} (decls sh vt nm lb ub).
Proof. intros H. unfold decls. apply in_map_iff. now exists idx. Qed.

Lemma in_indices3 a b c i j h :
  (i < a)%nat -> (j < b)%nat -> (h < c)%nat ->
  In [i; j; h] (Grb.indices [a; b; c]).
Proof.
  intros Hi Hj Hh. simpl. apply in_flat_map. exists i.
  split; [apply in_seq; lia|]. apply in_map. apply in_flat_map. exists j.
  split; [apply in_seq; lia|]. apply in_map. apply in_flat_map. exists h.
  split; [apply in_seq; lia|]. now left.
Qed.

Lemma field_inv fid prec rf ia irf ite o o' :
  setup_constr_field fid prec rf ia irf ite o = (o', Ok tt) ->
  let n_s := area_split (coef o) in
  let n_c := n_c (opts o) in
  let n_h := n_h (opts o) in
  later o o' /\
  incl (decls [n_s; n_c; n_h] Grb.Continuous (vname fid ".irr(cm)")
          (Grb.Fin 0) (Grb.Fin (bounds_ub_w o - prec)))
       (Grb.m_vars (model o')) /\
  incl (decls [n_s; n_c; n_h] Grb.Continuous (vname fid ".w_")
          (Grb.Fin 0) (Grb.Fin 1)) (Grb.m_vars (model o')) /\
  incl (decls [n_s; n_c; 1%nat] Grb.Binary (vname fid ".i_area")
          (Grb.Fin 0) (Grb.Fin 1)) (Grb.m_vars (model o')) /\
  incl (decls [n_s; n_c; 1%nat] Grb.Binary (vname fid ".i_rain_fed")
          (Grb.Fin 0) (Grb.Fin 1)) (Grb.m_vars (model o')) /\
  (forall i, (i < n_s)%nat ->
     In (Grb.Lin (cname fid ".i_area") (zs [i; 0%nat])
           (Grb.quicksum (map (fun j => cell fid ".i_area" i j 0%nat) (seq 0 n_c)))
           Grb.EQ (Grb.Const 1)) (Grb.m_constrs (model o'))) /\
  (forall i j h, (i < n_s)%nat -> (j < n_c)%nat -> (h < n_h)%nat ->
     In (Grb.Lin (cname fid ".w(cm)") (zs [i; j; h]) (cell fid ".w(cm)" i j h)
           Grb.EQ (Grb.Add (cell fid ".irr(cm)" i j h) (Grb.Const prec)))
        (Grb.m_constrs (model o')) /\
     In (Grb.Lin (cname fid ".w_") (zs [i; j; h]) (cell fid ".w_" i j h)
           Grb.EQ (Grb.DivC (cell fid ".w(cm)" i j h) (col (wmax (coef o)) j)))
        (Grb.m_constrs (model o')) /\
     In (Grb.Lin (cname fid ".irr(cm)") (zs [i; j; h])
           (Grb.Mul (cell fid ".irr(cm)" i j h)
              (Grb.Sub (Grb.Const 1) (cell fid ".i_area" i j 0%nat)))
           Grb.EQ (Grb.Const 0))
        (Grb.m_constrs (model o'))) /\
  (forall inp, ia = Some inp ->
     forall i j, (i < n_s)%nat -> (j < n_c)%nat ->
       In (Grb.Lin (cname fid ".i_area_input") (zs [i; j; 0%nat])
             (cell fid ".i_area" i j 0%nat) Grb.EQ (Grb.Const (entry inp i j)))
          (Grb.m_constrs (model o'))) /\
  (rf = false -> irf = None ->
     forall i j, (i < n_s)%nat -> (j < n_c)%nat ->
       In (Grb.Lin (cname fid ".no_i_rain_fed") (zs [i; j; 0%nat])
             (cell fid ".i_rain_fed" i j 0%nat) Grb.EQ (Grb.Const 0))
          (Grb.m_constrs (model o'))) /\
  (forall inp, irf = Some inp ->
     forall i j h, (i < n_s)%nat -> (j < n_c)%nat -> (h < n_h)%nat ->
       In (Grb.Lin (cname fid ".i_rain_fed_input") (zs [i; j; 0%nat])
             (cell fid ".i_rain_fed" i j 0%nat) Grb.EQ (Grb.Const (entry inp i j)))
          (Grb.m_constrs (model o')) /\
       In (Grb.Lin (cname fid ".i_rain_fed") (zs [i; j; 0%nat])
             (Grb.Sub (cell fid ".i_area" i j 0%nat) (cell fid ".i_rain_fed" i j 0%nat))
             Grb.GE (Grb.Const 0))
          (Grb.m_constrs (model o')) /\
       In (Grb.Lin (cname fid ".irr_rain_fed") (zs [i; j; h])
             (Grb.Mul (cell fid ".irr(cm)" i j h) (cell fid ".i_rain_fed" i j 0%nat))
             Grb.EQ (Grb.Const 0))
          (Grb.m_constrs (model o'))).
Proof.
  intros H n_s n_c n_h.
  assert (Hl : later o o').
  { pose proof (keeps_setup_constr_field fid prec rf ia irf ite o) as K.
    now rewrite H in K. }
  split; [exact Hl|].
  unfold setup_constr_field in H. cbv zeta in H.
  do 4 walk H. do 4 walk H.
  mark H Firr. walk H. mark H Fw_. do 6 walk H.
  mark H Fia. mark H Firf.
  (* crop types given as an input *)
  match type of H with
  | Py.bind _ ?K _ = _ =>
      assert (Bia :
        (forall inp, ia = Some inp ->
           incl (map (fun '(i, j) =>
                        Grb.Lin (cname fid ".i_area_input") (zs [i; j; 0%nat])
                          (Grb.V (Grb.at_ (Grb.MVar (vname fid ".i_area")
                                             [n_s; n_c; 1%nat]) [i; j; 0%nat]))
                          Grb.EQ (Grb.Const (entry inp i j)))
                     (cells n_s n_c)) (Grb.m_constrs (model o'))) /\
        exists s1, K tt s1 = (o', Ok tt))
  end.
  { destruct ia as [inp|].
    - do 2 walk H. walk H. mark H Fin. walk H.
      split; [|eexists; exact H].
      intros inp' E. inversion E; subst inp'. exact Fin.
    - walk H. split; [discriminate|eexists; exact H]. }
  clear H. destruct Bia as (Fin & s1 & H). cbv beta in H.
  mark H Fsum.
  (* rain-fed option *)
  match type of H with
  | Py.bind _ ?K _ = _ =>
      assert (Brf :
        ((rf = false -> irf = None ->
          incl (map (fun '(i, j) =>
                       Grb.Lin (cname fid ".no_i_rain_fed") (zs [i; j; 0%nat])
                         (Grb.V (Grb.at_ (Grb.MVar (vname fid ".i_rain_fed")
                                            [n_s; n_c; 1%nat]) [i; j; 0%nat]))
                         Grb.EQ (Grb.Const 0))
                    (cells n_s n_c)) (Grb.m_constrs (model o'))) /\
         (forall inp, irf = Some inp ->
          incl (map (fun '(i, j) =>
                       Grb.Lin (cname fid ".i_rain_fed_input")
                         (zs [i; j; 0%nat])
                         (Grb.V (Grb.at_ (Grb.MVar (vname fid ".i_rain_fed")
                                            [n_s; n_c; 1%nat]) [i; j; 0%nat]))
                         Grb.EQ (Grb.Const (entry inp i j)))
                    (cells n_s n_c)) (Grb.m_constrs (model o')) /\
          incl (map (fun '(i, j) =>
                       Grb.Lin (cname fid ".i_rain_fed") (zs [i; j; 0%nat])
                         (Grb.Sub
                            (Grb.V (Grb.at_ (Grb.MVar (vname fid ".i_area")
                                               [n_s; n_c; 1%nat])
                                      [i; j; 0%nat]))
                            (Grb.V (Grb.at_ (Grb.MVar (vname fid ".i_rain_fed")
                                               [n_s; n_c; 1%nat])
                                      [i; j; 0%nat])))
                         Grb.GE (Grb.Const 0))
                    (cells n_s n_c)) (Grb.m_constrs (model o')) /\
          incl (map (fun '(i, j, h) =>
                       Grb.Lin (cname fid ".irr_rain_fed") (zs [i; j; h])
                         (Grb.Mul
                            (Grb.V (Grb.at_ (Grb.MVar (vname fid ".irr(cm)")
                                               [n_s; n_c; n_h]) [i; j; h]))
                            (Grb.V (Grb.at_ (Grb.MVar (vname fid ".i_rain_fed")
                                               [n_s; n_c; 1%nat])
                                      [i; j; 0%nat])))
                         Grb.EQ (Grb.Const 0))
                    (cells3 n_s n_c n_h)) (Grb.m_constrs (model o')))) /\
        exists s2, K tt s2 = (o', Ok tt))
  end.
  { destruct irf as [inp|].
    - cbv iota in H. do 2 walk H. do 2 walk H. mark H F1.
      walk H. walk H. mark H F2. mark H F3.
      split; [|eexists; exact H]. split; [discriminate|].
      intros inp' E. inversion E; subst inp'. auto.
    - cbv iota in H. destruct rf.
      + do 2 walk H. walk H. walk H. walk H.
        split; [|eexists; exact H]. split; [discriminate|discriminate].
      + mark H F1. split; [|eexists; exact H].
        split; [auto|discriminate]. }
  clear H. destruct Brf as ((Fno & Frain) & s2 & H). cbv beta in H.
  mark H Fw. mark H Fw_c. do 3 walk H. mark H Firrc.
  clear H.
  assert (Hc2 : forall i j, (i < n_s)%nat -> (j < n_c)%nat ->
                  In (i, j) (cells n_s n_c))
    by (intros; now apply in_cells).
  split; [exact Firr|]. split; [exact Fw_|].
  split; [exact Fia|]. split; [exact Firf|].
  split.
  { intros i Hi. apply Fsum. apply in_map_iff. exists i.
    split; [reflexivity|apply in_seq; lia]. }
  split.
  { intros i j h Hi Hj Hh. repeat split.
    - apply Fw. apply in_map_iff. exists (i, j, h).
      split; [reflexivity|now apply in_cells3].
    - apply Fw_c. apply in_map_iff. exists (i, j, h).
      split; [reflexivity|now apply in_cells3].
    - apply Firrc. apply in_map_iff. exists (i, j, h).
      split; [reflexivity|now apply in_cells3]. }
  split.
  { intros inp E i j Hi Hj. apply (Fin inp E). apply in_map_iff.
    exists (i, j). split; [reflexivity|auto]. }
  split.
  { intros E1 E2 i j Hi Hj. apply (Fno E1 E2). apply in_map_iff.
    exists (i, j). split; [reflexivity|auto]. }
  intros inp E i j h Hi Hj Hh.
  destruct (Frain inp E) as (G1 & G2 & G3). repeat split.
  - apply G1. apply in_map_iff. exists (i, j). split; [reflexivity|auto].
  - apply G2. apply in_map_iff. exists (i, j). split; [reflexivity|auto].
  - apply G3. apply in_map_iff. exists (i, j, h).
    split; [reflexivity|now apply in_cells3].
Qed.

End FieldFacts.

Module FieldCaseFacts.
Import OptModel Reading OptModelFacts FieldCase.

Lemma one_field_ok :
  setup_constr_field "f1" 0 false (Some [[1]]) None None (Scenario.ini 1) =
  (one_field, Ok tt).
Proof. vm_compute. reflexivity. Qed.

Lemma wet_field_ok :
  setup_constr_field "f1" 25 false None None None (Scenario.ini2 1) =
  (wet_field, Ok tt).
Proof. vm_compute. reflexivity. Qed.

Ltac idle_bound :=
  unfold Grb.in_bounds, Grb.above, Grb.below, Grb.holds, idle_field;
  simpl; unfold Q2R; simpl; repeat split; try lra; auto.

Lemma idle_field_feasible : Grb.feasible idle_field (model one_field).
Proof.
  unfold Grb.feasible.
  set (m := model one_field). vm_compute in m. subst m.
  cbn [Grb.m_vars Grb.m_constrs].
  split.
  - repeat (apply Forall_cons; [idle_bound|]). apply Forall_nil.
  - repeat (apply Forall_cons; [idle_bound|]). apply Forall_nil.
Qed.

End FieldCaseFacts.

Module FieldMore.
Import OptModel Reading OptModelFacts GrowFacts FieldReading FieldFacts.

Lemma holds_in s m m' c :
  Grb.extends m m' -> Grb.feasible s m' -> In c (Grb.m_constrs m) ->
  Grb.holds s c.
Proof.
  intros [_ Hc] [_ Fc] Hin. rewrite Forall_forall in Fc. auto.
Qed.

Lemma bounds_in s m m' d :
  Grb.extends m m' -> Grb.feasible s m' -> In d (Grb.m_vars m) ->
  Grb.in_bounds s d.
Proof.
  intros [Hv _] [Fv _] Hin. rewrite Forall_forall in Fv. auto.
Qed.

Lemma Q2R_pos q : 0 < q -> (0 < Q2R q)%R.
Proof. intros H. rewrite <- Q2R_0. now apply Qlt_Rlt. Qed.

(** What a feasible point looks like on one cell of a field. *)
Lemma field_cell fid prec rf ia irf ite o o' m s i j h :
  setup_constr_field fid prec rf ia irf ite o = (o', Ok tt) ->
  Grb.extends (model o') m -> Grb.feasible s m ->
  (i < area_split (coef o))%nat -> (j < n_c (opts o))%nat ->
  (h < n_h (opts o))%nat ->
  let irr := s (cell_var fid ".irr(cm)" i j h) in
  let planted := s (cell_var fid ".i_area" i j 0%nat) in
  (0 <= irr)%R /\ (planted = 0 \/ planted = 1)%R /\
  (irr * (1 - planted) = 0)%R /\
  (0 < col (wmax (coef o)) j ->
   (irr + Q2R prec <= Q2R (col (wmax (coef o)) j))%R).
Proof.
  intros H Hm Hf Hi Hj Hh irr planted.
  destruct (@field_inv _ _ _ _ _ _ _ _ H)
    as (_ & Firr & Fw_ & Fia & _ & _ & Fc & _).
  destruct (Fc i j h Hi Hj Hh) as (Cw & Cw_ & Cirr).
  apply (@holds_in s _ _ _ Hm Hf) in Cw, Cw_, Cirr. simpl in Cw, Cw_, Cirr.
  assert (Birr := @bounds_in s _ _ _ Hm Hf
                    (Firr _ (@in_decls _ _ _ _ _ _ (in_indices3 Hi Hj Hh)))).
  assert (Bw_ := @bounds_in s _ _ _ Hm Hf
                   (Fw_ _ (@in_decls _ _ _ _ _ _ (in_indices3 Hi Hj Hh)))).
  assert (Bia := @bounds_in s _ _ _ Hm Hf
                   (Fia _ (@in_decls _ _ _ _ _ _
                             (in_indices3 Hi Hj (Nat.lt_0_succ 0))))).
  destruct Birr as (Blo & _). destruct Bw_ as (_ & Bhi & _).
  destruct Bia as (_ & _ & Bbin).
  cbn in Blo, Bhi, Bbin. rewrite Q2R_0 in Blo. rewrite Q2R_one in Bhi.
  rewrite Q2R_one, Q2R_0 in Cirr.
  repeat split.
  - exact Blo.
  - exact Bbin.
  - exact Cirr.
  - intros Hpos. apply Q2R_pos in Hpos.
    fold (cell_var fid ".w_" i j h) in Bhi.
    unfold cell, cell_var in *. rewrite Cw_, Cw in Bhi.
    subst irr. unfold cell_var.
    apply (Rmult_le_compat_r _ _ _ (Rlt_le _ _ Hpos)) in Bhi.
    unfold Rdiv in Bhi. rewrite Rmult_assoc, Rinv_l in Bhi by lra. lra.
Qed.


(** X15.  Set-up never takes anything back.  Whatever its outcome
    (returning, raising or not ending), each of [setup_constr_field],
    [setup_constr_wr], [setup_constr_finance] and [setup_obj] leaves every
    variable and constraint the model had, the dimensions, the coefficients
    and the shared arrays; so a point that is feasible afterwards was
    feasible before. *)
Theorem setup_only_adds o fid prec rf ia irf ite id wr fl tw st rw tail ad :
  Forall (fun o' => later o o' /\
                    forall s, Grb.feasible s (model o') ->
                              Grb.feasible s (model o))
    [fst (setup_constr_field fid prec rf ia irf ite o);
     fst (setup_constr_wr id wr fl tw st rw tail o);
     fst (setup_constr_finance o);
     fst (setup_obj ad o)].
Proof.
  assert (G : forall o', later o o' ->
                later o o' /\
                forall s, Grb.feasible s (model o') -> Grb.feasible s (model o)).
  { intros o' Hl. split; [exact Hl|]. intros s.
    apply feasible_extends. apply Hl. }
  apply Forall_cons; [apply G, keeps_setup_constr_field|].
  apply Forall_cons; [apply G, keeps_setup_constr_wr|].
  apply Forall_cons; [apply G, keeps_setup_constr_finance|].
  apply Forall_cons; [apply G, keeps_setup_obj|].
  apply Forall_nil.
Qed.

Lemma setup_only_adds_witness :
  later (Scenario.ini 1) Scenario.with_finance /\
  (Grb.feasible Scenario.idle (model Scenario.with_finance) ->
   Grb.feasible Scenario.idle (model (Scenario.ini 1))).
Proof.
  pose proof (@setup_only_adds (Scenario.ini 1) "f1" 0 false None None None
                "W" 50 all 3 None None (tail_str "wr") None) as H.
  apply Forall_inv_tail, Forall_inv_tail, Forall_inv in H.
  destruct H as [H1 H2]. split; [exact H1|apply H2].
Defined.

(** X16.  A field at a feasible point.  After [setup_constr_field] has
    returned, and whatever is added to the model later, every feasible point
    has on each sub-area exactly one crop planted (the indicators are 0 or 1
    and sum to one over the crop options), irrigates only the planted crop,
    never a negative depth, and keeps irrigation plus precipitation within
    the water requirement of the crop option, for every crop option whether
    planted or not. *)
Theorem field_feasible_point fid prec rf ia irf ite o o' m s i j h :
  setup_constr_field fid prec rf ia irf ite o = (o', Ok tt) ->
  Grb.extends (model o') m -> Grb.feasible s m ->
  (i < area_split (coef o))%nat -> (j < n_c (opts o))%nat ->
  (h < n_h (opts o))%nat ->
  let irr := s (cell_var fid ".irr(cm)" i j h) in
  let planted := s (cell_var fid ".i_area" i j 0%nat) in
  (0 <= irr)%R /\ (planted = 0 \/ planted = 1)%R /\
  (planted = 0%R -> irr = 0%R) /\
  fold_right Rplus 0%R
    (map (fun j' => s (cell_var fid ".i_area" i j' 0%nat))
         (seq 0 (n_c (opts o)))) = 1%R /\
  (0 < col (wmax (coef o)) j ->
   (irr + Q2R prec <= Q2R (col (wmax (coef o)) j))%R).
Proof.
  intros H Hm Hf Hi Hj Hh irr planted.
  destruct (@field_cell fid prec rf ia irf ite o o' m s i j h H Hm Hf Hi Hj Hh)
    as (H1 & H2 & H3 & H4).
  fold irr in H1, H3, H4. fold planted in H2, H3.
  split; [exact H1|]. split; [exact H2|].
  split; [intros E; rewrite E in H3; lra|].
  split; [|exact H4].
  destruct (@field_inv _ _ _ _ _ _ _ _ H) as (_ & _ & _ & _ & _ & Fsum & _).
  specialize (Fsum i Hi). apply (@holds_in s _ _ _ Hm Hf) in Fsum.
  simpl in Fsum. rewrite eval_quicksum, map_map, Q2R_one in Fsum.
  exact Fsum.
Qed.

Lemma field_feasible_point_witness :
  let s := FieldCase.idle_field in
  (0 <= s (cell_var "f1" ".irr(cm)" 0 0 0))%R /\
  s (cell_var "f1" ".i_area" 0 0 0) = 1%R.
Proof.
  destruct (@field_feasible_point "f1" 0 false (Some [[1]]) None None
              (Scenario.ini 1) FieldCase.one_field
              (model FieldCase.one_field) FieldCase.idle_field 0 0 0
              FieldCaseFacts.one_field_ok (extends_refl _)
              FieldCaseFacts.idle_field_feasible)
    as (H1 & _ & _ & H4 & _).
  - vm_compute. lia.
  - vm_compute. lia.
  - vm_compute. lia.
  - split; [exact H1|]. reflexivity.
Defined.

(** X17.  The guard of [setup_constr_field] lets through fields whose model
    has no feasible point.  The precipitation is compared with the largest
    water requirement, but the model bounds the applied water by the
    requirement of each crop option: when the call returns and the field has
    a cell, a crop option with a positive requirement below the
    precipitation leaves the model, and any model built on it, without a
    feasible point. *)
Theorem field_wetter_than_a_crop_is_infeasible
    fid prec rf ia irf ite o o' m s j :
  setup_constr_field fid prec rf ia irf ite o = (o', Ok tt) ->
  Grb.extends (model o') m ->
  (1 <= area_split (coef o))%nat -> (1 <= n_h (opts o))%nat ->
  (j < n_c (opts o))%nat ->
  0 < col (wmax (coef o)) j -> col (wmax (coef o)) j < prec ->
  ~ Grb.feasible s m.
Proof.
  intros H Hm Hs Hh Hj Hpos Hlt Hf.
  destruct (@field_cell fid prec rf ia irf ite o o' m s 0 j 0 H Hm Hf
              ltac:(lia) Hj ltac:(lia)) as (H1 & _ & _ & H4).
  specialize (H4 Hpos). apply Qlt_Rlt in Hlt. lra.
Qed.

Lemma field_wetter_than_a_crop_is_infeasible_witness :
  snd (setup_constr_field "f1" 25 false None None None (Scenario.ini2 1)) =
    Ok tt /\
  forall s, ~ Grb.feasible s (model FieldCase.wet_field).
Proof.
  split; [vm_compute; reflexivity|]. intros s.
  apply (@field_wetter_than_a_crop_is_infeasible "f1" 25 false None None None
           (Scenario.ini2 1) FieldCase.wet_field (model FieldCase.wet_field)
           s 1 FieldCaseFacts.wet_field_ok (extends_refl _)).
  - vm_compute. lia.
  - vm_compute. lia.
  - vm_compute. lia.
  - reflexivity.
  - reflexivity.
Defined.

(** X18.  Choices given to [setup_constr_field] are pinned.  At every
    feasible point the crop indicator of a cell equals the given one; with
    rain-fed areas given, the rain-fed indicator equals the given one, lies
    under the crop indicator, and a cell given as rain-fed is not irrigated;
    with the rain-fed option off and no rain-fed areas given, no cell is
    rain-fed. *)
Theorem field_given_choices fid prec rf ia irf ite o o' m s i j h :
  setup_constr_field fid prec rf ia irf ite o = (o', Ok tt) ->
  Grb.extends (model o') m -> Grb.feasible s m ->
  (i < area_split (coef o))%nat -> (j < n_c (opts o))%nat ->
  (h < n_h (opts o))%nat ->
  let irr := s (cell_var fid ".irr(cm)" i j h) in
  let planted := s (cell_var fid ".i_area" i j 0%nat) in
  let rain_fed := s (cell_var fid ".i_rain_fed" i j 0%nat) in
  (forall inp, ia = Some inp -> planted = Q2R (entry inp i j)) /\
  (forall inp, irf = Some inp ->
     rain_fed = Q2R (entry inp i j) /\ (rain_fed <= planted)%R /\
     (entry inp i j == 1 -> irr = 0%R)) /\
  (rf = false -> irf = None -> rain_fed = 0%R).
Proof.
  intros H Hm Hf Hi Hj Hh irr planted rain_fed.
  destruct (@field_inv _ _ _ _ _ _ _ _ H)
    as (_ & _ & _ & _ & _ & _ & _ & Fin & Fno & Frain).
  split; [|split].
  - intros inp E. specialize (Fin inp E i j Hi Hj).
    apply (@holds_in s _ _ _ Hm Hf) in Fin. exact Fin.
  - intros inp E. destruct (Frain inp E i j h Hi Hj Hh) as (G1 & G2 & G3).
    apply (@holds_in s _ _ _ Hm Hf) in G1, G2, G3.
    simpl in G1, G2, G3. rewrite Q2R_0 in G2, G3.
    fold (cell_var fid ".i_rain_fed" i j 0) in G1, G2, G3.
    fold (cell_var fid ".i_area" i j 0) in G2.
    fold (cell_var fid ".irr(cm)" i j h) in G3.
    fold rain_fed in G1, G2, G3. fold planted in G2. fold irr in G3.
    split; [exact G1|]. split; [lra|].
    intros E1. apply Qeq_eqR in E1. rewrite Q2R_one in E1.
    rewrite G1, E1 in G3. lra.
  - intros E1 E2. specialize (Fno E1 E2 i j Hi Hj).
    apply (@holds_in s _ _ _ Hm Hf) in Fno. simpl in Fno.
    rewrite Q2R_0 in Fno. exact Fno.
Qed.

Lemma field_given_choices_witness :
  FieldCase.idle_field (cell_var "f1" ".i_area" 0 0 0) =
    Q2R (entry [[1]] 0 0) /\
  FieldCase.idle_field (cell_var "f1" ".i_rain_fed" 0 0 0) = 0%R.
Proof.
  destruct (@field_given_choices "f1" 0 false (Some [[1]]) None None
              (Scenario.ini 1) FieldCase.one_field
              (model FieldCase.one_field) FieldCase.idle_field 0 0 0
              FieldCaseFacts.one_field_ok (extends_refl _)
              FieldCaseFacts.idle_field_feasible)
    as (H1 & _ & H3).
  - vm_compute. lia.
  - vm_compute. lia.
  - vm_compute. lia.
  - split; [exact (H1 _ eq_refl)|exact (H3 eq_refl eq_refl)].
Defined.

End FieldMore.

Module FilesFacts.
Import OptModel Files.

Lemma length_append s t :
  String.length (s ++ t) = (String.length s + String.length t)%nat.
Proof. induction s; simpl; [reflexivity|]. now rewrite IHs. Qed.

Lemma last_chars_length n s : (String.length (last_chars n s) <= n)%nat.
Proof.
  induction s as [|c s IH]; [simpl; lia|].
  cbn [last_chars].
  destruct (Nat.leb (String.length (String c s)) n) eqn:E; [|exact IH].
  now apply Nat.leb_le in E.
Qed.

Lemma last_chars_app n s t :
  String.length t = n -> t <> EmptyString -> last_chars n (s ++ t)%string = t.
Proof.
  intros Hn Ht. induction s as [|c s IH].
  - destruct t as [|c t]; [congruence|].
    change (EmptyString ++ String c t)%string with (String c t).
    cbn [last_chars]. rewrite Hn. now rewrite Nat.leb_refl.
  - change (String c s ++ t)%string with (String c (s ++ t)).
    cbn [last_chars].
    destruct (Nat.leb (String.length (String c (s ++ t))) n) eqn:E;
      [|exact IH].
    apply Nat.leb_le in E. simpl in E. rewrite length_append in E. lia.
Qed.

Lemma last_written_app d f m : last_written (d ++ [(f, m)]) = Some f.
Proof.
  unfold last_written. rewrite map_app. cbn [map]. rewrite last_last.
  reflexivity.
Qed.



End FilesFacts.

Module SolveFacts.
Import OptModel Reading OptModelFacts.

Lemma lookup_assign {V} k k' (v : V) d :
  Py.lookup k (Py.assign k' v d) =
  if String.eqb k k' then Some v else Py.lookup k d.
Proof.
  induction d as [|[k1 v1] d IH]; simpl.
  - now destruct (String.eqb k k').
  - destruct (String.eqb_spec k' k1) as [->|N]; simpl.
    + now destruct (String.eqb k k1).
    + destruct (String.eqb_spec k k1) as [->|N1].
      * destruct (String.eqb_spec k1 k'); [congruence|reflexivity].
      * exact IH.
Qed.

Lemma keys_assign {V} k (v : V) d x :
  In x (map fst (Py.assign k v d)) <-> x = k \/ In x (map fst d).
Proof.
  induction d as [|[k1 v1] d IH]; simpl.
  - intuition congruence.
  - destruct (String.eqb_spec k k1) as [->|N]; simpl.
    + intuition congruence.
    + rewrite IH. intuition congruence.
Qed.

Lemma nodup_assign {V} k (v : V) d :
  NoDup (map fst d) -> NoDup (map fst (Py.assign k v d)).
Proof.
  induction d as [|[k1 v1] d IH]; simpl; intros H.
  - constructor; [intros []|constructor].
  - inversion H as [|? ? Hn Hd]; subst.
    destruct (String.eqb_spec k k1) as [->|N]; simpl.
    + now constructor.
    + constructor; [|now apply IH].
      rewrite keys_assign. intros [E|E]; [congruence|contradiction].
Qed.

Lemma nodup_update {V} (l d : list (string * V)) :
  NoDup (map fst d) -> NoDup (map fst (Py.update d l)).
Proof.
  unfold Py.update. revert d.
  induction l as [|[k v] l IH]; intros d H; simpl; [exact H|].
  apply IH. now apply nodup_assign.
Qed.

Lemma lookup_update_notin {V} k (l d : list (string * V)) :
  ~ In k (map fst l) -> Py.lookup k (Py.update d l) = Py.lookup k d.
Proof.
  unfold Py.update. revert d.
  induction l as [|[k1 v1] l IH]; intros d H; simpl; [reflexivity|].
  simpl in H. rewrite IH by tauto. rewrite lookup_assign.
  destruct (String.eqb_spec k k1); [subst; tauto|reflexivity].
Qed.

Lemma lookup_in {V} k (v : V) l : Py.lookup k l = Some v -> In k (map fst l).
Proof.
  induction l as [|[k1 v1] l IH]; simpl; [discriminate|].
  destruct (String.eqb_spec k k1); [now left|]. intros H. right. now apply IH.
Qed.

Lemma lookup_notin {V} k (l : list (string * V)) :
  Py.lookup k l = None -> ~ In k (map fst l).
Proof.
  induction l as [|[k1 v1] l IH]; simpl; [tauto|].
  destruct (String.eqb_spec k k1); [discriminate|].
  intros H [E|E]; [congruence|]. now apply IH.
Qed.

(** With distinct keys, what [other] holds wins. *)
Lemma lookup_update {V} k (v : V) l d :
  NoDup (map fst l) -> Py.lookup k l = Some v ->
  Py.lookup k (Py.update d l) = Some v.
Proof.
  unfold Py.update. revert d.
  induction l as [|[k1 v1] l IH]; intros d Hn H; simpl in *; [discriminate|].
  inversion Hn as [|? ? Hnot Hd]; subst.
  destruct (String.eqb_spec k k1) as [->|N].
  - inversion H; subst.
    change (fold_left _ l ?d) with (Py.update d l).
    rewrite lookup_update_notin by assumption. apply lookup_assign_same.
  - now apply IH.
Qed.

(** The parameter loop of [solve] touches the model's parameters only. *)
Lemma set_params l : forall s,
  let s' := fold_left (fun acc (kv : string * Q) =>
              set_model (Grb.setParam (fst kv) (snd kv) (model acc)) acc) l s in
  Grb.m_params (model s') = Py.update (Grb.m_params (model s)) l /\
  Grb.m_vars (model s') = Grb.m_vars (model s) /\
  Grb.m_constrs (model s') = Grb.m_constrs (model s) /\
  Grb.m_obj (model s') = Grb.m_obj (model s) /\
  Grb.m_disposed (model s') = Grb.m_disposed (model s) /\
  out s' = out s /\ gurobi_pars s' = gurobi_pars s /\ stdout s' = stdout s.
Proof.
  induction l as [|kv l IH]; intros s; simpl; [repeat split; reflexivity|].
  destruct (IH (set_model (Grb.setParam (fst kv) (snd kv) (model s)) s))
    as (H1 & H2 & H3 & H4 & H5 & H6 & H7 & H8).
  cbv zeta in *. rewrite H1, H2, H3, H4, H5, H6, H7, H8.
  repeat split; reflexivity.
Qed.

End SolveFacts.

Module SolveMore.
Import OptModel Reading OptModelFacts SolveFacts.



End SolveMore.

Module ObjectiveMore.
Import OptModel Reading OptModelFacts.

Lemma mem_in x l : mem x l = true -> In x l.
Proof.
  unfold mem. intros H. apply existsb_exists in H as (y & Hy & E).
  apply String.eqb_eq in E. now subst.
Qed.

(** [setup_obj] after its first block, on the instance [oa] that block
    leaves. *)
Lemma setup_obj_from ad o :
  let oa := match ad with
            | Some d =>
                set_eval_metrics
                  (weighted_metrics (Py.update (alphas o) d))
                  (set_alphas (Py.update (alphas o) d) o)
            | None => o
            end in
  setup_obj ad o =
  if mem (eval_metric (opts o)) (eval_metrics oa)
  then Py.for_each (eval_metrics oa) (obj_body (eval_metric (opts o))) oa
  else (oa, Raise ValueError).
Proof.
  cbv zeta. unfold setup_obj. destruct ad as [d|].
  - rewrite bind_bind, bind_modify, bind_modify, bind_get, bind_if.
    cbn [opts set_eval_metrics set_alphas eval_metrics alphas].
    destruct (mem (eval_metric (opts o)) _); [|reflexivity].
    rewrite bind_ret. reflexivity.
  - rewrite bind_ret, bind_get, bind_if.
    destruct (mem (eval_metric (opts o)) _); [|reflexivity].
    rewrite bind_ret. reflexivity.
Qed.

(** X21.  When [setup_obj] refuses and what it needs.  The weights are the
    instance's, overwritten by [alpha_dict] when given.  If the evaluation
    metric has no weight the call raises [ValueError] before anything is
    added to the model.  If the call returns, the evaluation metric is
    weighted, the horizon is not zero, and every weighted metric is one of
    the two the code supports, ["profit"] and ["yield_pct"]: a weight on any
    other metric makes the call fail. *)
Theorem setup_obj_outcomes ad o :
  let al := match ad with
            | Some d => Py.update (alphas o) d
            | None => alphas o
            end in
  let ems := match ad with
             | Some _ => weighted_metrics al
             | None => eval_metrics o
             end in
  let em := eval_metric (opts o) in
  let r := setup_obj ad o in
  (mem em ems = false ->
   snd r = Raise ValueError /\ model (fst r) = model o /\
   vars (fst r) = vars o /\ alphas (fst r) = al) /\
  (snd r = Ok tt ->
   In em ems /\ n_h (opts o) <> 0%nat /\
   forall metric, In metric ems ->
     (metric = "profit"%string \/ metric = "yield_pct"%string) /\
     exists alpha, Py.lookup metric al = Some (Some alpha)).
Proof.
  intros al ems em r.
  pose proof (setup_obj_from ad o) as E. cbv zeta in E.
  set (oa := match ad with
             | Some d => set_eval_metrics
                           (weighted_metrics (Py.update (alphas o) d))
                           (set_alphas (Py.update (alphas o) d) o)
             | None => o
             end) in E.
  assert (Ha : alphas oa = al /\ eval_metrics oa = ems /\
               model oa = model o /\ vars oa = vars o /\ opts oa = opts o).
  { subst oa al ems. destruct ad; repeat split; reflexivity. }
  destruct Ha as (Ha1 & Ha2 & Ha3 & Ha4 & Ha5).
  fold r in E. rewrite Ha2 in E. fold em in E.
  split.
  - intros Hm. rewrite Hm in E. rewrite E. cbn [fst snd]. auto.
  - intros Hok. destruct (mem em ems) eqn:Hm.
    2:{ rewrite E in Hok. discriminate. }
    assert (Hin : In em ems) by now apply mem_in.
    assert (E2 : Py.for_each ems (obj_body em) oa = (fst r, Ok tt)).
    { rewrite <- E, <- Hok. now destruct r. }
    split; [exact Hin|].
    destruct (obj_loop _ _ _ E2) as (_ & _ & _ & Hall & _).
    split.
    + destruct ems as [|m1 l]; [destruct Hin|].
      simpl in E2. apply bind_inv in E2 as (o1 & [] & Hb & _).
      apply obj_body_inv in Hb as (alpha & o2 & _ & Hadd & _).
      destruct Hadd as (mv & _ & Hn & _). now rewrite Ha5 in Hn.
    + intros metric Hmet.
      destruct (Hall metric Hmet) as (alpha & mv & H1 & H2 & _).
      split; [|exists alpha; now rewrite <- Ha1].
      unfold eval_metric_vars in H2.
      destruct (String.eqb_spec metric "profit"); [now left|].
      destruct (String.eqb_spec metric "yield_pct"); [now right|].
      discriminate.
Qed.

Lemma setup_obj_outcomes_witness :
  let r := setup_obj (Some [("profit"%string, None);
                            ("yield_pct"%string, Some 1)])
             (Scenario.ini 1) in
  snd r = Raise ValueError /\ model (fst r) = model (Scenario.ini 1).
Proof.
  destruct (proj1 (@setup_obj_outcomes
                     (Some [("profit"%string, None);
                            ("yield_pct"%string, Some 1)])
                     (Scenario.ini 1))) as (H1 & H2 & _).
  - vm_compute. reflexivity.
  - split; [exact H1|exact H2].
Defined.

End ObjectiveMore.

Module TraceFacts.
Import OptModel Reading OptModelFacts FarmerFacts Trace.

Lemma quiet_refl o : quiet o o.
Proof. split; reflexivity. Qed.

Lemma quiet_trans o1 o2 o3 : quiet o1 o2 -> quiet o2 o3 -> quiet o1 o3.
Proof. intros [A B] [C D]. split; congruence. Qed.

Lemma quiet_recorded fid o1 o2 o3 :
  quiet o1 o2 -> recorded fid o2 o3 -> recorded fid o1 o3.
Proof.
  intros [A B] (C & D & E). unfold recorded. rewrite <- A. auto.
Qed.

Lemma quiet_addMVar sh vt nm lb ub : keeps quiet (m_addMVar sh vt nm lb ub).
Proof. intros o. split; reflexivity. Qed.

Lemma quiet_addVar vt nm lb ub : keeps quiet (m_addVar vt nm lb ub).
Proof. intros o. split; reflexivity. Qed.

Lemma quiet_addConstrs cs : keeps quiet (m_addConstrs cs).
Proof. intros o. split; reflexivity. Qed.

Lemma quiet_set_msg f : keeps quiet (Py.modify (fun o => set_msg (f o) o)).
Proof. intros o. split; reflexivity. Qed.

Lemma quiet_set_bounds_ub_irr f :
  keeps quiet (Py.modify (fun o => set_bounds_ub_irr (f o) o)).
Proof. intros o. split; reflexivity. Qed.

Lemma quiet_set_field_msg fid f : keeps quiet (set_field_msg fid f).
Proof.
  intros o. unfold set_field_msg. cbn.
  destruct (Py.lookup fid (msg o)); split; reflexivity.
Qed.

Lemma all_or_nothing_bind {A B} fid (c : Py.M OptModel A)
    (k : A -> Py.M OptModel B) :
  keeps quiet c -> (forall a, all_or_nothing fid (k a)) ->
  all_or_nothing fid (Py.bind c k).
Proof.
  intros Hc Hk o. specialize (Hc o). unfold Py.bind.
  destruct (c o) as [o1 [a| |]]; simpl in *; auto.
  specialize (Hk a o1).
  destruct (k a o1) as [o2 [b| |]]; simpl in *.
  - eapply quiet_recorded; eauto.
  - eapply quiet_trans; eauto.
  - eapply quiet_trans; eauto.
Qed.

(** The last four statements of [setup_constr_field]. *)
Lemma all_or_nothing_store fid (fv : FieldVars) :
  all_or_nothing fid
    (Py.bind (Py.gets vars) (fun vs =>
     Py.bind (Py.modify (set_vars
       {| v_irr := v_irr vs; v_v := v_v vs; v_y := v_y vs;
          v_y_y := v_y_y vs; v_e := v_e vs; v_profit := v_profit vs;
          v_cost_e := v_cost_e vs; v_rev := v_rev vs; v_Sa := v_Sa vs;
          v_fields := Py.assign fid fv (v_fields vs) |})) (fun _ =>
     Py.bind (Py.gets reg) (fun r =>
     Py.modify (set_reg
       {| field_ids := field_ids r; well_ids := well_ids r;
          water_right_ids := water_right_ids r;
          n_fields := S (n_fields r); n_wells := n_wells r;
          n_water_rights := n_water_rights r |}))))).
Proof.
  intros o. cbn. unfold recorded. cbn. repeat split.
  rewrite lookup_assign_same. discriminate.
Qed.

Ltac hush :=
  lazymatch goal with
  | |- all_or_nothing _ (Py.bind (Py.gets vars)
         (fun _ => Py.bind (Py.modify (set_vars _)) _)) =>
      apply all_or_nothing_store
  | |- all_or_nothing _ (Py.bind _ _) =>
      apply all_or_nothing_bind; [|intros ?]
  | |- keeps _ (Py.bind _ _) => apply (@keeps_bind _ _ quiet_trans); [|intros ?]
  | |- keeps _ (Py.ret _) => apply (@keeps_ret _ _ quiet_refl)
  | |- keeps _ (Py.raise _) => apply (@keeps_raise _ _ quiet_refl)
  | |- keeps _ (Py.lift _) => apply (@keeps_lift _ _ quiet_refl)
  | |- keeps _ (m_addMVar _ _ _ _ _) => apply quiet_addMVar
  | |- keeps _ (m_addVar _ _ _ _) => apply quiet_addVar
  | |- keeps _ (m_addConstrs _) => apply quiet_addConstrs
  | |- keeps _ (set_field_msg _ _) => apply quiet_set_field_msg
  | |- keeps _ (Py.modify (fun _ => set_msg _ _)) => apply quiet_set_msg
  | |- keeps _ (Py.modify (fun _ => set_bounds_ub_irr _ _)) =>
      apply quiet_set_bounds_ub_irr
  | |- keeps _ (if ?b then _ else _) => destruct b
  | |- keeps _ (match ?x with Some _ => _ | None => _ end) => destruct x
  | |- keeps _ (let '(_, _) := ?x in _) => destruct x
  end.

End TraceFacts.

Module TraceMore.
Import OptModel Reading OptModelFacts FarmerFacts Trace TraceFacts.



End TraceMore.

Module FinanceMore.
Import OptModel Reading OptModelFacts GrowFacts FieldFacts FieldMore
       FinanceReading.

Lemma map_result_inv {A B} (f : A -> result B) (g : A -> B) l r :
  (forall x y, f x = Ok y -> y = g x) ->
  Py.map_result f l = Ok r ->
  r = map g l /\ forall x, In x l -> f x = Ok (g x).
Proof.
  intros Hg. revert r. induction l as [|x l IH]; intros r H; simpl in H.
  - inversion H. split; [reflexivity|intros ? []].
  - destruct (f x) as [y| |] eqn:E; try discriminate.
    destruct (Py.map_result f l) as [ys| |]; try discriminate.
    inversion H; subst. destruct (IH ys eq_refl) as [-> Hall].
    rewrite (Hg _ _ E). split; [reflexivity|].
    intros z [<-|Hz]; [now rewrite E, (Hg _ _ E)|auto].
Qed.

Lemma in_combine_seq {A} (l : list A) b j c :
  nth_error l j = Some c ->
  In ((b + j)%nat, c) (combine (seq b (List.length l)) l).
Proof.
  revert b j. induction l as [|c0 l IH]; intros b j H.
  - destruct j; discriminate.
  - destruct j as [|j]; simpl in *.
    + inversion H; subst. left. f_equal. lia.
    + right. replace (b + S j)%nat with (S b + j)%nat by lia. now apply IH.
Qed.

(** X23.  The money at a feasible point.  After [setup_constr_finance] has
    returned, and whatever is added later, every feasible point has in each
    year an energy cost equal to the energy used times the energy price, and
    a revenue equal to the yields of all sub-areas and crop options, each
    times the profit per unit of its crop; the call returns only if every
    crop option has such a profit configured (when a sub-area exists). *)
Theorem finance_feasible_point o o2 m s h :
  setup_constr_finance o = (o2, Ok tt) ->
  Grb.extends (model o2) m -> Grb.feasible s m ->
  (h < n_h (opts o))%nat ->
  s (cost_e_var h) =
    (s (Grb.at_ (v_e (vars o)) [h]) * Q2R (energy_price (coef o)))%R /\
  s (rev_var h) =
    fold_right Rplus 0%R
      (map (fun ic => (s (Grb.at_ (v_y (vars o)) [fst ic; fst (snd ic); h]) *
                       Q2R (price_of o (snd (snd ic))))%R)
           (priced_cells o)) /\
  ((1 <= area_split (coef o))%nat ->
   forall c, In c (crop_options (opts o)) ->
             Py.lookup c (crop_profit (coef o)) <> None).
Proof.
  intros H Hm Hf Hh.
  unfold setup_constr_finance in H. cbv zeta in H.
  walk H. walk H. walk H. mark H Fcost. walk H.
  match goal with
  | He : Py.map_result _ _ = Ok ?l |- _ =>
      apply (@map_result_inv _ _ _
               (fun ic => (fst ic, fst (snd ic),
                           price_of o (snd (snd ic))))) in He;
        [destruct He as [-> Hall]|]
  end.
  2:{ intros [i [j c]] y. cbn. unfold price_of.
      destruct (Py.lookup c (crop_profit (coef o))); [|discriminate].
      intros E. now inversion E. }
  mark H Frev. clear H.
  split; [|split].
  - assert (Hin : In (Grb.Lin "c.cost_e" (zs [h])
                        (Grb.V (Grb.at_ (Grb.MVar "cost_e" [n_h (opts o)]) [h]))
                        Grb.EQ
                        (Grb.Mul (Grb.V (Grb.at_ (v_e (vars o)) [h]))
                                 (Grb.Const (energy_price (coef o)))))
                     (Grb.m_constrs (model o2))).
    { apply Fcost. apply in_map_iff. exists h.
      split; [reflexivity|apply in_seq; lia]. }
    apply (@holds_in s _ _ _ Hm Hf) in Hin. exact Hin.
  - assert (Hin : In (Grb.Lin "c.rev" (zs [h])
                        (Grb.V (Grb.at_ (Grb.MVar "rev" [n_h (opts o)]) [h]))
                        Grb.EQ
                        (Grb.quicksum
                           (map (fun ijp => let '(i, j, p) := ijp in
                                   Grb.Mul
                                     (Grb.V (Grb.at_ (v_y (vars o)) [i; j; h]))
                                     (Grb.Const p))
                                (map (fun ic => (fst ic, fst (snd ic),
                                                 price_of o (snd (snd ic))))
                                     (priced_cells o)))))
                     (Grb.m_constrs (model o2))).
    { apply Frev. apply in_map_iff. exists h.
      split; [reflexivity|apply in_seq; lia]. }
    apply (@holds_in s _ _ _ Hm Hf) in Hin. simpl in Hin.
    rewrite eval_quicksum, !map_map in Hin. exact Hin.
  - intros Hs c Hc E.
    apply In_nth_error in Hc as (j & Hj).
    assert (Hin : In (0%nat, (j, c)) (priced_cells o)).
    { unfold priced_cells. apply in_flat_map. exists 0%nat.
      split; [apply in_seq; lia|]. apply in_map.
      apply (@in_combine_seq _ _ 0 j c Hj). }
    specialize (Hall _ Hin). cbn in Hall. rewrite E in Hall. discriminate.
Qed.

Lemma finance_feasible_point_witness :
  Scenario.idle (cost_e_var 0) =
    (Scenario.idle (Grb.at_ (v_e (vars (Scenario.ini 1))) [0%nat]) *
     Q2R (energy_price (coef (Scenario.ini 1))))%R /\
  Py.lookup "corn" (crop_profit (coef (Scenario.ini 1))) <> None.
Proof.
  destruct (@finance_feasible_point (Scenario.ini 1) Scenario.with_finance
              (model Scenario.with_finance) Scenario.idle 0)
    as (H1 & _ & H3).
  - vm_compute. reflexivity.
  - split; apply incl_refl.
  - unfold Grb.feasible.
    set (m := model Scenario.with_finance). vm_compute in m. subst m.
    cbn [Grb.m_vars Grb.m_constrs].
    split; repeat (apply Forall_cons;
      [unfold Grb.in_bounds, Grb.above, Grb.below, Scenario.idle;
       simpl; unfold Q2R; simpl; repeat split; try lra|]); apply Forall_nil.
  - vm_compute. lia.
  - split; [exact H1|]. apply H3; [vm_compute; lia|]. vm_compute. now left.
Defined.

End FinanceMore.
